(** * EmailValidator: a shallow embedding of [emailValidator.js]

    The development follows the class [EmailValidator] method by method.
    JavaScript strings are modelled by [string]; every [ascii] stands for one
    UTF-16 code unit in the range U+0000..U+00FF.  JavaScript numbers that the
    validator handles (priorities, reply codes, time-outs, retry counts) are
    integers and are modelled by [Z].  Everything the validator obtains from
    the outside world (the resolver, the mail servers, the scheduler that
    decides a race between a promise and a timer, the clock) is collected in
    an explicit environment. *)

From Stdlib Require Import String Ascii List ZArith Bool Lia Arith.
From Stdlib Require Import DecimalString Sorting.Sorted Sorting.Permutation.
From Stdlib Require DecimalNat DecimalFacts.
Import ListNotations.

Open Scope string_scope.
Open Scope Z_scope.

(* ================================================================== *)
(** ** JavaScript string primitives used by the validator *)

Module JsString.

Definition code (c : ascii) : N := N_of_ascii c.

(** [WhiteSpace] and [LineTerminator] code units below U+0100: TAB, LF, VT,
    FF, CR, SP and NBSP.  These are what [String.prototype.trim] and
    [parseInt] strip. *)
Definition isWhiteSpace (c : ascii) : bool :=
  let n := code c in
  ((9 <=? n) && (n <=? 13) || (n =? 32) || (n =? 160))%N.

Fixpoint trimStart (s : string) : string :=
  match s with
  | EmptyString => EmptyString
  | String c r => if isWhiteSpace c then trimStart r else s
  end.

Definition isEmpty (s : string) : bool :=
  match s with EmptyString => true | _ => false end.

Fixpoint trimEnd (s : string) : string :=
  match s with
  | EmptyString => EmptyString
  | String c r =>
      let r' := trimEnd r in
      if isWhiteSpace c && isEmpty r' then EmptyString else String c r'
  end.

(** [s.trim()] *)
Definition trim (s : string) : string := trimEnd (trimStart s).

Definition isAt (c : ascii) : bool := Ascii.eqb c "@".

(** [(s.match(/@/g) || []).length] *)
Fixpoint countAt (s : string) : nat :=
  match s with
  | EmptyString => O
  | String c r => if isAt c then S (countAt r) else countAt r
  end.

(** [s.split('@')]: the pieces between the separators, never empty as a
    list. *)
Fixpoint split (s : string) : list string :=
  match s with
  | EmptyString => [EmptyString]
  | String c r =>
      if isAt c then EmptyString :: split r
      else match split r with
           | h :: t => String c h :: t
           | [] => [String c EmptyString]
           end
  end.

(** [s.startsWith(p)] *)
Definition startsWith (p s : string) : bool := String.prefix p s.

Fixpoint rev (s : string) : string :=
  match s with
  | EmptyString => EmptyString
  | String c r => rev r ++ String c EmptyString
  end.

(** [s.endsWith(p)] *)
Definition endsWith (p s : string) : bool := String.prefix (rev p) (rev s).

(** [s.includes(p)] *)
Fixpoint includes (p s : string) : bool :=
  String.prefix p s ||
  match s with
  | EmptyString => false
  | String _ r => includes p r
  end.

(** [s.substr(0, n)] *)
Definition substr0 (n : nat) (s : string) : string := String.substring 0 n s.

Definition isUpper (c : ascii) : bool :=
  let n := code c in
  ((65 <=? n) && (n <=? 90) ||
   (192 <=? n) && (n <=? 222) && negb (n =? 215))%N.

Definition lowerChar (c : ascii) : ascii :=
  if isUpper c then ascii_of_N (code c + 32) else c.

(** [s.toLowerCase()] on code units below U+0100. *)
Fixpoint toLowerCase (s : string) : string :=
  match s with
  | EmptyString => EmptyString
  | String c r => String (lowerChar c) (toLowerCase r)
  end.

(** Decimal rendering of an array length inside a template literal. *)
Definition ofNat (n : nat) : string := NilEmpty.string_of_uint (Nat.to_uint n).

(** Value of a character as a digit of the given radix (10 or 16). *)
Definition digitVal (radix : Z) (c : ascii) : option Z :=
  let n := Z.of_N (code c) in
  let v :=
    if (48 <=? n) && (n <=? 57) then Some (n - 48)
    else if (97 <=? n) && (n <=? 122) then Some (n - 87)
    else if (65 <=? n) && (n <=? 90) then Some (n - 55)
    else None in
  match v with
  | Some d => if d <? radix then Some d else None
  | None => None
  end.

Fixpoint parseDigits (radix : Z) (s : string) (acc : option Z) : option Z :=
  match s with
  | EmptyString => acc
  | String c r =>
      match digitVal radix c with
      | Some d =>
          parseDigits radix r
            (Some (radix * match acc with Some a => a | None => 0 end + d))
      | None => acc
      end
  end.

(** [parseInt(s)] without a radix argument; [None] is [NaN]. *)
Definition parseInt (s : string) : option Z :=
  let s1 := trimStart s in
  let '(sign, s2) :=
    match s1 with
    | String "-" r => (-1, r)
    | String "+" r => (1, r)
    | _ => (1, s1)
    end in
  let '(radix, s3) :=
    match s2 with
    | String "0" (String x r) =>
        if Ascii.eqb x "x" || Ascii.eqb x "X" then (16, r) else (10, s2)
    | _ => (10, s2)
    end in
  option_map (Z.mul sign) (parseDigits radix s3 None).

End JsString.

(* ================================================================== *)
(** ** Regular expressions

    [RegExp.prototype.test] for a pattern anchored with [^] and [$] and built
    from character classes, concatenation, alternation and repetition decides
    membership of the whole string in the pattern's language; the matcher
    below decides the same by derivatives. *)

Module Regex.

Inductive regex : Type :=
| Void
| Eps
| Class (p : ascii -> bool)
| Cat (r1 r2 : regex)
| Alt (r1 r2 : regex)
| Star (r : regex).

Fixpoint nullable (r : regex) : bool :=
  match r with
  | Void => false
  | Eps => true
  | Class _ => false
  | Cat r1 r2 => nullable r1 && nullable r2
  | Alt r1 r2 => nullable r1 || nullable r2
  | Star _ => true
  end.

Definition cat (r1 r2 : regex) : regex :=
  match r1, r2 with
  | Void, _ => Void
  | _, Void => Void
  | Eps, _ => r2
  | _, Eps => r1
  | _, _ => Cat r1 r2
  end.

Definition alt (r1 r2 : regex) : regex :=
  match r1, r2 with
  | Void, _ => r2
  | _, Void => r1
  | _, _ => Alt r1 r2
  end.

Fixpoint deriv (c : ascii) (r : regex) : regex :=
  match r with
  | Void => Void
  | Eps => Void
  | Class p => if p c then Eps else Void
  | Cat r1 r2 =>
      if nullable r1 then alt (cat (deriv c r1) r2) (deriv c r2)
      else cat (deriv c r1) r2
  | Alt r1 r2 => alt (deriv c r1) (deriv c r2)
  | Star r1 => cat (deriv c r1) (Star r1)
  end.

Fixpoint test (r : regex) (s : string) : bool :=
  match s with
  | EmptyString => nullable r
  | String c s' => test (deriv c r) s'
  end.

(** [r+], [r?] and [r{0,n}] *)
Definition Plus (r : regex) : regex := Cat r (Star r).
Definition Opt (r : regex) : regex := Alt Eps r.
Fixpoint UpTo (n : nat) (r : regex) : regex :=
  match n with
  | O => Eps
  | S k => Alt Eps (Cat r (UpTo k r))
  end.
Definition Lit (c : ascii) : regex := Class (Ascii.eqb c).

End Regex.

(* ================================================================== *)
(** ** Data model *)

(** A thrown or rejected [Error]: its optional [code] and its [message]. *)
Record JsError : Type := mkError {
  err_code : option string;
  err_message : string
}.

Definition Error (msg : string) : JsError := mkError None msg.

(** [error.code || error.message] *)
Definition codeOrMessage (e : JsError) : string :=
  match err_code e with
  | Some c => if JsString.isEmpty c then err_message e else c
  | None => err_message e
  end.

(** What a [throw] carries and a [catch] receives.  [ThrowError e] is an
    [Error] object, [ThrowNull] and [ThrowUndefined] are the values [null]
    and [undefined].  [ThrowOther first second] is any other value (a number,
    a string, a plain object, an object with a getter): [first] is what
    evaluating [error.message] inside a template literal gives the first
    time and [second] what it gives the second time, a text (["undefined"]
    when the value has no such property) or the value that the read or the
    conversion to a string throws. *)
Inductive Thrown : Type :=
| ThrowError (e : JsError)
| ThrowNull
| ThrowUndefined
| ThrowOther (first second : MessageRead)
with MessageRead : Type :=
| ReadText (text : string)
| ReadThrows (t : Thrown).

(** The argument of [validateEmail].  Callers pass strings; the code also
    guards against anything else.  [VSymbol] is a value whose conversion to a
    string throws a [TypeError]; [VThrowing t] is an object whose [toString]
    throws [t], whatever [t] is; [VOther] is any other value that is not a
    string, whose conversion to a string returns. *)
Inductive JsValue : Type :=
| VString (s : string)
| VSymbol
| VThrowing (t : Thrown)
| VOther.

Record MxRecord : Type := mkMx {
  exchange : string;
  priority : Z
}.

(** One check of the report.  [records] and [response] are the optional extra
    properties of the object; [None] means the property is absent. *)
Record CheckResult : Type := mkCheck {
  passed : bool;
  message : string;
  records : option (list MxRecord);
  response : option string
}.

Record Checks : Type := mkChecks {
  syntax : CheckResult;
  domain : CheckResult;
  mx : CheckResult;
  smtp : CheckResult;
  disposable : CheckResult;
  roleBased : CheckResult
}.

Record ValidationReport : Type := mkReport {
  email : JsValue;
  isValid : bool;
  checks : Checks;
  executionTime : Z;
  timestamp : string
}.

(** The state of a promise once nothing more can happen to it. *)
Inductive Settle (A : Type) : Type :=
| Fulfilled (a : A)
| RejectedWith (e : JsError)
| Pending.
Arguments Fulfilled {A} a.
Arguments RejectedWith {A} e.
Arguments Pending {A}.

(* ================================================================== *)
(** ** The validator object *)

Record Options : Type := mkOptions {
  opt_timeout : option Z;
  opt_retryAttempts : option Z;
  opt_fromEmail : option string;
  opt_verbose : option bool
}.

Record EmailValidator : Type := mkValidator {
  timeout : Z;
  retryAttempts : Z;
  fromEmail : string;
  verbose : bool;
  disposableDomains : list string;
  roleBasedPrefixes : list string
}.

(** [x || d] on an optional number: [undefined] and [0] select the default. *)
Definition orNum (x : option Z) (d : Z) : Z :=
  match x with
  | Some v => if v =? 0 then d else v
  | None => d
  end.

Definition orStr (x : option string) (d : string) : string :=
  match x with
  | Some v => if JsString.isEmpty v then d else v
  | None => d
  end.

Definition orBool (x : option bool) (d : bool) : bool :=
  match x with
  | Some v => if v then v else d
  | None => d
  end.

Definition defaultDisposableDomains : list string :=
  [ "10minutemail.com"; "20minutemail.com"; "guerrillamail.com";
    "mailinator.com"; "tempmail.org"; "temp-mail.org"; "yopmail.com";
    "throwaway.email"; "maildrop.cc"; "trashmail.com"; "dispostable.com";
    "mailnesia.com"; "spamgourmet.com"; "mohmal.com"; "sharklasers.com";
    "grr.la"; "guerrillamailblock.com"; "pokemail.net"; "spam4.me";
    "tempail.com"; "tempemail.com"; "tempinbox.com"; "emailondeck.com";
    "getnada.com"; "harakirimail.com"; "mytrashmail.com"; "mailcatch.com" ].

Definition defaultRoleBasedPrefixes : list string :=
  [ "admin"; "administrator"; "support"; "help"; "info"; "contact";
    "sales"; "marketing"; "billing"; "accounts"; "no-reply"; "noreply";
    "webmaster"; "postmaster"; "hostmaster"; "abuse"; "security";
    "privacy"; "legal"; "compliance"; "hr"; "recruiting"; "careers" ].

(** [new EmailValidator(options)] *)
Definition newEmailValidator (o : Options) : EmailValidator :=
  {| timeout := orNum (opt_timeout o) 2500;
     retryAttempts := orNum (opt_retryAttempts o) 1;
     fromEmail := orStr (opt_fromEmail o) "test@example.com";
     verbose := orBool (opt_verbose o) false;
     disposableDomains := defaultDisposableDomains;
     roleBasedPrefixes := defaultRoleBasedPrefixes |}.

(** [set.has(x)] *)
Definition setHas (set : list string) (x : string) : bool :=
  existsb (String.eqb x) set.

(* ================================================================== *)
(** ** [validateSyntax] *)

Definition isAlnum (c : ascii) : bool :=
  let n := JsString.code c in
  ((97 <=? n) && (n <=? 122) || (65 <=? n) && (n <=? 90) ||
   (48 <=? n) && (n <=? 57))%N.

Definition isLocalChar (c : ascii) : bool :=
  isAlnum c ||
  existsb (Ascii.eqb c)
    (list_ascii_of_string ".!#$%&'*+/=?^_`{|}~-").

Definition isAlnumHyphen (c : ascii) : bool := isAlnum c || Ascii.eqb c "-".

(** [[a-zA-Z0-9](?:[a-zA-Z0-9-]{0,61}[a-zA-Z0-9])?] *)
Definition labelRegex : Regex.regex :=
  Regex.Cat (Regex.Class isAlnum)
    (Regex.Opt (Regex.Cat (Regex.UpTo 61 (Regex.Class isAlnumHyphen))
                          (Regex.Class isAlnum))).

Definition emailRegex : Regex.regex :=
  Regex.Cat (Regex.Plus (Regex.Class isLocalChar))
    (Regex.Cat (Regex.Lit "@")
       (Regex.Cat labelRegex
          (Regex.Star (Regex.Cat (Regex.Lit ".") labelRegex)))).

(** A check carrying only [passed] and [message]. *)
Definition check (p : bool) (m : string) : CheckResult := mkCheck p m None None.

(** The result of [const [a, b] = s.split('@')]; a missing second element is
    [undefined], here [None]. *)
Definition destructure2 (l : list string) : option string * option string :=
  (nth_error l 0, nth_error l 1).

(** [!s || s.length === 0 || s.length > bound] on a possibly undefined [s] *)
Definition badLength (s : option string) (bound : nat) : bool :=
  match s with
  | None => true
  | Some x => JsString.isEmpty x || (String.length x =? 0)%nat
              || (bound <? String.length x)%nat
  end.

Definition strOf (s : option string) : string :=
  match s with Some x => x | None => EmptyString end.

Definition validateSyntax (input : JsValue) : CheckResult :=
  match input with
  | VString raw =>
      if JsString.isEmpty raw then
        check false "Email is required and must be a string"
      else
        let email := JsString.trim raw in
        let atSymbols := JsString.countAt email in
        if negb (atSymbols =? 1)%nat then
          check false "Email must contain exactly one @ symbol"
        else
          let '(localPart, domain) := destructure2 (JsString.split email) in
          if badLength localPart 64 then
            check false "Local part must be 1-64 characters"
          else if badLength domain 253 then
            check false "Domain part must be 1-253 characters"
          else if negb (Regex.test emailRegex email) then
            check false "Email format is invalid according to RFC 5322"
          else if JsString.startsWith "." (strOf localPart)
                  || JsString.endsWith "." (strOf localPart) then
            check false "Local part cannot start or end with a period"
          else if JsString.includes ".." (strOf localPart) then
            check false "Local part cannot contain consecutive periods"
          else if JsString.startsWith "-" (strOf domain)
                  || JsString.endsWith "-" (strOf domain) then
            check false "Domain cannot start or end with a hyphen"
          else
            check true "Email syntax is valid"
  | _ => check false "Email is required and must be a string"
  end.

(* ================================================================== *)
(** ** The environment *)

Definition LF : string := String (ascii_of_nat 10) EmptyString.
Definition CRLF : string := String (ascii_of_nat 13) LF.

(** What a socket can report to its listeners: a chunk of data, the idle
    time-out, an error, the end of the connection, and the firing of the
    session's own watchdog timer. *)
Inductive SocketEvent : Type :=
| Data (chunk : string)
| IdleTimeout
| SocketError (e : JsError)
| Close
| Watchdog.

(** The three stages that [validateEmail] wraps in [withTimeout]. *)
Inductive Stage : Type := StageDomain | StageMx | StageSmtp.

Record Env : Type := mkEnv {
  (** [dns.lookup(domain)] *)
  dnsLookup : option string -> Settle unit;
  (** [dns.resolveMx(domain)] *)
  dnsResolveMx : option string -> Settle (list MxRecord);
  (** what the connection opened in round [attempt] to the host at position
      [idx] of the list, named [host], reports, in order *)
  smtpServer : Z -> nat -> string -> list SocketEvent;
  (** [os.hostname()] *)
  hostname : string;
  (** whether the timer of [timeoutMs] of that stage fires before the
      stage's promise settles *)
  timerFirst : Stage -> Z -> bool;
  (** [Date.now()] at the start and at the return, [new Date().toISOString()] *)
  startTime : Z;
  endTime : Z;
  isoNow : string
}.

(* ================================================================== *)
(** ** [validateDomain] and [validateMX] *)

Definition validateDomain (env : Env) (domain : option string)
  : Settle CheckResult :=
  match dnsLookup env domain with
  | Fulfilled _ => Fulfilled (check true "Domain exists and is resolvable")
  | RejectedWith e =>
      Fulfilled (check false ("Domain lookup failed: " ++ codeOrMessage e))
  | Pending => Pending
  end.

(** [records.sort((a, b) => a.priority - b.priority)]: the stable sort by the
    sign of the comparator. *)
Fixpoint insertByPriority (a : MxRecord) (l : list MxRecord) : list MxRecord :=
  match l with
  | [] => [a]
  | b :: t =>
      if priority a - priority b <=? 0 then a :: b :: t
      else b :: insertByPriority a t
  end.

Fixpoint sortByPriority (l : list MxRecord) : list MxRecord :=
  match l with
  | [] => []
  | a :: t => insertByPriority a (sortByPriority t)
  end.

Definition validateMX (env : Env) (domain : option string)
  : Settle CheckResult :=
  match dnsResolveMx env domain with
  | Fulfilled mxRecords =>
      if (List.length mxRecords =? 0)%nat then
        Fulfilled (mkCheck false "No MX records found for domain" (Some []) None)
      else
        let sortedRecords := sortByPriority mxRecords in
        Fulfilled
          (mkCheck true
             ("Found " ++ JsString.ofNat (List.length sortedRecords)
                ++ " MX record(s)")
             (Some sortedRecords) None)
  | RejectedWith e =>
      Fulfilled
        (mkCheck false ("MX record lookup failed: " ++ codeOrMessage e)
           (Some []) None)
  | Pending => Pending
  end.

(* ================================================================== *)
(** ** [performSMTPCheck]: one session on one socket *)

(** The variables the closures of [performSMTPCheck] share, the socket and
    the promise.  [s_sent] lists what was written while the socket was open,
    in order: this is what reaches the server.  [s_dropped] lists what was
    written after [destroy()]; [destroy()] ends all I/O on the socket, so
    such data is discarded. *)
Record Session : Type := mkSession {
  s_response : string;
  s_step : nat;
  s_destroyed : bool;
  s_watchdogArmed : bool;
  s_sent : list string;
  s_dropped : list string;
  s_settled : option (CheckResult + JsError)
}.

Definition newSession : Session :=
  mkSession EmptyString 0 false true [] [] None.

Definition setResponse (r : string) (s : Session) : Session :=
  mkSession r (s_step s) (s_destroyed s) (s_watchdogArmed s) (s_sent s)
    (s_dropped s) (s_settled s).

Definition stepIncr (s : Session) : Session :=
  mkSession (s_response s) (S (s_step s)) (s_destroyed s) (s_watchdogArmed s)
    (s_sent s) (s_dropped s) (s_settled s).

(** [socket.destroy()] *)
Definition socketDestroy (s : Session) : Session :=
  mkSession (s_response s) (s_step s) true (s_watchdogArmed s) (s_sent s)
    (s_dropped s) (s_settled s).

(** [clearTimeout(timeout)] *)
Definition clearWatchdog (s : Session) : Session :=
  mkSession (s_response s) (s_step s) (s_destroyed s) false (s_sent s)
    (s_dropped s) (s_settled s).

(** [socket.write(data)] *)
Definition socketWrite (data : string) (s : Session) : Session :=
  if s_destroyed s then
    mkSession (s_response s) (s_step s) (s_destroyed s) (s_watchdogArmed s)
      (s_sent s) (s_dropped s ++ [data])%list (s_settled s)
  else
    mkSession (s_response s) (s_step s) (s_destroyed s) (s_watchdogArmed s)
      (s_sent s ++ [data])%list (s_dropped s) (s_settled s).

(** Settling the promise; only the first call has an effect. *)
Definition settle (o : CheckResult + JsError) (s : Session) : Session :=
  match s_settled s with
  | Some _ => s
  | None =>
      mkSession (s_response s) (s_step s) (s_destroyed s) (s_watchdogArmed s)
        (s_sent s) (s_dropped s) (Some o)
  end.

Definition resolve (r : CheckResult) : Session -> Session := settle (inl r).
Definition reject (e : JsError) : Session -> Session := settle (inr e).

Definition cleanup (s : Session) : Session :=
  let s := clearWatchdog s in
  if negb (s_destroyed s) then socketDestroy s else s.

(** A result of the probe: [passed], [message] and the transcript. *)
Definition probeResult (p : bool) (m : string) (s : Session) : CheckResult :=
  mkCheck p m None (Some (JsString.trim (s_response s))).

Definition isCode (code : option Z) (n : Z) : bool :=
  match code with
  | Some c => c =? n
  | None => false
  end.

(** The listener of ['data'].  Nothing in it throws, so the [catch] clause
    around the [switch] has no counterpart here. *)
Definition onData (v : EmailValidator) (env : Env) (email : string)
    (data : string) (s : Session) : Session :=
  let message := JsString.trim data in
  let s := setResponse (s_response s ++ message ++ LF) s in
  let code := JsString.parseInt (JsString.substr0 3 message) in
  match s_step s with
  | 0%nat =>
      if isCode code 220 then
        stepIncr (socketWrite ("HELO " ++ hostname env ++ CRLF) s)
      else
        let s := cleanup s in
        resolve (probeResult false ("Connection rejected: " ++ message) s) s
  | 1%nat =>
      if isCode code 250 then
        stepIncr (socketWrite ("MAIL FROM:<" ++ fromEmail v ++ ">" ++ CRLF) s)
      else
        let s := cleanup s in
        resolve (probeResult false ("HELO rejected: " ++ message) s) s
  | 2%nat =>
      if isCode code 250 then
        stepIncr (socketWrite ("RCPT TO:<" ++ email ++ ">" ++ CRLF) s)
      else
        let s := cleanup s in
        resolve (probeResult false ("MAIL FROM rejected: " ++ message) s) s
  | 3%nat =>
      let s := cleanup s in
      let s := socketWrite ("QUIT" ++ CRLF) s in
      if isCode code 250 then
        resolve (probeResult true "Email address accepted by SMTP server" s) s
      else if isCode code 550 || isCode code 551 || isCode code 553 then
        resolve (probeResult false ("Email address rejected: " ++ message) s) s
      else if isCode code 450 || isCode code 451 || isCode code 452 then
        resolve
          (probeResult false
             ("Temporary failure (possible greylisting): " ++ message) s) s
      else
        resolve (probeResult false ("Unexpected response: " ++ message) s) s
  | _ => s
  end.

(** Delivery of one event.  A destroyed socket emits no more data, time-outs
    or errors, and a cleared or spent timer does not fire. *)
Definition handleEvent (v : EmailValidator) (env : Env) (email : string)
    (ev : SocketEvent) (s : Session) : Session :=
  match ev with
  | Data chunk => if s_destroyed s then s else onData v env email chunk s
  | IdleTimeout =>
      if s_destroyed s then s
      else reject (Error "SMTP socket timeout") (cleanup s)
  | SocketError e =>
      if s_destroyed s then s else reject e (cleanup s)
  | Close => cleanup s
  | Watchdog =>
      if s_watchdogArmed s then
        reject (Error "SMTP connection timeout")
          (socketDestroy (clearWatchdog s))
      else s
  end.

Definition runSession (v : EmailValidator) (env : Env) (email : string)
    (events : list SocketEvent) : Session :=
  let s := fold_left (fun s ev => handleEvent v env email ev s) events
             newSession in
  (* a timer that is still armed when the socket has nothing more to report
     fires *)
  handleEvent v env email Watchdog s.

Definition settlement (s : Session) : Settle CheckResult :=
  match s_settled s with
  | Some (inl r) => Fulfilled r
  | Some (inr e) => RejectedWith e
  | None => Pending
  end.

Definition performSMTPCheck (v : EmailValidator) (env : Env) (email : string)
    (events : list SocketEvent) : Settle CheckResult :=
  settlement (runSession v env email events).

(* ================================================================== *)
(** ** [validateSMTP]: the loop over rounds and hosts *)

Inductive OrchEvent : Type :=
| EvProbe (attempt : Z) (idx : nat) (host : string)
| EvSleep (ms : Z).

Definition smtpExhausted : CheckResult :=
  mkCheck false "SMTP validation failed for all MX servers after retries"
    None (Some EmptyString).

(** The probe made in round [attempt] at the host at position [idx]. *)
Definition probe (v : EmailValidator) (env : Env) (email : string)
    (attempt : Z) (idx : nat) (m : MxRecord) : Settle CheckResult :=
  performSMTPCheck v env email (smtpServer env attempt idx (exchange m)).

(** [for (const mx of mxRecords)]: [None] when the loop runs to its end,
    otherwise how the whole function ends inside the loop. *)
Fixpoint hostLoop (v : EmailValidator) (env : Env) (email : string)
    (attempt : Z) (idx : nat) (mxRecords : list MxRecord)
  : option (Settle CheckResult) * list OrchEvent :=
  match mxRecords with
  | [] => (None, [])
  | m :: rest =>
      let ev := EvProbe attempt idx (exchange m) in
      match probe v env email attempt idx m with
      | Fulfilled result =>
          if passed result then (Some (Fulfilled result), [ev])
          else
            let '(o, t) := hostLoop v env email attempt (S idx) rest in
            (o, ev :: t)
      | RejectedWith _ =>
          let '(o, t) := hostLoop v env email attempt (S idx) rest in
          (o, ev :: t)
      | Pending => (Some Pending, [ev])
      end
  end.

(** [for (let attempt = ...; attempt < this.retryAttempts; attempt++)] with
    an iteration budget [fuel]. *)
Fixpoint attemptLoop (v : EmailValidator) (env : Env) (email : string)
    (mxRecords : list MxRecord) (fuel : nat) (attempt : Z)
  : Settle CheckResult * list OrchEvent :=
  match fuel with
  | O => (Fulfilled smtpExhausted, [])
  | S fuel' =>
      if attempt <? retryAttempts v then
        match hostLoop v env email attempt 0 mxRecords with
        | (Some o, t) => (o, t)
        | (None, t) =>
            let pause :=
              if attempt <? retryAttempts v - 1 then [EvSleep 1000] else [] in
            let '(o, t') :=
              attemptLoop v env email mxRecords fuel' (attempt + 1) in
            (o, (t ++ pause ++ t')%list)
        end
      else (Fulfilled smtpExhausted, [])
  end.

Definition validateSMTP (v : EmailValidator) (env : Env) (email : string)
    (mxRecords : list MxRecord) : Settle CheckResult * list OrchEvent :=
  attemptLoop v env email mxRecords (Z.to_nat (retryAttempts v)) 0.

(* ================================================================== *)
(** ** Reputation heuristics and [parseEmail] *)

Definition checkDisposable (v : EmailValidator) (domain : string)
  : CheckResult :=
  let isDisposable := setHas (disposableDomains v) (JsString.toLowerCase domain) in
  check (negb isDisposable)
    (if isDisposable then "Domain is a known disposable email provider"
     else "Domain is not a disposable email provider").

Definition checkRoleBased (v : EmailValidator) (localPart : string)
  : CheckResult :=
  let isRoleBased := setHas (roleBasedPrefixes v) (JsString.toLowerCase localPart) in
  check (negb isRoleBased)
    (if isRoleBased then "Email appears to be role-based (non-personal)"
     else "Email appears to be personal (not role-based)").

Definition parseEmail (email : string) : option string * option string :=
  destructure2 (JsString.split email).

(* ================================================================== *)
(** ** [withTimeout] *)

(** What [withTimeout] returns when the timer wins. *)
Definition timeoutResult (timeoutMessage : string) : CheckResult :=
  mkCheck false timeoutMessage (Some []) None.

(** [Promise.race([promise, timeoutPromise])]: the promise that settles first
    decides; a promise that never settles loses to the timer. *)
Definition race (env : Env) (stage : Stage) (promise : Settle CheckResult)
    (timeoutMs : Z) (timeoutMessage : string) : CheckResult + JsError :=
  if timerFirst env stage timeoutMs then inr (Error timeoutMessage)
  else match promise with
       | Fulfilled r => inl r
       | RejectedWith e => inr e
       | Pending => inr (Error timeoutMessage)
       end.

(** [inl r] when [withTimeout] returns [r], [inr e] when it throws [e]. *)
Definition withTimeout (env : Env) (stage : Stage)
    (promise : Settle CheckResult) (timeoutMs : Z) (timeoutMessage : string)
  : CheckResult + JsError :=
  match race env stage promise timeoutMs timeoutMessage with
  | inl r => inl r
  | inr error =>
      if String.eqb (err_message error) timeoutMessage then
        inl (timeoutResult timeoutMessage)
      else inr error
  end.

(* ================================================================== *)
(** ** [validateEmail]

    The method fills the object [result] in place, may leave through several
    [return result] statements and catches whatever is thrown in its [try]
    block; what its [catch] clause throws leaves the method.  This is a state
    monad with exceptions over the state below: the report under
    construction and the list of the stage methods called so far. *)

Inductive StageEvent : Type :=
| CallValidateSyntax (email : JsValue)
| CallValidateDomain (domain : option string)
| CallValidateMX (domain : option string)
| CallValidateSMTP (email : string) (mxRecords : option (list MxRecord))
| CallCheckDisposable (domain : option string)
| CallCheckRoleBased (localPart : option string).

Record PipeState : Type := mkPipe {
  result : ValidationReport;
  stages : list StageEvent
}.

(** Computations over that state that return an [A] or throw a value. *)
Definition M (A : Type) : Type := PipeState -> (A + Thrown) * PipeState.

Definition ret {A : Type} (a : A) : M A := fun st => (inl a, st).

Definition bind {A B : Type} (m : M A) (k : A -> M B) : M B :=
  fun st =>
    match m st with
    | (inl a, st') => k a st'
    | (inr e, st') => (inr e, st')
    end.

Definition throw {A : Type} (e : Thrown) : M A := fun st => (inr e, st).

(** [try { m } catch (error) { h error }]; the handler sees the state as the
    body left it, and what the handler throws leaves the statement. *)
Definition tryCatch {A : Type} (m : M A) (h : Thrown -> M A) : M A :=
  fun st =>
    match m st with
    | (inl a, st') => (inl a, st')
    | (inr e, st') => h e st'
    end.

Definition modify (f : ValidationReport -> ValidationReport) : M unit :=
  fun st => (inl tt, mkPipe (f (result st)) (stages st)).

Definition gets {A : Type} (f : ValidationReport -> A) : M A :=
  fun st => (inl (f (result st)), st).

Definition emit (ev : StageEvent) : M unit :=
  fun st => (inl tt, mkPipe (result st) (stages st ++ [ev])%list).

Definition liftE {A : Type} (x : A + Thrown) : M A :=
  match x with
  | inl a => ret a
  | inr e => throw e
  end.

(** A call that returns or throws an [Error] object, as one that returns or
    throws a value. *)
Definition raised {A : Type} (x : A + JsError) : A + Thrown :=
  match x with
  | inl a => inl a
  | inr e => inr (ThrowError e)
  end.

Notation "x <- m ;; k" := (bind m (fun x => k))
  (at level 61, m at next level, right associativity).
Notation "m ;; k" := (bind m (fun _ => k))
  (at level 61, right associativity).

(** Assignments to the fields of [result]. *)
Definition setChecks (f : Checks -> Checks) (r : ValidationReport)
  : ValidationReport :=
  mkReport (email r) (isValid r) (f (checks r)) (executionTime r) (timestamp r).

Definition setSyntax (c : CheckResult) : ValidationReport -> ValidationReport :=
  setChecks (fun k =>
    mkChecks c (domain k) (mx k) (smtp k) (disposable k) (roleBased k)).

Definition setDomain (c : CheckResult) : ValidationReport -> ValidationReport :=
  setChecks (fun k =>
    mkChecks (syntax k) c (mx k) (smtp k) (disposable k) (roleBased k)).

Definition setMx (c : CheckResult) : ValidationReport -> ValidationReport :=
  setChecks (fun k =>
    mkChecks (syntax k) (domain k) c (smtp k) (disposable k) (roleBased k)).

Definition setSmtp (c : CheckResult) : ValidationReport -> ValidationReport :=
  setChecks (fun k =>
    mkChecks (syntax k) (domain k) (mx k) c (disposable k) (roleBased k)).

Definition setDisposable (c : CheckResult)
  : ValidationReport -> ValidationReport :=
  setChecks (fun k =>
    mkChecks (syntax k) (domain k) (mx k) (smtp k) c (roleBased k)).

Definition setRoleBased (c : CheckResult)
  : ValidationReport -> ValidationReport :=
  setChecks (fun k =>
    mkChecks (syntax k) (domain k) (mx k) (smtp k) (disposable k) c).

(** [result.checks.syntax.message = m] *)
Definition setSyntaxMessage (m : string)
  : ValidationReport -> ValidationReport :=
  setChecks (fun k =>
    mkChecks
      (mkCheck (passed (syntax k)) m (records (syntax k)) (response (syntax k)))
      (domain k) (mx k) (smtp k) (disposable k) (roleBased k)).

Definition setIsValid (b : bool) (r : ValidationReport) : ValidationReport :=
  mkReport (email r) b (checks r) (executionTime r) (timestamp r).

Definition setExecutionTime (t : Z) (r : ValidationReport) : ValidationReport :=
  mkReport (email r) (isValid r) (checks r) t (timestamp r).

Definition initialChecks : Checks :=
  {| syntax := check false EmptyString;
     domain := check false EmptyString;
     mx := mkCheck false EmptyString (Some []) None;
     smtp := mkCheck false EmptyString None (Some EmptyString);
     disposable := check true EmptyString;
     roleBased := check true EmptyString |}.

Definition initialReport (env : Env) (input : JsValue) : ValidationReport :=
  {| email := input;
     isValid := false;
     checks := initialChecks;
     executionTime := 0;
     timestamp := isoNow env |}.

(** The conversion of the argument inside a template literal.  The text
    obtained for [VOther] only goes to the log; an object's default text
    stands for it. *)
Definition templateString (input : JsValue) : string + Thrown :=
  match input with
  | VString s => inl s
  | VSymbol =>
      inr (ThrowError (Error "Cannot convert a Symbol value to a string"))
  | VThrowing t => inr t
  | VOther => inl "[object Object]"
  end.

(** The evaluations of [error.message] on one caught value, in order. *)
Inductive Read : Type :=
| FirstRead
| SecondRead.

(** [error.message] inside a template literal, for a caught [error]: an
    [Error] object gives its message, and reading a property of [null] or
    [undefined] throws a [TypeError]. *)
Definition messageOf (error : Thrown) (n : Read) : string + Thrown :=
  match error with
  | ThrowError e => inl (err_message e)
  | ThrowNull =>
      inr (ThrowError
             (Error "Cannot read properties of null (reading 'message')"))
  | ThrowUndefined =>
      inr (ThrowError
             (Error "Cannot read properties of undefined (reading 'message')"))
  | ThrowOther first second =>
      match (match n with FirstRead => first | SecondRead => second end) with
      | ReadText text => inl text
      | ReadThrows t => inr t
      end
  end.

(** [this.log(message)] writes to the console when [verbose] is set and has
    no effect on [result]. *)
Definition log (v : EmailValidator) (msg : string) : M unit := ret tt.

(** [result.executionTime = Date.now() - startTime] *)
Definition stamp (env : Env) : M unit :=
  modify (setExecutionTime (endTime env - startTime env)).

(** [this.validateSMTP(email, mxResult.records)] on a possibly absent
    [records]: iterating over [undefined] rejects the promise. *)
Definition callValidateSMTP (v : EmailValidator) (env : Env) (email : string)
    (mxRecords : option (list MxRecord)) : Settle CheckResult :=
  match mxRecords with
  | Some l => fst (validateSMTP v env email l)
  | None =>
      if 0 <? retryAttempts v then
        RejectedWith (Error "mxRecords is not iterable")
      else Fulfilled smtpExhausted
  end.

(** A method call [x.toLowerCase()] on a possibly undefined [x]. *)
Definition onDefined {A : Type} (f : string -> A) (x : option string)
  : A + JsError :=
  match x with
  | Some s => inl (f s)
  | None =>
      inr (Error "Cannot read properties of undefined (reading 'toLowerCase')")
  end.

(** Steps 4 to 6 and the verdict. *)
Definition smtpAndHeuristics (v : EmailValidator) (env : Env) (raw : string)
    (localPart domainPart : option string) (mxResult : CheckResult)
  : M unit :=
  emit (CallValidateSMTP raw (records mxResult)) ;;
  smtpResult <-
    liftE (raised (withTimeout env StageSmtp
                     (callValidateSMTP v env raw (records mxResult))
                     (timeout v) "SMTP validation timeout")) ;;
  modify (setSmtp smtpResult) ;;
  emit (CallCheckDisposable domainPart) ;;
  disposableResult <-
    liftE (raised (onDefined (checkDisposable v) domainPart)) ;;
  modify (setDisposable disposableResult) ;;
  emit (CallCheckRoleBased localPart) ;;
  roleBasedResult <-
    liftE (raised (onDefined (checkRoleBased v) localPart)) ;;
  modify (setRoleBased roleBasedResult) ;;
  valid <- gets (fun r =>
             passed (syntax (checks r)) && passed (domain (checks r))
             && passed (mx (checks r)) && passed (smtp (checks r))) ;;
  modify (setIsValid valid) ;;
  stamp env.

(** Steps 2 and 3, after [parseEmail]. *)
Definition afterSyntax (v : EmailValidator) (env : Env) (raw : string)
  : M unit :=
  let '(localPart, domainPart) := parseEmail raw in
  emit (CallValidateDomain domainPart) ;;
  domainResult <-
    liftE (raised (withTimeout env StageDomain (validateDomain env domainPart)
                     2000 "Domain lookup timeout")) ;;
  modify (setDomain domainResult) ;;
  if negb (passed domainResult) then stamp env
  else
    emit (CallValidateMX domainPart) ;;
    mxResult <-
      liftE (raised (withTimeout env StageMx (validateMX env domainPart)
                       2000 "MX record lookup timeout")) ;;
    modify (setMx mxResult) ;;
    if negb (passed mxResult) then stamp env
    else smtpAndHeuristics v env raw localPart domainPart mxResult.

(** The body of the [try] block. *)
Definition pipeline (v : EmailValidator) (env : Env) (input : JsValue)
  : M unit :=
  shown <- liftE (templateString input) ;;
  log v ("Starting validation for: " ++ shown) ;;
  emit (CallValidateSyntax input) ;;
  let syntaxResult := validateSyntax input in
  modify (setSyntax syntaxResult) ;;
  if negb (passed syntaxResult) then stamp env
  else
    match input with
    | VString raw => afterSyntax v env raw
    | _ => throw (ThrowError (Error "email.split is not a function"))
    end.

(** The [catch] clause.  It evaluates [error.message] twice, for the log and
    for the report; nothing catches what these evaluations throw. *)
Definition onError (v : EmailValidator) (env : Env) (error : Thrown)
  : M unit :=
  logged <- liftE (messageOf error FirstRead) ;;
  log v ("Validation error: " ++ logged) ;;
  reported <- liftE (messageOf error SecondRead) ;;
  modify (setSyntaxMessage ("Validation error: " ++ reported)) ;;
  stamp env.

Definition runValidateEmail (v : EmailValidator) (env : Env)
    (input : JsValue) : (unit + Thrown) * PipeState :=
  tryCatch (pipeline v env input) (onError v env)
    (mkPipe (initialReport env input) []).

(** How a call ends for its caller: the promise is fulfilled with the report
    or rejected with what was thrown. *)
Inductive Completion : Type :=
| Returned (r : ValidationReport)
| Threw (t : Thrown).

Definition validateEmail (v : EmailValidator) (env : Env) (input : JsValue)
  : Completion :=
  match runValidateEmail v env input with
  | (inl _, st) => Returned (result st)
  | (inr e, _) => Threw e
  end.

(** The stage methods a call of [validateEmail] invokes, in order. *)
Definition stagesOf (v : EmailValidator) (env : Env) (input : JsValue)
  : list StageEvent :=
  stages (snd (runValidateEmail v env input)).

(* ================================================================== *)
(** ** Vocabulary of the statements *)

(** Position of a stage method in the order of the pipeline. *)
Definition stageRank (ev : StageEvent) : nat :=
  match ev with
  | CallValidateSyntax _ => 0
  | CallValidateDomain _ => 1
  | CallValidateMX _ => 2
  | CallValidateSMTP _ _ => 3
  | CallCheckDisposable _ => 4
  | CallCheckRoleBased _ => 5
  end.

(** Strings made of white space only. *)
Fixpoint allWhiteSpace (s : string) : bool :=
  match s with
  | EmptyString => true
  | String c r => JsString.isWhiteSpace c && allWhiteSpace r
  end.

(** One probe per host, in the order of the list, positions counted from
    [idx]. *)
Fixpoint probesFrom (attempt : Z) (idx : nat) (mxRecords : list MxRecord)
  : list OrchEvent :=
  match mxRecords with
  | [] => []
  | m :: rest =>
      EvProbe attempt idx (exchange m) :: probesFrom attempt (S idx) rest
  end.

(** [n] rounds over all hosts, numbered from [attempt], with a pause of
    1000 ms between two consecutive rounds. *)
Fixpoint roundsFrom (n : nat) (attempt : Z) (mxRecords : list MxRecord)
  : list OrchEvent :=
  match n with
  | O => []
  | S k =>
      (probesFrom attempt 0 mxRecords ++
       match k with
       | O => []
       | S _ => EvSleep 1000 :: roundsFrom k (attempt + 1) mxRecords
       end)%list
  end.

Definition fullSchedule (v : EmailValidator) (mxRecords : list MxRecord)
  : list OrchEvent :=
  roundsFrom (Z.to_nat (retryAttempts v)) 0 mxRecords.

(** A probe that settles without accepting the address: it resolves with
    [passed = false] or rejects. *)
Definition probeFails (o : Settle CheckResult) : Prop :=
  match o with
  | Fulfilled r => passed r = false
  | RejectedWith _ => True
  | Pending => False
  end.

Definition byPriority (a b : MxRecord) : Prop := priority a <= priority b.

(** The same validator with other lists of disposable domains and role
    prefixes. *)
Definition withLists (v : EmailValidator) (dd rp : list string)
  : EmailValidator :=
  mkValidator (timeout v) (retryAttempts v) (fromEmail v) (verbose v) dd rp.

(** Sample validator, servers and environments. *)
Definition defaultValidator : EmailValidator :=
  newEmailValidator (mkOptions None None None None).

Definition serverReplying (rcpt : string) : list SocketEvent :=
  [ Data "220 mx.example.com ESMTP"; Data "250 mx.example.com";
    Data "250 2.1.0 Ok"; Data rcpt ].

Definition sampleEnv (rcpt : string) : Env :=
  {| dnsLookup := fun _ => Fulfilled tt;
     dnsResolveMx := fun _ =>
       Fulfilled [mkMx "mx2.example.com" 20; mkMx "mx1.example.com" 10];
     smtpServer := fun _ _ _ => serverReplying rcpt;
     hostname := "localhost";
     timerFirst := fun _ _ => false;
     startTime := 100;
     endTime := 250;
     isoNow := "2024-01-01T00:00:00.000Z" |}.

(** An environment in which the domain does not resolve. *)
Definition nxdomainEnv : Env :=
  {| dnsLookup := fun _ => RejectedWith (mkError (Some "ENOTFOUND") "getaddrinfo ENOTFOUND");
     dnsResolveMx := fun _ => RejectedWith (mkError (Some "ENOTFOUND") "queryMx ENOTFOUND");
     smtpServer := fun _ _ _ => [];
     hostname := "localhost";
     timerFirst := fun _ _ => false;
     startTime := 0;
     endTime := 12;
     isoNow := "2024-01-01T00:00:00.000Z" |}.

(** The report of a completed call, for stating examples. *)
Definition reportOf (c : Completion) (fallback : ValidationReport)
  : ValidationReport :=
  match c with
  | Returned r => r
  | Threw _ => fallback
  end.

(** [Date.now() - startTime] at the return. *)
Definition elapsed (env : Env) : Z := endTime env - startTime env.

(** What the [catch] clause writes into the report for a caught value, or
    what it throws: the second evaluation of [error.message] counts when the
    first one returned. *)
Definition reportedMessage (error : Thrown) : string + Thrown :=
  match messageOf error FirstRead with
  | inl _ => messageOf error SecondRead
  | inr t => inr t
  end.

(** What a call of [validateEmail] with this argument throws, as far as the
    argument decides it: the string conversion throws a value, and the
    [catch] clause throws on evaluating its [message]. *)
Definition rejection (input : JsValue) : option Thrown :=
  match templateString input with
  | inl _ => None
  | inr t =>
      match reportedMessage t with
      | inl _ => None
      | inr t' => Some t'
      end
  end.

(** The ways through [validateEmail], each with the state it ends in. *)
Inductive Path (v : EmailValidator) (env : Env) (input : JsValue)
  : PipeState -> Prop :=
| PathCaught (t : Thrown) (m : string) :
    templateString input = inr t ->
    reportedMessage t = inl m ->
    Path v env input
      (mkPipe
         (setExecutionTime (elapsed env)
            (setSyntaxMessage ("Validation error: " ++ m)
               (initialReport env input)))
         [])
| PathSyntax :
    passed (validateSyntax input) = false ->
    Path v env input
      (mkPipe
         (setExecutionTime (elapsed env)
            (setSyntax (validateSyntax input) (initialReport env input)))
         [CallValidateSyntax input])
| PathDomain (raw lp dom : string) (dr : CheckResult) :
    input = VString raw ->
    parseEmail raw = (Some lp, Some dom) ->
    passed (validateSyntax input) = true ->
    withTimeout env StageDomain (validateDomain env (Some dom)) 2000
      "Domain lookup timeout" = inl dr ->
    passed dr = false ->
    Path v env input
      (mkPipe
         (setExecutionTime (elapsed env)
            (setDomain dr
               (setSyntax (validateSyntax input) (initialReport env input))))
         [CallValidateSyntax input; CallValidateDomain (Some dom)])
| PathMx (raw lp dom : string) (dr mr : CheckResult) :
    input = VString raw ->
    parseEmail raw = (Some lp, Some dom) ->
    passed (validateSyntax input) = true ->
    withTimeout env StageDomain (validateDomain env (Some dom)) 2000
      "Domain lookup timeout" = inl dr ->
    passed dr = true ->
    withTimeout env StageMx (validateMX env (Some dom)) 2000
      "MX record lookup timeout" = inl mr ->
    passed mr = false ->
    Path v env input
      (mkPipe
         (setExecutionTime (elapsed env)
            (setMx mr
               (setDomain dr
                  (setSyntax (validateSyntax input)
                     (initialReport env input)))))
         [CallValidateSyntax input; CallValidateDomain (Some dom);
          CallValidateMX (Some dom)])
| PathFull (raw lp dom : string) (dr mr sr : CheckResult)
    (recs : list MxRecord) :
    input = VString raw ->
    parseEmail raw = (Some lp, Some dom) ->
    passed (validateSyntax input) = true ->
    withTimeout env StageDomain (validateDomain env (Some dom)) 2000
      "Domain lookup timeout" = inl dr ->
    passed dr = true ->
    withTimeout env StageMx (validateMX env (Some dom)) 2000
      "MX record lookup timeout" = inl mr ->
    passed mr = true ->
    validateMX env (Some dom) = Fulfilled mr ->
    records mr = Some recs ->
    withTimeout env StageSmtp (fst (validateSMTP v env raw recs)) (timeout v)
      "SMTP validation timeout" = inl sr ->
    Path v env input
      (mkPipe
         (setExecutionTime (elapsed env)
            (setIsValid (passed sr)
               (setRoleBased (checkRoleBased v lp)
                  (setDisposable (checkDisposable v dom)
                     (setSmtp sr
                        (setMx mr
                           (setDomain dr
                              (setSyntax (validateSyntax input)
                                 (initialReport env input)))))))))
         [CallValidateSyntax input; CallValidateDomain (Some dom);
          CallValidateMX (Some dom); CallValidateSMTP raw (Some recs);
          CallCheckDisposable (Some dom); CallCheckRoleBased (Some lp)]).

(** Further vocabulary: sample data and predicates of the statements. *)

Definition neverRejects (p : Settle CheckResult) : Prop :=
  forall e, p <> RejectedWith e.

Definition sampleInput : JsValue := VString "test@mailinator.com".

Definition sampleReport : ValidationReport :=
  reportOf (validateEmail defaultValidator (sampleEnv "250 2.1.5 Ok") sampleInput)
    (initialReport (sampleEnv "250 2.1.5 Ok") sampleInput).

Definition rejectedReport : ValidationReport :=
  reportOf
    (validateEmail defaultValidator (sampleEnv "550 5.1.1 No such user")
       sampleInput)
    (initialReport (sampleEnv "550 5.1.1 No such user") sampleInput).

Definition unresolvedReport : ValidationReport :=
  reportOf
    (validateEmail defaultValidator nxdomainEnv
       (VString "user@nonexistent-domain-example-zz.test"))
    (initialReport nxdomainEnv
       (VString "user@nonexistent-domain-example-zz.test")).

Definition rcptSent : Session :=
  fold_left
    (fun s ev => handleEvent defaultValidator (sampleEnv "") "user@example.com" ev s)
    [Data "220 mx.example.com ESMTP"; Data "250 mx.example.com";
     Data "250 2.1.0 Ok"]
    newSession.

Definition notQuit (data : string) : Prop := data <> "QUIT" ++ CRLF.

(** Every probe listed in [t] was made at a host of the list and settled
    without accepting the address. *)
Definition AllFailed (v : EmailValidator) (env : Env) (raw : string)
    (mxRecords : list MxRecord) (t : list OrchEvent) : Prop :=
  forall a i h,
    In (EvProbe a i h) t ->
    exists m, nth_error mxRecords i = Some m /\ exchange m = h
              /\ probeFails (probe v env raw a i m).

(** A probe that ends the loop: it accepts the address or never settles. *)
Definition probeStops (o : Settle CheckResult) : Prop :=
  match o with
  | Fulfilled r => passed r = true
  | RejectedWith _ => False
  | Pending => True
  end.

Definition retryingValidator : EmailValidator :=
  newEmailValidator (mkOptions None (Some 2) None None).

Definition twoHosts : list MxRecord :=
  [mkMx "mx1.example.com" 10; mkMx "mx2.example.com" 20].

(** An environment in which every connection is refused. *)
Definition refusingEnv : Env :=
  {| dnsLookup := fun _ => Fulfilled tt;
     dnsResolveMx := fun _ => Fulfilled twoHosts;
     smtpServer := fun _ _ _ =>
       [SocketError (mkError (Some "ECONNREFUSED") "connect ECONNREFUSED")];
     hostname := "localhost";
     timerFirst := fun _ _ => false;
     startTime := 0;
     endTime := 1200;
     isoNow := "2024-01-01T00:00:00.000Z" |}.

(** An environment in which only the second host, in the second round,
    accepts the address; the first host rejects the mailbox. *)
Definition secondHostEnv : Env :=
  {| dnsLookup := fun _ => Fulfilled tt;
     dnsResolveMx := fun _ => Fulfilled twoHosts;
     smtpServer := fun attempt idx _ =>
       if (attempt =? 1) && (idx =? 1)%nat then serverReplying "250 2.1.5 Ok"
       else if (idx =? 0)%nat then serverReplying "550 5.1.1 No such user"
       else [SocketError (mkError (Some "ECONNRESET") "read ECONNRESET")];
     hostname := "localhost";
     timerFirst := fun _ _ => false;
     startTime := 0;
     endTime := 1200;
     isoNow := "2024-01-01T00:00:00.000Z" |}.

(** The white space that [trimStart] removes, and that [trimEnd] removes. *)
Fixpoint leading (s : string) : string :=
  match s with
  | EmptyString => EmptyString
  | String c r =>
      if JsString.isWhiteSpace c then String c (leading r) else EmptyString
  end.

Fixpoint trailing (s : string) : string :=
  match s with
  | EmptyString => EmptyString
  | String c r =>
      if JsString.isWhiteSpace c && JsString.isEmpty (JsString.trimEnd r)
      then s else trailing r
  end.

(** [l] with [post] appended to its last element. *)
Fixpoint appLast (post : string) (l : list string) : list string :=
  match l with
  | [] => []
  | [z] => [z ++ post]
  | h :: t => h :: appLast post t
  end.

Definition startsClean (s : string) : Prop :=
  match s with
  | EmptyString => True
  | String c _ => JsString.isWhiteSpace c = false
  end.

(** [sampleEnv] with a scheduler that lets the timer of the SMTP stage
    fire first. *)
Definition slowSmtpEnv : Env :=
  {| dnsLookup := dnsLookup (sampleEnv "250 2.1.5 Ok");
     dnsResolveMx := dnsResolveMx (sampleEnv "250 2.1.5 Ok");
     smtpServer := smtpServer (sampleEnv "250 2.1.5 Ok");
     hostname := "localhost";
     timerFirst := fun stage _ =>
       match stage with StageSmtp => true | _ => false end;
     startTime := 0;
     endTime := 2600;
     isoNow := "2024-01-01T00:00:00.000Z" |}.

(** An environment whose mail servers greet and then close the connection. *)
Definition closingEnv : Env :=
  {| dnsLookup := fun _ => Fulfilled tt;
     dnsResolveMx := fun _ => Fulfilled twoHosts;
     smtpServer := fun _ _ _ => [Data "220 mx.example.com ESMTP"; Close];
     hostname := "localhost";
     timerFirst := fun _ _ => false;
     startTime := 0;
     endTime := 2600;
     isoNow := "2024-01-01T00:00:00.000Z" |}.

(** The strings a pattern denotes. *)
Inductive Matches : Regex.regex -> string -> Prop :=
| MEps : Matches Regex.Eps EmptyString
| MClass (p : ascii -> bool) (c : ascii) :
    p c = true -> Matches (Regex.Class p) (String c EmptyString)
| MCat (r1 r2 : Regex.regex) (s1 s2 : string) :
    Matches r1 s1 -> Matches r2 s2 -> Matches (Regex.Cat r1 r2) (s1 ++ s2)
| MAltL (r1 r2 : Regex.regex) (s : string) :
    Matches r1 s -> Matches (Regex.Alt r1 r2) s
| MAltR (r1 r2 : Regex.regex) (s : string) :
    Matches r2 s -> Matches (Regex.Alt r1 r2) s
| MStarNil (r : Regex.regex) : Matches (Regex.Star r) EmptyString
| MStarCons (r : Regex.regex) (s1 s2 : string) :
    Matches r s1 -> Matches (Regex.Star r) s2 ->
    Matches (Regex.Star r) (s1 ++ s2).

(** Every character of [s] satisfies [p]. *)
Fixpoint allChars (p : ascii -> bool) (s : string) : bool :=
  match s with
  | EmptyString => true
  | String c r => p c && allChars p r
  end.

Definition firstChar (s : string) : option ascii :=
  match s with
  | EmptyString => None
  | String c _ => Some c
  end.

Definition isDecimalDigit (c : ascii) : bool :=
  let n := JsString.code c in ((48 <=? n) && (n <=? 57))%N.

(** The way a non-negative integer is written in decimal: digits only, at
    least one, and no zero in front of other digits. *)
Definition decimalNumeral (s : string) : Prop :=
  allChars isDecimalDigit s = true
  /\ s <> EmptyString
  /\ (firstChar s = Some "0"%char -> s = "0").

Fixpoint lastChar (s : string) : option ascii :=
  match s with
  | EmptyString => None
  | String c EmptyString => Some c
  | String _ r => lastChar r
  end.

(** The characters of a domain that the pattern admits. *)
Definition isDomainChar (c : ascii) : bool :=
  isAlnumHyphen c || Ascii.eqb c ".".

Definition holds (p : ascii -> bool) (c : option ascii) : Prop :=
  match c with
  | Some x => p x = true
  | None => False
  end.

(** The code that the data listener reads off a chunk. *)
Definition replyCode (data : string) : option Z :=
  JsString.parseInt (JsString.substr0 3 (JsString.trim data)).

(** The three commands of the handshake, in order. *)
Definition commands (v : EmailValidator) (env : Env) (rcpt : string)
  : list string :=
  [ "HELO " ++ hostname env ++ CRLF;
    "MAIL FROM:<" ++ fromEmail v ++ ">" ++ CRLF;
    "RCPT TO:<" ++ rcpt ++ ">" ++ CRLF ].

(** A session continued from the state [s]. *)
Definition sessionFrom (v : EmailValidator) (env : Env) (rcpt : string)
    (s : Session) (events : list SocketEvent) : Session :=
  handleEvent v env rcpt Watchdog
    (fold_left (fun s ev => handleEvent v env rcpt ev s) events s).

(** A session in step [k] whose socket is open: the watchdog is armed and
    the promise is not settled. *)
Definition OpenAt (k : nat) (s : Session) : Prop :=
  s_step s = k /\ s_destroyed s = false /\ s_watchdogArmed s = true
  /\ s_settled s = None.

(** A session that is over: the socket is destroyed and no timer is left. *)
Definition Over (s : Session) : Prop :=
  s_destroyed s = true /\ s_watchdogArmed s = false.

(** The code awaited in step [k]: 220 for the greeting, 250 afterwards. *)
Definition awaited (k : nat) : Z := if (k =? 0)%nat then 220 else 250.

(** Chunks that carry, one after the other, the codes awaited from step [k]
    on, without reaching the reply to RCPT. *)
Fixpoint goodReplies (k : nat) (ds : list string) : Prop :=
  match ds with
  | [] => True
  | d :: ds' =>
      (k < 3)%nat /\ replyCode d = Some (awaited k) /\ goodReplies (S k) ds'
  end.

(** Events that begin with one chunk for each of the codes [need]. *)
Fixpoint accepted (need : list Z) (events : list SocketEvent) : Prop :=
  match need with
  | [] => True
  | c :: need' =>
      match events with
      | Data d :: rest => replyCode d = Some c /\ accepted need' rest
      | _ => False
      end
  end.

(* ================================================================== *)
(** ** [validateBatch] and the routes of [index.js] *)

(** [for (const email of emails)] with [results.push(result)]; [envs i] is
    the environment in which the call for the address at position [i] runs.
    A call that throws ends the loop and rejects the promise. *)
Fixpoint batchLoop (v : EmailValidator) (envs : nat -> Env) (i : nat)
    (emails : list JsValue) (results : list ValidationReport)
  : list ValidationReport + Thrown :=
  match emails with
  | [] => inl results
  | e :: rest =>
      match validateEmail v (envs i) e with
      | Returned r => batchLoop v envs (S i) rest (results ++ [r])%list
      | Threw err => inr err
      end
  end.

Definition validateBatch (v : EmailValidator) (envs : nat -> Env)
    (emails : list JsValue) : list ValidationReport + Thrown :=
  batchLoop v envs 0 emails [].

(** [s.split(sep)] for a separator of one character. *)
Fixpoint splitBy (sep : ascii) (s : string) : list string :=
  match s with
  | EmptyString => [EmptyString]
  | String c r =>
      if Ascii.eqb c sep then EmptyString :: splitBy sep r
      else match splitBy sep r with
           | h :: t => String c h :: t
           | [] => [String c EmptyString]
           end
  end.

(** A field of the request body: a string, a falsy value that is not a
    string (absent, [null], [false], [0]) or a truthy one (a number, [true],
    an array, an object), which has neither [trim] nor [split]. *)
Inductive BodyField : Type :=
| BString (s : string)
| BFalsy
| BTruthy.

(** What a route sends with [res.json]; [NoResponse] when the handler throws
    before it sends anything. *)
Inductive JsonResponse : Type :=
| JsonError (error : string)
| JsonReport (report : ValidationReport)
| JsonResults (results : list ValidationReport)
| NoResponse.

(** [res.json({ error: `<prefix>: ${error.message}` })] in the [catch] clause
    of a route. *)
Definition respondError (prefix : string) (error : Thrown) : JsonResponse :=
  match messageOf error FirstRead with
  | inl m => JsonError (prefix ++ ": " ++ m)
  | inr _ => NoResponse
  end.

(** The validator that [index.js] creates. *)
Definition serverValidator : EmailValidator :=
  newEmailValidator (mkOptions (Some 2500) (Some 1) None (Some false)).

(** [POST /api/validate] *)
Definition apiValidate (env : Env) (field : BodyField) : JsonResponse :=
  match field with
  | BFalsy => JsonError "Email is required"
  | BString s =>
      if JsString.isEmpty s then JsonError "Email is required"
      else
        match validateEmail serverValidator env (VString (JsString.trim s)) with
        | Returned r => JsonReport r
        | Threw error => respondError "Validation failed" error
        end
  | BTruthy => JsonError "Validation failed: email.trim is not a function"
  end.

(** [emails.split(',').map(email => email.trim()).filter(email => email)] *)
Definition emailList (emails : string) : list string :=
  filter (fun e => negb (JsString.isEmpty e))
    (map JsString.trim (splitBy "," emails)).

(** [POST /validate-batch] *)
Definition validateBatchRoute (envs : nat -> Env) (field : BodyField)
  : JsonResponse :=
  match field with
  | BFalsy => JsonError "Please provide emails"
  | BString s =>
      if JsString.isEmpty s then JsonError "Please provide emails"
      else
        match validateBatch serverValidator envs (map VString (emailList s)) with
        | inl results => JsonResults results
        | inr error => respondError "Batch validation failed" error
        end
  | BTruthy => JsonError "Batch validation failed: emails.split is not a function"
  end.

(** Strings that end, or begin, with white space. *)
Definition endsInSpace (s : string) : bool :=
  match lastChar s with
  | Some c => JsString.isWhiteSpace c
  | None => false
  end.

Definition beginsWithSpace (s : string) : bool :=
  match firstChar s with
  | Some c => JsString.isWhiteSpace c
  | None => false
  end.

(** The part of [emailRegex] after the separator. *)
Definition domainRegex : Regex.regex :=
  Regex.Cat labelRegex (Regex.Star (Regex.Cat (Regex.Lit ".") labelRegex)).

(** A DNS label as the pattern has it: 1 to 63 letters, digits or hyphens,
    the first and the last one a letter or a digit. *)
Definition isLabel (l : string) : Prop :=
  (1 <= String.length l <= 63)%nat
  /\ allChars isAlnumHyphen l = true
  /\ holds isAlnum (firstChar l)
  /\ holds isAlnum (lastChar l).

(** Labels, each preceded by a period; labels joined by periods. *)
Fixpoint dotted (labels : list string) : string :=
  match labels with
  | [] => EmptyString
  | l :: rest => String "." (l ++ dotted rest)
  end.

Definition joinDots (labels : list string) : string :=
  match labels with
  | [] => EmptyString
  | l :: rest => l ++ dotted rest
  end.

(** The addresses that [validateSyntax] is written to accept. *)
Definition WellFormed (lp : string) (labels : list string) : Prop :=
  (1 <= String.length lp <= 64)%nat
  /\ allChars isLocalChar lp = true
  /\ firstChar lp <> Some "."%char
  /\ lastChar lp <> Some "."%char
  /\ JsString.includes ".." lp = false
  /\ labels <> []
  /\ Forall isLabel labels
  /\ (String.length (joinDots labels) <= 253)%nat.

Definition paddedReport : ValidationReport :=
  reportOf (validateEmail defaultValidator (sampleEnv "250 2.1.5 Ok")
              (VString " admin@mailinator.com "))
    (initialReport (sampleEnv "250 2.1.5 Ok") (VString " admin@mailinator.com ")).

(* ================================================================== *)
(** * Properties *)

(** ** Worked examples *)

Example validateSyntax_ok :
  validateSyntax (VString "user.name+tag@mail.example.com")
  = check true "Email syntax is valid".
Proof. vm_compute. reflexivity. Qed.

Example validateSyntax_padded :
  validateSyntax (VString "  user@example.com ")
  = check true "Email syntax is valid".
Proof. vm_compute. reflexivity. Qed.

Example validateSyntax_two_at :
  validateSyntax (VString "a@b@c")
  = check false "Email must contain exactly one @ symbol".
Proof. vm_compute. reflexivity. Qed.

Example validateSyntax_dots :
  validateSyntax (VString "a..b@example.com")
  = check false "Local part cannot contain consecutive periods".
Proof. vm_compute. reflexivity. Qed.

Example validateSyntax_hyphen_label :
  validateSyntax (VString "a@-example.com")
  = check false "Email format is invalid according to RFC 5322".
Proof. vm_compute. reflexivity. Qed.

Example parseInt_examples :
  JsString.parseInt "250" = Some 250 /\ JsString.parseInt "25x" = Some 25 /\
  JsString.parseInt "abc" = None /\ JsString.parseInt "0x1" = Some 1 /\
  JsString.parseInt "-12" = Some (-12).
Proof. vm_compute. repeat split. Qed.

(** ** Strings *)

Lemma whiteSpace_not_at (c : ascii) :
  JsString.isWhiteSpace c = true -> JsString.isAt c = false.
Proof.
  destruct c as [[] [] [] [] [] [] [] []]; vm_compute; congruence.
Qed.

Lemma isEmpty_true (s : string) : JsString.isEmpty s = true -> s = EmptyString.
Proof. destruct s; simpl; congruence. Qed.

Lemma countAt_trimStart (s : string) :
  JsString.countAt (JsString.trimStart s) = JsString.countAt s.
Proof.
  induction s as [|c r IH]; simpl; [reflexivity|].
  destruct (JsString.isWhiteSpace c) eqn:W; simpl.
  - now rewrite (whiteSpace_not_at c W).
  - reflexivity.
Qed.

Lemma countAt_trimEnd (s : string) :
  JsString.countAt (JsString.trimEnd s) = JsString.countAt s.
Proof.
  induction s as [|c r IH]; simpl; [reflexivity|].
  destruct (JsString.isWhiteSpace c && JsString.isEmpty (JsString.trimEnd r))
    eqn:E; simpl.
  - apply andb_true_iff in E as [W Em].
    apply isEmpty_true in Em. rewrite Em in IH; simpl in IH.
    now rewrite (whiteSpace_not_at c W), <- IH.
  - now rewrite IH.
Qed.

Lemma countAt_trim (s : string) :
  JsString.countAt (JsString.trim s) = JsString.countAt s.
Proof.
  unfold JsString.trim. now rewrite countAt_trimEnd, countAt_trimStart.
Qed.

Lemma split_length (s : string) :
  List.length (JsString.split s) = S (JsString.countAt s).
Proof.
  induction s as [|c r IH]; simpl; [reflexivity|].
  destruct (JsString.isAt c); simpl.
  - now rewrite IH.
  - destruct (JsString.split r); simpl in *; [discriminate | assumption].
Qed.

Lemma parseEmail_one_at (s : string) :
  JsString.countAt s = 1%nat ->
  exists lp dom, JsString.split s = [lp; dom]
                 /\ parseEmail s = (Some lp, Some dom).
Proof.
  intros H. pose proof (split_length s) as L. rewrite H in L.
  unfold parseEmail, destructure2.
  destruct (JsString.split s) as [|a [|b [|c l]]]; simpl in L; try discriminate.
  exists a, b. split; reflexivity.
Qed.

(** A passing syntax check comes from a string with exactly one separator. *)
Lemma validateSyntax_passed (input : JsValue) :
  passed (validateSyntax input) = true ->
  exists raw, input = VString raw /\ JsString.countAt raw = 1%nat.
Proof.
  destruct input as [raw| | |]; simpl; try discriminate.
  destruct (JsString.isEmpty raw); simpl; [discriminate|].
  destruct (JsString.countAt (JsString.trim raw) =? 1)%nat eqn:C; simpl;
    [|discriminate].
  intros _. exists raw. split; [reflexivity|].
  apply Nat.eqb_eq in C. now rewrite countAt_trim in C.
Qed.

(** ** The stage promises never reject *)

Lemma validateDomain_neverRejects env d : neverRejects (validateDomain env d).
Proof.
  unfold neverRejects, validateDomain. intros e.
  destruct (dnsLookup env d); discriminate.
Qed.

Lemma validateMX_neverRejects env d : neverRejects (validateMX env d).
Proof.
  unfold neverRejects, validateMX. intros e.
  destruct (dnsResolveMx env d) as [l| |]; try discriminate.
  destruct (List.length l =? 0)%nat; discriminate.
Qed.

Lemma hostLoop_neverRejects v env raw attempt mxs :
  forall idx o t,
    hostLoop v env raw attempt idx mxs = (Some o, t) -> neverRejects o.
Proof.
  induction mxs as [|m rest IH]; intros idx o t; simpl.
  - discriminate.
  - destruct (probe v env raw attempt idx m) as [r|e|].
    + destruct (passed r).
      * intros H; inversion H; subst. intros e; discriminate.
      * destruct (hostLoop v env raw attempt (S idx) rest) as [o' t'] eqn:E.
        intros H; inversion H; subst. eapply IH; eassumption.
    + destruct (hostLoop v env raw attempt (S idx) rest) as [o' t'] eqn:E.
      intros H; inversion H; subst. eapply IH; eassumption.
    + intros H; inversion H; subst. intros e; discriminate.
Qed.

Lemma attemptLoop_neverRejects v env raw mxs fuel :
  forall attempt, neverRejects (fst (attemptLoop v env raw mxs fuel attempt)).
Proof.
  induction fuel as [|fuel IH]; intros attempt; simpl.
  - intros e; discriminate.
  - destruct (attempt <? retryAttempts v); [|intros e; discriminate].
    destruct (hostLoop v env raw attempt 0 mxs) as [[o|] t] eqn:E; simpl.
    + eapply hostLoop_neverRejects; eassumption.
    + specialize (IH (attempt + 1)).
      destruct (attemptLoop v env raw mxs fuel (attempt + 1)); simpl in *.
      assumption.
Qed.

Lemma validateSMTP_neverRejects v env raw mxs :
  neverRejects (fst (validateSMTP v env raw mxs)).
Proof. apply attemptLoop_neverRejects. Qed.

(** A stage whose promise never rejects yields a check: the promise's own
    value, or the time-out value. *)
Lemma withTimeout_returns env stage p ms msg :
  neverRejects p ->
  exists r, withTimeout env stage p ms msg = inl r
            /\ (p = Fulfilled r \/ r = timeoutResult msg).
Proof.
  intros N. unfold withTimeout, race.
  destruct (timerFirst env stage ms); simpl.
  - rewrite String.eqb_refl. eauto.
  - destruct p as [r|e|]; simpl.
    + eauto.
    + exfalso. now apply (N e).
    + rewrite String.eqb_refl. eauto.
Qed.

Lemma timeoutResult_failed msg : passed (timeoutResult msg) = false.
Proof. reflexivity. Qed.

(** ** Every call follows one of the paths or throws in the [catch] clause *)

Lemma afterSyntax_path v env raw lp dom st0 :
  parseEmail raw = (Some lp, Some dom) ->
  passed (validateSyntax (VString raw)) = true ->
  st0 = mkPipe (setSyntax (validateSyntax (VString raw))
                  (initialReport env (VString raw)))
          [CallValidateSyntax (VString raw)] ->
  exists st, afterSyntax v env raw st0 = (inl tt, st)
             /\ Path v env (VString raw) st.
Proof.
  intros P S ->. unfold afterSyntax. rewrite P.
  destruct (withTimeout_returns env StageDomain (validateDomain env (Some dom))
              2000 "Domain lookup timeout" (validateDomain_neverRejects _ _))
    as [dr [Hd _]].
  unfold bind at 1. unfold emit at 1. cbn [result stages app].
  unfold bind at 1. rewrite Hd. cbn [raised liftE ret].
  unfold bind at 1. unfold modify at 1. cbn [result stages].
  destruct (passed dr) eqn:Pd; cbn [negb].
  2:{ eexists. split; [reflexivity|].
      eapply PathDomain; eauto. }
  destruct (withTimeout_returns env StageMx (validateMX env (Some dom))
              2000 "MX record lookup timeout" (validateMX_neverRejects _ _))
    as [mr [Hm Hm']].
  unfold bind at 1. unfold emit at 1. cbn [result stages app].
  unfold bind at 1. rewrite Hm. cbn [raised liftE ret].
  unfold bind at 1. unfold modify at 1. cbn [result stages].
  destruct (passed mr) eqn:Pm; cbn [negb].
  2:{ eexists. split; [reflexivity|].
      eapply PathMx; eauto. }
  destruct Hm' as [Hm'| ->]; [|discriminate].
  assert (exists recs, records mr = Some recs) as [recs Hr].
  { unfold validateMX in Hm'.
    destruct (dnsResolveMx env (Some dom)) as [l| |]; try discriminate.
    - destruct (List.length l =? 0)%nat; inversion Hm'; subst; simpl; eauto.
    - inversion Hm'; subst; simpl; eauto. }
  destruct (withTimeout_returns env StageSmtp (fst (validateSMTP v env raw recs))
              (timeout v) "SMTP validation timeout"
              (validateSMTP_neverRejects _ _ _ _))
    as [sr [Hs _]].
  unfold smtpAndHeuristics. rewrite Hr.
  cbn [callValidateSMTP]. rewrite Hs.
  eexists. split.
  - cbv [bind emit modify liftE raised ret gets onDefined stamp result stages
         app].
    cbn [checks setChecks setSyntax setDomain setMx setSmtp setDisposable
         setRoleBased syntax domain mx smtp passed].
    rewrite S, Pd, Pm. cbn [andb]. reflexivity.
  - eapply PathFull; eauto.
Qed.

Lemma pipeline_outcome v env input :
  (exists e, templateString input = inr e
             /\ pipeline v env input (mkPipe (initialReport env input) [])
                = (inr e, mkPipe (initialReport env input) []))
  \/ (exists st, pipeline v env input (mkPipe (initialReport env input) [])
                 = (inl tt, st)
                 /\ Path v env input st).
Proof.
  unfold pipeline.
  destruct (templateString input) as [shown|e] eqn:T.
  2:{ left. exists e. split; reflexivity. }
  right.
  cbn [liftE]. unfold bind at 1. cbn [ret].
  unfold bind at 1. cbn [log ret].
  unfold bind at 1. unfold emit at 1. cbn [result stages app].
  unfold bind at 1. unfold modify at 1. cbn [result stages].
  destruct (passed (validateSyntax input)) eqn:S; cbn [negb].
  2:{ eexists. split; [reflexivity|]. now apply PathSyntax. }
  destruct (validateSyntax_passed input S) as [raw [-> C]].
  destruct (parseEmail_one_at raw C) as [lp [dom [_ P]]].
  destruct (afterSyntax_path v env raw lp dom _ P S eq_refl) as [st [R Hp]].
  rewrite R. eauto.
Qed.

(** The [catch] clause on the state the [try] block starts in: it fills in
    the report, or throws what evaluating [error.message] throws. *)
Lemma onError_outcome v env t st0 :
  onError v env t st0
  = match reportedMessage t with
    | inl m =>
        (inl tt,
         mkPipe (setExecutionTime (elapsed env)
                   (setSyntaxMessage ("Validation error: " ++ m) (result st0)))
           (stages st0))
    | inr t' => (inr t', st0)
    end.
Proof.
  unfold onError, reportedMessage.
  destruct (messageOf t FirstRead) as [m1|t1]; [|reflexivity].
  destruct (messageOf t SecondRead) as [m2|t2]; reflexivity.
Qed.

(** When the string conversion of the argument throws a value whose
    [message] the [catch] clause cannot evaluate, the call throws. *)
Lemma run_throws v env input t t' :
  templateString input = inr t ->
  reportedMessage t = inr t' ->
  runValidateEmail v env input
  = (inr t', mkPipe (initialReport env input) []).
Proof.
  intros T R. unfold runValidateEmail, tryCatch, pipeline.
  rewrite T. cbn [liftE]. unfold bind at 1. cbn [throw].
  rewrite onError_outcome, R. reflexivity.
Qed.

(** A call follows one of the paths, or the string conversion of the argument
    throws a value whose [message] the [catch] clause cannot evaluate. *)
Lemma run_cases v env input :
  (exists st, runValidateEmail v env input = (inl tt, st)
              /\ Path v env input st)
  \/ (exists t t', templateString input = inr t
                   /\ reportedMessage t = inr t'
                   /\ runValidateEmail v env input
                      = (inr t', mkPipe (initialReport env input) [])).
Proof.
  unfold runValidateEmail, tryCatch.
  destruct (pipeline_outcome v env input) as [[t [T R]]|[st [R HP]]];
    rewrite R.
  - rewrite onError_outcome.
    destruct (reportedMessage t) as [m|t'] eqn:Hm.
    + left. eexists. split; [reflexivity|]. now apply (PathCaught _ _ _ t m).
    + right. exists t, t'. auto.
  - left. eauto.
Qed.

(** A returned report is the one of the path taken. *)
Lemma validateEmail_returned v env input r :
  validateEmail v env input = Returned r ->
  exists st, r = result st
             /\ stagesOf v env input = stages st
             /\ Path v env input st.
Proof.
  unfold validateEmail, stagesOf.
  destruct (run_cases v env input) as [[st [R HP]]|[t [t' [_ [_ R]]]]];
    rewrite R; intros H; inversion H; subst.
  exists st. auto.
Qed.

(** What [validateEmail] throws, it throws with every validator and in every
    environment. *)
Lemma validateEmail_threw v env input t' :
  validateEmail v env input = Threw t' ->
  forall v' env', validateEmail v' env' input = Threw t'
                  /\ stagesOf v' env' input = [].
Proof.
  unfold validateEmail, stagesOf.
  destruct (run_cases v env input) as [[st [R HP]]|[t [t0 [T [M R]]]]];
    rewrite R; intros H; inversion H; subst.
  intros v' env'. rewrite (run_throws v' env' input t t' T M). auto.
Qed.

Lemma validateEmail_cases v env input :
  (exists st, validateEmail v env input = Returned (result st)
              /\ stagesOf v env input = stages st
              /\ Path v env input st)
  \/ (exists t t', templateString input = inr t
                   /\ reportedMessage t = inr t'
                   /\ validateEmail v env input = Threw t').
Proof.
  unfold validateEmail, stagesOf.
  destruct (run_cases v env input) as [[st [R HP]]|[t [t' [T [M R]]]]];
    rewrite R.
  - left. exists st. auto.
  - right. exists t, t'. auto.
Qed.

(** A call with a string returns. *)
Lemma validateEmail_string v env raw :
  exists st, validateEmail v env (VString raw) = Returned (result st)
             /\ stagesOf v env (VString raw) = stages st
             /\ Path v env (VString raw) st.
Proof.
  unfold validateEmail, stagesOf.
  destruct (run_cases v env (VString raw))
    as [[st [R HP]]|[t [t' [T _]]]]; [|discriminate].
  rewrite R. exists st. auto.
Qed.

(** Starts a proof about a returned report [r]: replaces [r] and the stage
    list by those of the path taken and splits by path. *)
Ltac by_path v env input H :=
  let st := fresh "st" in
  let R := fresh "R" in
  let T := fresh "T" in
  let HP := fresh "HP" in
  destruct (validateEmail_returned v env input _ H) as [st [R [T HP]]];
  subst; clear H;
  try rewrite T; destruct HP; cbn in *.

(** ** The verdict *)

Lemma probe_withLists v dd rp env raw attempt idx m :
  probe (withLists v dd rp) env raw attempt idx m
  = probe v env raw attempt idx m.
Proof. reflexivity. Qed.

Lemma hostLoop_withLists v dd rp env raw attempt mxs :
  forall idx,
    hostLoop (withLists v dd rp) env raw attempt idx mxs
    = hostLoop v env raw attempt idx mxs.
Proof.
  induction mxs as [|m rest IH]; intros idx; simpl; [reflexivity|].
  rewrite probe_withLists, IH. reflexivity.
Qed.

Lemma attemptLoop_withLists v dd rp env raw mxs fuel :
  forall attempt,
    attemptLoop (withLists v dd rp) env raw mxs fuel attempt
    = attemptLoop v env raw mxs fuel attempt.
Proof.
  induction fuel as [|fuel IH]; intros attempt; simpl; [reflexivity|].
  rewrite hostLoop_withLists, IH. reflexivity.
Qed.

Lemma validateSMTP_withLists v dd rp env raw recs :
  validateSMTP (withLists v dd rp) env raw recs = validateSMTP v env raw recs.
Proof. apply attemptLoop_withLists. Qed.

(** C1.  In every report that [validateEmail] returns, [isValid] is the
    conjunction of the [passed] flags of the syntax, domain, mx and smtp
    checks; and whatever the lists behind the disposable and role-based
    checks contain, hence whatever those two checks answer, the call returns
    a report with the same [isValid]. *)
Theorem isValid_is_conjunction v env input r :
  validateEmail v env input = Returned r ->
  isValid r = passed (syntax (checks r)) && passed (domain (checks r))
              && passed (mx (checks r)) && passed (smtp (checks r))
  /\ forall dd rp,
       exists r', validateEmail (withLists v dd rp) env input = Returned r'
                  /\ isValid r' = isValid r.
Proof.
  intros H. split.
  - by_path v env input H;
      repeat match goal with
             | E : passed _ = _ |- _ => rewrite E
             end; cbn;
      rewrite ?andb_false_r; reflexivity.
  - intros dd rp.
    destruct (validateEmail_cases (withLists v dd rp) env input)
      as [[st' [R' [_ HP']]]|[t [t' [_ [_ R']]]]].
    2:{ destruct (validateEmail_threw _ _ _ _ R' v env) as [R _].
        congruence. }
    exists (result st'). split; [assumption|].
    by_path v env input H; destruct HP'; cbn in *;
      try rewrite validateSMTP_withLists in *;
      try reflexivity; try congruence;
      subst; cbn in *; discriminate.
Qed.

Lemma isValid_is_conjunction_witness :
  isValid sampleReport
  = passed (syntax (checks sampleReport))
    && passed (domain (checks sampleReport))
    && passed (mx (checks sampleReport))
    && passed (smtp (checks sampleReport))
  /\ forall dd rp,
       exists r',
         validateEmail (withLists defaultValidator dd rp)
           (sampleEnv "250 2.1.5 Ok") sampleInput = Returned r'
         /\ isValid r' = isValid sampleReport.
Proof.
  apply (isValid_is_conjunction defaultValidator (sampleEnv "250 2.1.5 Ok")
           sampleInput sampleReport).
  vm_compute. reflexivity.
Defined.

(** ** Exceptions and time-outs *)

(** C2.  [validateEmail] does let an exception through: when the string
    conversion of its argument throws [null], the [catch] clause evaluates
    [error.message] on [null], and the [TypeError] of that read leaves the
    call.  The call throws exactly when the conversion of the argument throws
    a value on which [error.message] cannot be evaluated, and then what that
    evaluation throws; so it returns a report for every string.  For the
    rest the claim holds: when the timer of a stage fires first, or the
    stage's promise never settles, [withTimeout] returns the failed check
    that carries the time-out message; and when the body of the [try] block
    throws a value whose message can be evaluated, an [Error] object for one,
    the call returns a report that is not valid and whose syntax check
    carries that message. *)
Theorem catch_clause_throws_on_null v env :
  validateEmail v env (VThrowing ThrowNull)
  = Threw (ThrowError
             (Error "Cannot read properties of null (reading 'message')"))
  /\ (forall input t',
        validateEmail v env input = Threw t'
        <-> exists t, templateString input = inr t
                      /\ reportedMessage t = inr t')
  /\ (forall raw, exists r, validateEmail v env (VString raw) = Returned r)
  /\ (forall stage p ms msg,
        timerFirst env stage ms = true \/ p = Pending ->
        withTimeout env stage p ms msg = inl (timeoutResult msg)
        /\ passed (timeoutResult msg) = false
        /\ message (timeoutResult msg) = msg)
  /\ (forall input t st,
        pipeline v env input (mkPipe (initialReport env input) []) = (inr t, st) ->
        (forall m,
           reportedMessage t = inl m ->
           exists r,
             validateEmail v env input = Returned r
             /\ isValid r = false
             /\ message (syntax (checks r)) = "Validation error: " ++ m)
        /\ (forall t',
              reportedMessage t = inr t' ->
              validateEmail v env input = Threw t'))
  /\ (forall e, reportedMessage (ThrowError e) = inl (err_message e)).
Proof.
  split; [reflexivity|]. split; [|split; [|split; [|split]]].
  - intros input t'. split.
    + intros H.
      destruct (validateEmail_cases v env input)
        as [[st [R _]]|[t [t0 [T [M R]]]]]; [congruence|].
      exists t. split; [assumption|]. congruence.
    + intros [t [T M]]. unfold validateEmail.
      rewrite (run_throws v env input t t' T M). reflexivity.
  - intros raw. destruct (validateEmail_string v env raw) as [st [R _]]. eauto.
  - intros stage p ms msg H. split; [|split; reflexivity].
    unfold withTimeout, race.
    destruct H as [H| ->].
    + rewrite H. simpl. now rewrite String.eqb_refl.
    + destruct (timerFirst env stage ms); simpl; now rewrite String.eqb_refl.
  - intros input t st H.
    destruct (pipeline_outcome v env input) as [[t0 [_ R]]|[st' [R _]]];
      rewrite R in H; inversion H; subst.
    unfold validateEmail, runValidateEmail, tryCatch. rewrite R.
    rewrite onError_outcome. split.
    + intros m M. rewrite M. eexists. split; [reflexivity|].
      split; reflexivity.
    + intros t' M. rewrite M. reflexivity.
  - reflexivity.
Qed.

Lemma catch_clause_throws_on_null_witness :
  exists r,
    validateEmail defaultValidator nxdomainEnv VSymbol = Returned r
    /\ isValid r = false
    /\ message (syntax (checks r))
       = "Validation error: Cannot convert a Symbol value to a string".
Proof.
  destruct (catch_clause_throws_on_null defaultValidator nxdomainEnv)
    as [_ [_ [_ [_ [H _]]]]].
  destruct (H VSymbol
              (ThrowError (Error "Cannot convert a Symbol value to a string"))
              (mkPipe (initialReport nxdomainEnv VSymbol) []) eq_refl)
    as [H' _].
  exact (H' "Cannot convert a Symbol value to a string" eq_refl).
Defined.

(** A value thrown with a getter that fails on the second read leaves the
    call as well, and so does [undefined]. *)
Example validateEmail_throws_examples :
  validateEmail defaultValidator nxdomainEnv (VThrowing ThrowUndefined)
  = Threw (ThrowError
             (Error "Cannot read properties of undefined (reading 'message')"))
  /\ validateEmail defaultValidator nxdomainEnv
       (VThrowing (ThrowOther (ReadText "once") (ReadThrows ThrowNull)))
     = Threw ThrowNull
  /\ message (syntax (checks
       (reportOf (validateEmail defaultValidator nxdomainEnv
                    (VThrowing (ThrowOther (ReadText "undefined")
                                  (ReadText "undefined"))))
          (initialReport nxdomainEnv VOther))))
     = "Validation error: undefined".
Proof. repeat split. Qed.

(** ** Order of the stages *)

(** C3.  In a returned report, a failed syntax check means that no stage
    after [validateSyntax] was called, a failed domain check that none after
    [validateDomain] was, a failed mx check that none after [validateMX] was.
    When the mx check passed and the smtp check failed, all six stages were
    called in order, the report carries the answers of [checkDisposable] and
    [checkRoleBased], and [isValid] is false. *)
Theorem failed_stage_short_circuits v env input r :
  validateEmail v env input = Returned r ->
  (passed (syntax (checks r)) = false ->
     Forall (fun ev => (stageRank ev <= 0)%nat) (stagesOf v env input))
  /\ (passed (domain (checks r)) = false ->
        Forall (fun ev => (stageRank ev <= 1)%nat) (stagesOf v env input))
  /\ (passed (mx (checks r)) = false ->
        Forall (fun ev => (stageRank ev <= 2)%nat) (stagesOf v env input))
  /\ (passed (mx (checks r)) = true ->
      passed (smtp (checks r)) = false ->
        exists raw lp dom recs,
          input = VString raw
          /\ parseEmail raw = (Some lp, Some dom)
          /\ stagesOf v env input
             = [CallValidateSyntax input; CallValidateDomain (Some dom);
                CallValidateMX (Some dom); CallValidateSMTP raw (Some recs);
                CallCheckDisposable (Some dom); CallCheckRoleBased (Some lp)]
          /\ disposable (checks r) = checkDisposable v dom
          /\ roleBased (checks r) = checkRoleBased v lp
          /\ isValid r = false).
Proof.
  intros H.
  by_path v env input H;
    (split; [|split; [|split]]);
    try (intros; repeat constructor; cbn; lia);
    try (intros; congruence).
  intros _ Hs. exists raw, lp, dom, recs. repeat split; assumption.
Qed.

Lemma failed_stage_short_circuits_witness :
  passed (mx (checks rejectedReport)) = true
  /\ passed (smtp (checks rejectedReport)) = false
  /\ exists raw lp dom recs,
       sampleInput = VString raw
       /\ parseEmail raw = (Some lp, Some dom)
       /\ stagesOf defaultValidator (sampleEnv "550 5.1.1 No such user")
            sampleInput
          = [CallValidateSyntax sampleInput; CallValidateDomain (Some dom);
             CallValidateMX (Some dom); CallValidateSMTP raw (Some recs);
             CallCheckDisposable (Some dom); CallCheckRoleBased (Some lp)]
       /\ disposable (checks rejectedReport)
          = checkDisposable defaultValidator dom
       /\ roleBased (checks rejectedReport)
          = checkRoleBased defaultValidator lp
       /\ isValid rejectedReport = false.
Proof.
  split; [vm_compute; reflexivity|]. split; [vm_compute; reflexivity|].
  apply (failed_stage_short_circuits defaultValidator
           (sampleEnv "550 5.1.1 No such user") sampleInput rejectedReport).
  - vm_compute. reflexivity.
  - vm_compute. reflexivity.
  - vm_compute. reflexivity.
Defined.

(** C10.  When a returned report has a failed syntax, domain or mx check,
    its disposable and role-based checks are the initial ones ([passed] true,
    empty message) and neither heuristic was called; its smtp check is the
    initial one; its mx check is the initial one when the domain check
    failed, and its domain check is the initial one when the syntax check
    failed. *)
Theorem early_return_keeps_defaults v env input r :
  validateEmail v env input = Returned r ->
  passed (syntax (checks r)) && passed (domain (checks r))
    && passed (mx (checks r)) = false ->
  disposable (checks r) = check true EmptyString
  /\ roleBased (checks r) = check true EmptyString
  /\ Forall (fun ev => (stageRank ev <= 2)%nat) (stagesOf v env input)
  /\ smtp (checks r) = mkCheck false EmptyString None (Some EmptyString)
  /\ (passed (domain (checks r)) = false ->
        mx (checks r) = mkCheck false EmptyString (Some []) None)
  /\ (passed (syntax (checks r)) = false ->
        domain (checks r) = check false EmptyString).
Proof.
  intros H F.
  by_path v env input H;
    try (repeat split; try reflexivity; try congruence;
         repeat constructor; cbn; lia).
  repeat match goal with
         | E : passed _ = true |- _ => rewrite E in F; clear E
         end.
  discriminate.
Qed.

Lemma early_return_keeps_defaults_witness :
  passed (domain (checks unresolvedReport)) = false
  /\ disposable (checks unresolvedReport) = check true EmptyString
  /\ roleBased (checks unresolvedReport) = check true EmptyString
  /\ Forall (fun ev => (stageRank ev <= 2)%nat)
       (stagesOf defaultValidator nxdomainEnv
          (VString "user@nonexistent-domain-example-zz.test"))
  /\ smtp (checks unresolvedReport)
     = mkCheck false EmptyString None (Some EmptyString)
  /\ (passed (domain (checks unresolvedReport)) = false ->
        mx (checks unresolvedReport) = mkCheck false EmptyString (Some []) None)
  /\ (passed (syntax (checks unresolvedReport)) = false ->
        domain (checks unresolvedReport) = check false EmptyString).
Proof.
  split; [vm_compute; reflexivity|].
  apply (early_return_keeps_defaults defaultValidator nxdomainEnv
           (VString "user@nonexistent-domain-example-zz.test")
           unresolvedReport).
  - vm_compute. reflexivity.
  - vm_compute. reflexivity.
Defined.

(** ** The separator rule *)

(** C8, as stated, fails on the empty string: it has no separator, and the
    syntax check answers with the message of the rule before. *)
Lemma empty_string_other_message :
  JsString.countAt EmptyString = 0%nat
  /\ validateSyntax (VString EmptyString)
     = check false "Email is required and must be a string"
  /\ message (validateSyntax (VString EmptyString))
     <> "Email must contain exactly one @ symbol".
Proof. repeat split. discriminate. Qed.

(** C8, amended.  For every non-empty string with no separator or with two
    or more, the syntax check fails with the message of the separator rule,
    and [validateEmail] returns a report with that syntax check after calling
    no other stage. *)
Theorem wrong_separator_count_fails v env s :
  s <> EmptyString ->
  JsString.countAt s <> 1%nat ->
  validateSyntax (VString s)
  = check false "Email must contain exactly one @ symbol"
  /\ exists r,
       validateEmail v env (VString s) = Returned r
       /\ syntax (checks r)
          = check false "Email must contain exactly one @ symbol"
       /\ isValid r = false
       /\ stagesOf v env (VString s) = [CallValidateSyntax (VString s)].
Proof.
  intros Hne Hc.
  assert (S : validateSyntax (VString s)
              = check false "Email must contain exactly one @ symbol").
  { unfold validateSyntax. destruct s as [|c r]; [congruence|].
    cbn [JsString.isEmpty]. rewrite countAt_trim.
    apply Nat.eqb_neq in Hc. rewrite Hc. reflexivity. }
  split; [assumption|].
  destruct (validateEmail_string v env s) as [st [R [T HP]]].
  exists (result st). rewrite T. split; [assumption|].
  destruct HP; cbn in *;
    try (rewrite S in *; cbn in *; discriminate);
    try discriminate.
  rewrite S. repeat split.
Qed.

Lemma wrong_separator_count_fails_witness :
  validateSyntax (VString "a@b@example.com")
  = check false "Email must contain exactly one @ symbol"
  /\ exists r,
       validateEmail defaultValidator nxdomainEnv (VString "a@b@example.com")
       = Returned r
       /\ syntax (checks r)
          = check false "Email must contain exactly one @ symbol"
       /\ isValid r = false
       /\ stagesOf defaultValidator nxdomainEnv (VString "a@b@example.com")
          = [CallValidateSyntax (VString "a@b@example.com")].
Proof.
  apply (wrong_separator_count_fails defaultValidator nxdomainEnv
           "a@b@example.com").
  - discriminate.
  - vm_compute. discriminate.
Defined.

(** ** MX records *)

Lemma insertByPriority_perm a l : Permutation (a :: l) (insertByPriority a l).
Proof.
  induction l as [|b t IH]; simpl; [apply Permutation_refl|].
  destruct (priority a - priority b <=? 0).
  - apply Permutation_refl.
  - eapply perm_trans; [apply perm_swap|]. now apply perm_skip.
Qed.

Lemma sortByPriority_perm l : Permutation l (sortByPriority l).
Proof.
  induction l as [|a t IH]; simpl; [constructor|].
  eapply perm_trans; [|apply insertByPriority_perm]. now apply perm_skip.
Qed.

Lemma insertByPriority_hd a b l :
  priority b <= priority a ->
  HdRel byPriority b l -> HdRel byPriority b (insertByPriority a l).
Proof.
  intros Hba H. destruct l as [|c t]; simpl.
  - constructor. exact Hba.
  - destruct (priority a - priority c <=? 0); constructor.
    + exact Hba.
    + now inversion H.
Qed.

Lemma insertByPriority_sorted a l :
  Sorted byPriority l -> Sorted byPriority (insertByPriority a l).
Proof.
  induction 1 as [|b t St IH Hd]; simpl.
  - repeat constructor.
  - destruct (priority a - priority b <=? 0) eqn:E.
    + constructor; [now constructor|]. constructor.
      unfold byPriority. apply Z.leb_le in E. lia.
    + constructor; [exact IH|].
      apply insertByPriority_hd; [|exact Hd].
      apply Z.leb_gt in E. lia.
Qed.

Lemma sortByPriority_sorted l : Sorted byPriority (sortByPriority l).
Proof.
  induction l as [|a t IH]; simpl; [constructor|].
  now apply insertByPriority_sorted.
Qed.

Lemma validateMX_passed env d r :
  validateMX env d = Fulfilled r ->
  passed r = true ->
  exists found,
    dnsResolveMx env d = Fulfilled found
    /\ records r = Some (sortByPriority found)
    /\ message r
       = "Found " ++ JsString.ofNat (List.length (sortByPriority found))
           ++ " MX record(s)".
Proof.
  unfold validateMX. intros H P.
  destruct (dnsResolveMx env d) as [found|e|]; try discriminate.
  - destruct (List.length found =? 0)%nat; inversion H; subst; simpl in *;
      [discriminate|]. exists found. auto.
  - inversion H; subst; discriminate.
Qed.

(** *** The count in the message *)

Lemma parseDigits_cons radix c r acc :
  JsString.parseDigits radix (String c r) acc
  = match JsString.digitVal radix c with
    | Some d =>
        JsString.parseDigits radix r
          (Some (radix * match acc with Some a => a | None => 0 end + d))
    | None => acc
    end.
Proof. reflexivity. Qed.

Lemma parseDigits_uint u :
  forall k,
    JsString.parseDigits 10 (NilEmpty.string_of_uint u) (Some (Z.of_nat k))
    = Some (Z.of_nat (Nat.of_uint_acc u k)).
Proof.
  induction u; intros k; cbn [NilEmpty.string_of_uint Nat.of_uint_acc];
    [reflexivity|..];
    rewrite parseDigits_cons, Nat.tail_mul_spec;
    match goal with
    | |- context [JsString.digitVal 10 ?c] =>
        let d := eval vm_compute in (JsString.digitVal 10 c) in
        change (JsString.digitVal 10 c) with d
    end;
    rewrite <- IHu; do 2 f_equal; lia.
Qed.

(** The text that a template literal puts for an array length reads back,
    with [parseInt], as that length. *)
Lemma parseInt_ofNat n :
  JsString.parseInt (JsString.ofNat n) = Some (Z.of_nat n).
Proof.
  unfold JsString.ofNat.
  rewrite <- (DecimalNat.Unsigned.of_to n) at 2.
  assert (N : Nat.to_uint n = Decimal.unorm (Nat.to_uint n)).
  { rewrite <- (DecimalNat.Unsigned.to_of (Nat.to_uint n)),
      DecimalNat.Unsigned.of_to.
    reflexivity. }
  rewrite N. unfold Decimal.unorm.
  pose proof (DecimalFacts.nzhead_nonzero (Nat.to_uint n)) as Z0.
  destruct (Decimal.nzhead (Nat.to_uint n)) as [|d|d|d|d|d|d|d|d|d|d];
    [reflexivity|now destruct (Z0 d)|..];
    cbn [NilEmpty.string_of_uint]; unfold JsString.parseInt;
    cbn [JsString.trimStart];
    match goal with
    | |- context [JsString.isWhiteSpace ?c] =>
        change (JsString.isWhiteSpace c) with false
    end;
    cbv beta iota zeta; cbn [option_map];
    rewrite parseDigits_cons;
    match goal with
    | |- context [JsString.digitVal 10 ?c] =>
        let v := eval vm_compute in (JsString.digitVal 10 c) in
        change (JsString.digitVal 10 c) with v
    end;
    cbv beta iota;
    match goal with
    | |- context [JsString.parseDigits 10 _ (Some ?a)] =>
        let k := eval vm_compute in (Z.to_nat a) in
        change a with (Z.of_nat k)
    end;
    rewrite parseDigits_uint; cbn [option_map]; f_equal;
    rewrite Z.mul_1_l; reflexivity.
Qed.

Lemma string_of_uint_digits u :
  allChars isDecimalDigit (NilEmpty.string_of_uint u) = true.
Proof. induction u; simpl; auto. Qed.

Lemma ofNat_numeral n : decimalNumeral (JsString.ofNat n).
Proof.
  unfold JsString.ofNat, decimalNumeral.
  split; [apply string_of_uint_digits|].
  assert (N : Nat.to_uint n = Decimal.unorm (Nat.to_uint n)).
  { rewrite <- (DecimalNat.Unsigned.to_of (Nat.to_uint n)),
      DecimalNat.Unsigned.of_to.
    reflexivity. }
  rewrite N. unfold Decimal.unorm.
  pose proof (DecimalFacts.nzhead_nonzero (Nat.to_uint n)) as Z0.
  destruct (Decimal.nzhead (Nat.to_uint n)) as [|d|d|d|d|d|d|d|d|d|d];
    try (now destruct (Z0 d));
    cbn [NilEmpty.string_of_uint firstChar];
    (split; [discriminate|]); intros H; try reflexivity; discriminate.
Qed.

Example ofNat_examples :
  JsString.ofNat 0 = "0" /\ JsString.ofNat 7 = "7"
  /\ JsString.ofNat 12 = "12" /\ JsString.ofNat 305 = "305".
Proof. repeat split. Qed.

(** What [validateMX] returns for each answer of the resolver. *)
Lemma validateMX_outcome env d :
  match dnsResolveMx env d with
  | RejectedWith e =>
      validateMX env d
      = Fulfilled (mkCheck false ("MX record lookup failed: " ++ codeOrMessage e)
                     (Some []) None)
  | Fulfilled [] =>
      validateMX env d
      = Fulfilled (mkCheck false "No MX records found for domain" (Some []) None)
  | Fulfilled found =>
      validateMX env d
      = Fulfilled
          (mkCheck true
             ("Found " ++ JsString.ofNat (List.length (sortByPriority found))
                ++ " MX record(s)")
             (Some (sortByPriority found)) None)
  | Pending => validateMX env d = Pending
  end.
Proof.
  unfold validateMX.
  destruct (dnsResolveMx env d) as [[|m found]|e|]; reflexivity.
Qed.

(** C6.  A passing result of [validateMX] lists the records the resolver
    found, sorted by non-decreasing priority, and its message states how many
    there are; a resolver error and an empty answer both give a failed result
    with an explanation and no records.  The mx check of a returned report,
    when it passed, has sorted records and that message too.  [validateMX]
    does return in each of these cases: on a resolver error and on an empty
    answer it returns the failed results named, and on an answer with
    records it returns the passing result with the same records sorted and
    with the message "Found n MX record(s)", where n is the number of
    records written in decimal, digits only and without a zero in front:
    [parseInt] reads that number back from it. *)
Theorem mx_records_sorted :
  (forall env d r,
     validateMX env d = Fulfilled r ->
     (passed r = true ->
        exists found recs,
          dnsResolveMx env d = Fulfilled found
          /\ records r = Some recs
          /\ Permutation found recs
          /\ Sorted byPriority recs
          /\ message r
             = "Found " ++ JsString.ofNat (List.length recs) ++ " MX record(s)")
     /\ (forall e,
           dnsResolveMx env d = RejectedWith e ->
           r = mkCheck false ("MX record lookup failed: " ++ codeOrMessage e)
                 (Some []) None)
     /\ (dnsResolveMx env d = Fulfilled [] ->
           r = mkCheck false "No MX records found for domain" (Some []) None))
  /\ (forall v env input rep,
        validateEmail v env input = Returned rep ->
        passed (mx (checks rep)) = true ->
        exists recs,
          records (mx (checks rep)) = Some recs
          /\ Sorted byPriority recs
          /\ message (mx (checks rep))
             = "Found " ++ JsString.ofNat (List.length recs) ++ " MX record(s)")
  /\ (forall env d e,
        dnsResolveMx env d = RejectedWith e ->
        validateMX env d
        = Fulfilled
            (mkCheck false ("MX record lookup failed: " ++ codeOrMessage e)
               (Some []) None))
  /\ (forall env d,
        dnsResolveMx env d = Fulfilled [] ->
        validateMX env d
        = Fulfilled
            (mkCheck false "No MX records found for domain" (Some []) None))
  /\ (forall env d found,
        dnsResolveMx env d = Fulfilled found ->
        found <> [] ->
        exists recs count,
          validateMX env d
          = Fulfilled
              (mkCheck true ("Found " ++ count ++ " MX record(s)")
                 (Some recs) None)
          /\ Permutation found recs
          /\ Sorted byPriority recs
          /\ List.length recs = List.length found
          /\ count = JsString.ofNat (List.length found)
          /\ decimalNumeral count
          /\ JsString.parseInt count = Some (Z.of_nat (List.length found)))
  /\ (forall n,
        decimalNumeral (JsString.ofNat n)
        /\ JsString.parseInt (JsString.ofNat n) = Some (Z.of_nat n)).
Proof.
  split; [|split; [|split; [|split; [|split]]]].
  - intros env d r H. split; [|split].
    + intros P. destruct (validateMX_passed env d r H P) as [found [F [Rc M]]].
      exists found, (sortByPriority found).
      repeat split; auto using sortByPriority_perm, sortByPriority_sorted.
    + intros e E. unfold validateMX in H. rewrite E in H. now inversion H.
    + intros E. unfold validateMX in H. rewrite E in H. now inversion H.
  - intros v env input rep H P.
    by_path v env input H; try discriminate; try congruence.
    match goal with
    | E : validateMX _ _ = Fulfilled _ |- _ =>
        destruct (validateMX_passed _ _ _ E P) as [found [F [Rc M]]]
    end.
    exists (sortByPriority found).
    repeat split; auto using sortByPriority_sorted.
  - intros env d e E. pose proof (validateMX_outcome env d) as H.
    now rewrite E in H.
  - intros env d E. pose proof (validateMX_outcome env d) as H.
    now rewrite E in H.
  - intros env d found E Hne. pose proof (validateMX_outcome env d) as H.
    rewrite E in H. destruct found as [|m found]; [congruence|].
    assert (L : List.length (sortByPriority (m :: found))
                = List.length (m :: found)).
    { symmetry. apply Permutation_length, sortByPriority_perm. }
    rewrite L in H.
    exists (sortByPriority (m :: found)),
           (JsString.ofNat (List.length (m :: found))).
    split; [exact H|].
    split; [apply sortByPriority_perm|].
    split; [apply sortByPriority_sorted|].
    split; [exact L|]. split; [reflexivity|].
    split; [apply ofNat_numeral|apply parseInt_ofNat].
  - intros n. split; [apply ofNat_numeral|apply parseInt_ofNat].
Qed.

Lemma mx_records_sorted_witness :
  (exists recs,
     records (mx (checks sampleReport)) = Some recs
     /\ Sorted byPriority recs
     /\ message (mx (checks sampleReport))
        = "Found " ++ JsString.ofNat (List.length recs) ++ " MX record(s)")
  /\ validateMX nxdomainEnv (Some "nowhere.test")
     = Fulfilled (mkCheck false "MX record lookup failed: ENOTFOUND"
                    (Some []) None)
  /\ (exists recs count,
        validateMX (sampleEnv "250 2.1.5 Ok") (Some "example.com")
        = Fulfilled
            (mkCheck true ("Found " ++ count ++ " MX record(s)")
               (Some recs) None)
        /\ Permutation
             [mkMx "mx2.example.com" 20; mkMx "mx1.example.com" 10] recs
        /\ Sorted byPriority recs
        /\ List.length recs = 2%nat
        /\ count = "2"
        /\ decimalNumeral count
        /\ JsString.parseInt count = Some 2).
Proof.
  split; [|split].
  - destruct mx_records_sorted as [_ [H _]].
    apply (H defaultValidator (sampleEnv "250 2.1.5 Ok") sampleInput
             sampleReport).
    + vm_compute. reflexivity.
    + vm_compute. reflexivity.
  - destruct mx_records_sorted as [_ [_ [H _]]].
    apply (H nxdomainEnv (Some "nowhere.test")
             (mkError (Some "ENOTFOUND") "queryMx ENOTFOUND")).
    reflexivity.
  - destruct mx_records_sorted as [_ [_ [_ [_ [H _]]]]].
    apply (H (sampleEnv "250 2.1.5 Ok") (Some "example.com")
             [mkMx "mx2.example.com" 20; mkMx "mx1.example.com" 10]).
    + reflexivity.
    + discriminate.
Defined.

Example mx_sorted_example :
  records (mx (checks sampleReport))
  = Some [mkMx "mx1.example.com" 10; mkMx "mx2.example.com" 20]
  /\ message (mx (checks sampleReport)) = "Found 2 MX record(s)".
Proof. vm_compute. split; reflexivity. Qed.

(** ** The SMTP session *)

(** C4.  In step 3 of a session whose promise is still open, the data
    listener resolves the promise, and the code at the start of the trimmed
    line decides the result: 250 gives [passed = true] and the acceptance
    message; 550, 551 and 553 give [passed = false] and "Email address
    rejected: " before the line; 450, 451 and 452 give [passed = false] and
    "Temporary failure (possible greylisting): " before the line; everything
    else gives [passed = false] and "Unexpected response: " before the
    line. *)
Theorem rcpt_classification v env rcpt data s :
  s_step s = 3%nat ->
  s_settled s = None ->
  exists r,
    s_settled (onData v env rcpt data s) = Some (inl r)
    /\ (JsString.parseInt (JsString.substr0 3 (JsString.trim data)) = Some 250 ->
          passed r = true
          /\ message r = "Email address accepted by SMTP server")
    /\ (In (JsString.parseInt (JsString.substr0 3 (JsString.trim data)))
          [Some 550; Some 551; Some 553] ->
          passed r = false
          /\ message r = "Email address rejected: " ++ JsString.trim data)
    /\ (In (JsString.parseInt (JsString.substr0 3 (JsString.trim data)))
          [Some 450; Some 451; Some 452] ->
          passed r = false
          /\ message r
             = "Temporary failure (possible greylisting): "
                 ++ JsString.trim data)
    /\ (~ In (JsString.parseInt (JsString.substr0 3 (JsString.trim data)))
            [Some 250; Some 550; Some 551; Some 553;
             Some 450; Some 451; Some 452] ->
          passed r = false
          /\ message r = "Unexpected response: " ++ JsString.trim data).
Proof.
  intros Hstep Hopen.
  unfold onData. cbn [setResponse s_step]. rewrite Hstep.
  set (code := JsString.parseInt (JsString.substr0 3 (JsString.trim data))).
  set (s1 := socketWrite _ _).
  assert (O1 : s_settled s1 = None).
  { unfold s1, socketWrite, cleanup, clearWatchdog, socketDestroy.
    cbn. destruct (s_destroyed s); cbn; exact Hopen. }
  assert (St : forall r, s_settled (resolve r s1) = Some (inl r)).
  { intros r. unfold resolve, settle. rewrite O1. reflexivity. }
  assert (D : forall n, isCode code n = true <-> code = Some n).
  { intros n. unfold isCode. destruct code as [c|].
    - rewrite Z.eqb_eq. split; congruence.
    - split; discriminate. }
  destruct (isCode code 250) eqn:E250.
  { eexists. split; [apply St|]. apply D in E250. rewrite E250.
    repeat split; cbn; intros; try reflexivity;
      try (exfalso; simpl in *; intuition congruence). }
  destruct (isCode code 550 || isCode code 551 || isCode code 553) eqn:E55.
  { eexists. split; [apply St|].
    rewrite !orb_true_iff, !D in E55.
    repeat split; cbn; intros; try reflexivity;
      try (exfalso; simpl in *; intuition congruence). }
  destruct (isCode code 450 || isCode code 451 || isCode code 452) eqn:E45.
  { eexists. split; [apply St|].
    rewrite !orb_true_iff, !D in E45.
    repeat split; cbn; intros; try reflexivity;
      try (exfalso; simpl in *; intuition congruence). }
  eexists. split; [apply St|].
  assert (N : forall n, isCode code n = false -> code <> Some n).
  { intros n F C. apply D in C. congruence. }
  rewrite !orb_false_iff in E55, E45.
  destruct E55 as [[E550 E551] E553]. destruct E45 as [[E450 E451] E452].
  apply N in E250, E550, E551, E553, E450, E451, E452.
  repeat split; cbn; intros; try reflexivity;
    exfalso; simpl in *; intuition congruence.
Qed.

Lemma rcpt_classification_witness :
  exists r,
    s_settled
      (onData defaultValidator (sampleEnv "") "user@example.com"
         "550 5.1.1 No such user" rcptSent)
    = Some (inl r)
    /\ passed r = false
    /\ message r = "Email address rejected: 550 5.1.1 No such user".
Proof.
  destruct (rcpt_classification defaultValidator (sampleEnv "")
              "user@example.com" "550 5.1.1 No such user" rcptSent)
    as [r [S [_ [H _]]]].
  - vm_compute. reflexivity.
  - vm_compute. reflexivity.
  - exists r. split; [exact S|].
    apply H. vm_compute. auto.
Defined.

Example probe_accepts :
  performSMTPCheck defaultValidator (sampleEnv "") "user@example.com"
    (serverReplying "250 2.1.5 Ok")
  = Fulfilled
      (mkCheck true "Email address accepted by SMTP server" None
         (Some ("220 mx.example.com ESMTP" ++ LF ++ "250 mx.example.com" ++ LF
                ++ "250 2.1.0 Ok" ++ LF ++ "250 2.1.5 Ok"))).
Proof. vm_compute. reflexivity. Qed.

Example probe_rejects :
  performSMTPCheck defaultValidator (sampleEnv "") "user@example.com"
    (serverReplying "550 5.1.1 No such user")
  = Fulfilled
      (mkCheck false "Email address rejected: 550 5.1.1 No such user" None
         (Some ("220 mx.example.com ESMTP" ++ LF ++ "250 mx.example.com" ++ LF
                ++ "250 2.1.0 Ok" ++ LF ++ "550 5.1.1 No such user"))).
Proof. vm_compute. reflexivity. Qed.

(** A server that closes the connection after the greeting: the listener of
    ['close'] clears the watchdog and settles nothing. *)
Example probe_never_settles :
  performSMTPCheck defaultValidator (sampleEnv "") "user@example.com"
    [Data "220 mx.example.com ESMTP"; Close]
  = Pending.
Proof. vm_compute. reflexivity. Qed.

Example probe_watchdog :
  performSMTPCheck defaultValidator (sampleEnv "") "user@example.com"
    [Data "220 mx.example.com ESMTP"]
  = RejectedWith (Error "SMTP connection timeout").
Proof. vm_compute. reflexivity. Qed.

(** *** What reaches the server *)

Lemma cleanup_destroyed s : s_destroyed (cleanup s) = true.
Proof.
  unfold cleanup, clearWatchdog, socketDestroy. cbn.
  destruct (s_destroyed s) eqn:E; cbn; auto.
Qed.

Lemma cleanup_sent s : s_sent (cleanup s) = s_sent s.
Proof.
  unfold cleanup, clearWatchdog, socketDestroy. cbn.
  destruct (s_destroyed s); reflexivity.
Qed.

Lemma settle_sent o s : s_sent (settle o s) = s_sent s.
Proof. unfold settle. destruct (s_settled s); reflexivity. Qed.

Lemma settle_destroyed o s : s_destroyed (settle o s) = s_destroyed s.
Proof. unfold settle. destruct (s_settled s); reflexivity. Qed.

Lemma socketWrite_destroyed_sent data s :
  s_destroyed s = true -> s_sent (socketWrite data s) = s_sent s.
Proof. unfold socketWrite. intros ->. reflexivity. Qed.

Lemma socketWrite_sent data s :
  notQuit data -> Forall notQuit (s_sent s) ->
  Forall notQuit (s_sent (socketWrite data s)).
Proof.
  intros Hd Hs. unfold socketWrite. destruct (s_destroyed s); cbn.
  - exact Hs.
  - apply Forall_app. split; [exact Hs|]. constructor; [exact Hd|constructor].
Qed.

Lemma onData_sent v env rcpt data s :
  Forall notQuit (s_sent s) -> Forall notQuit (s_sent (onData v env rcpt data s)).
Proof.
  intros Hs. unfold onData. cbn [setResponse s_step].
  set (s0 := setResponse _ s).
  assert (H0 : Forall notQuit (s_sent s0)) by exact Hs.
  destruct (s_step s) as [|[|[|[|n]]]].
  - destruct (isCode _ 220).
    + apply socketWrite_sent with (data := "HELO " ++ hostname env ++ CRLF) in H0;
        [exact H0 | unfold notQuit; cbn; discriminate].
    + unfold resolve. now rewrite settle_sent, cleanup_sent.
  - destruct (isCode _ 250).
    + apply socketWrite_sent
        with (data := "MAIL FROM:<" ++ fromEmail v ++ ">" ++ CRLF) in H0;
        [exact H0 | unfold notQuit; cbn; discriminate].
    + unfold resolve. now rewrite settle_sent, cleanup_sent.
  - destruct (isCode _ 250).
    + apply socketWrite_sent
        with (data := "RCPT TO:<" ++ rcpt ++ ">" ++ CRLF) in H0;
        [exact H0 | unfold notQuit; cbn; discriminate].
    + unfold resolve. now rewrite settle_sent, cleanup_sent.
  - assert (Q : s_sent (socketWrite ("QUIT" ++ CRLF) (cleanup s0)) = s_sent s).
    { rewrite socketWrite_destroyed_sent by apply cleanup_destroyed.
      now rewrite cleanup_sent. }
    unfold resolve.
    repeat match goal with
           | |- context [if ?b then _ else _] => destruct b
           end; rewrite settle_sent, Q; exact Hs.
  - exact H0.
Qed.

Lemma handleEvent_sent v env rcpt ev s :
  Forall notQuit (s_sent s) ->
  Forall notQuit (s_sent (handleEvent v env rcpt ev s)).
Proof.
  intros Hs. destruct ev; simpl.
  - destruct (s_destroyed s); [exact Hs|]. now apply onData_sent.
  - destruct (s_destroyed s); [exact Hs|].
    unfold reject. now rewrite settle_sent, cleanup_sent.
  - destruct (s_destroyed s); [exact Hs|].
    unfold reject. now rewrite settle_sent, cleanup_sent.
  - now rewrite cleanup_sent.
  - destruct (s_watchdogArmed s); [|exact Hs].
    unfold reject. now rewrite settle_sent.
Qed.

Lemma fold_handleEvent_sent v env rcpt events :
  forall s,
    Forall notQuit (s_sent s) ->
    Forall notQuit
      (s_sent (fold_left (fun s ev => handleEvent v env rcpt ev s) events s)).
Proof.
  induction events as [|ev rest IH]; intros s Hs; simpl; [exact Hs|].
  apply IH. now apply handleEvent_sent.
Qed.

(** C7.  With a server that answers 220, 250, 250 and 250, the session
    resolves with the acceptance, and what it has sent to the server is HELO,
    MAIL FROM and RCPT TO: the QUIT line was written after the socket had
    been destroyed and was dropped.  In no session, whatever the server does,
    does a QUIT line reach the server. *)
Theorem quit_never_reaches_server :
  (s_sent (runSession defaultValidator (sampleEnv "") "user@example.com"
             (serverReplying "250 2.1.5 Ok"))
   = [ "HELO localhost" ++ CRLF; "MAIL FROM:<test@example.com>" ++ CRLF;
       "RCPT TO:<user@example.com>" ++ CRLF ]
   /\ s_dropped (runSession defaultValidator (sampleEnv "") "user@example.com"
                   (serverReplying "250 2.1.5 Ok"))
      = [ "QUIT" ++ CRLF ]
   /\ s_destroyed (runSession defaultValidator (sampleEnv "") "user@example.com"
                     (serverReplying "250 2.1.5 Ok"))
      = true)
  /\ forall v env rcpt events,
       ~ In ("QUIT" ++ CRLF) (s_sent (runSession v env rcpt events)).
Proof.
  split.
  - vm_compute. repeat split.
  - intros v env rcpt events Hin.
    assert (F : Forall notQuit (s_sent (runSession v env rcpt events))).
    { unfold runSession. apply handleEvent_sent, fold_handleEvent_sent.
      constructor. }
    rewrite Forall_forall in F. now apply (F _ Hin).
Qed.

(** ** The loop over rounds and hosts *)

Lemma AllFailed_nil v env raw mxs : AllFailed v env raw mxs [].
Proof. intros a i h []. Qed.

Lemma AllFailed_app v env raw mxs t1 t2 :
  AllFailed v env raw mxs t1 -> AllFailed v env raw mxs t2 ->
  AllFailed v env raw mxs (t1 ++ t2).
Proof.
  intros H1 H2 a i h Hin. apply in_app_or in Hin as [Hin|Hin]; eauto.
Qed.

Lemma AllFailed_cons_probe v env raw mxs a i m t :
  nth_error mxs i = Some m ->
  probeFails (probe v env raw a i m) ->
  AllFailed v env raw mxs t ->
  AllFailed v env raw mxs (EvProbe a i (exchange m) :: t).
Proof.
  intros Hn Hf Ht a' i' h' [E|Hin]; [|eauto].
  inversion E; subst. eauto.
Qed.

Lemma AllFailed_sleep v env raw mxs ms : AllFailed v env raw mxs [EvSleep ms].
Proof. intros a i h [E|[]]. discriminate. Qed.

(** The loop over the hosts, started at position [idx] on the hosts [mxs]
    that follow the first [idx] ones of [all]. *)
Lemma hostLoop_trace v env raw attempt all :
  forall mxs idx o t,
    (forall i m, nth_error mxs i = Some m ->
                 nth_error all (idx + i) = Some m) ->
    hostLoop v env raw attempt idx mxs = (o, t) ->
    match o with
    | None =>
        t = probesFrom attempt idx mxs /\ AllFailed v env raw all t
    | Some out =>
        exists pre i m rest,
          t = (pre ++ [EvProbe attempt i (exchange m)])%list
          /\ probesFrom attempt idx mxs = (t ++ rest)%list
          /\ nth_error all i = Some m
          /\ out = probe v env raw attempt i m
          /\ probeStops out
          /\ AllFailed v env raw all pre
    end.
Proof.
  induction mxs as [|m rest IH]; intros idx o t Hsuf; simpl.
  - intros H; inversion H; subst. split; [reflexivity|apply AllFailed_nil].
  - assert (Hm : nth_error all idx = Some m).
    { rewrite <- (Nat.add_0_r idx). now apply Hsuf. }
    assert (Hsuf' : forall i m', nth_error rest i = Some m' ->
                                 nth_error all (S idx + i) = Some m').
    { intros i m' Hi. specialize (Hsuf (S i) m' Hi).
      now rewrite Nat.add_succ_r in Hsuf. }
    assert (Continue :
      probeFails (probe v env raw attempt idx m) ->
      forall o' t',
        hostLoop v env raw attempt (S idx) rest = (o', t') ->
        (o', EvProbe attempt idx (exchange m) :: t') = (o, t) ->
        match o with
        | None => t = EvProbe attempt idx (exchange m)
                      :: probesFrom attempt (S idx) rest
                  /\ AllFailed v env raw all t
        | Some out =>
            exists pre i m0 rest0,
              t = (pre ++ [EvProbe attempt i (exchange m0)])%list
              /\ EvProbe attempt idx (exchange m)
                   :: probesFrom attempt (S idx) rest = (t ++ rest0)%list
              /\ nth_error all i = Some m0
              /\ out = probe v env raw attempt i m0
              /\ probeStops out
              /\ AllFailed v env raw all pre
        end).
    { intros Hf o' t' E H. inversion H; subst o' t; clear H.
      specialize (IH (S idx) o t' Hsuf' E).
      destruct o as [out|].
      - destruct IH as [pre [i [m0 [rest0 [Ht [Hp [Hn [Ho [Hs Ha]]]]]]]]].
        exists (EvProbe attempt idx (exchange m) :: pre), i, m0, rest0.
        repeat split; auto.
        + now rewrite Ht.
        + now rewrite Hp.
        + now apply AllFailed_cons_probe.
      - destruct IH as [Ht Ha]. split; [now rewrite Ht|].
        now apply AllFailed_cons_probe. }
    destruct (probe v env raw attempt idx m) as [r|e|] eqn:P.
    + destruct (passed r) eqn:Pr.
      * intros H; inversion H; subst.
        exists [], idx, m, (probesFrom attempt (S idx) rest).
        repeat split; auto using AllFailed_nil.
      * destruct (hostLoop v env raw attempt (S idx) rest) as [o' t'] eqn:E.
        intros H. now apply (Continue Pr o' t').
    + destruct (hostLoop v env raw attempt (S idx) rest) as [o' t'] eqn:E.
      intros H. now apply (Continue I o' t').
    + intros H; inversion H; subst.
      exists [], idx, m, (probesFrom attempt (S idx) rest).
      repeat split; auto using AllFailed_nil.
Qed.

(** The loop over the rounds with [n] rounds left. *)
Lemma attemptLoop_trace v env raw mxs :
  forall n attempt out t,
    (n <> O -> retryAttempts v = attempt + Z.of_nat n) ->
    attemptLoop v env raw mxs n attempt = (out, t) ->
    (exists rest, roundsFrom n attempt mxs = (t ++ rest)%list)
    /\ ((out = Fulfilled smtpExhausted
         /\ t = roundsFrom n attempt mxs
         /\ AllFailed v env raw mxs t)
        \/ (exists pre a i m,
              t = (pre ++ [EvProbe a i (exchange m)])%list
              /\ attempt <= a < retryAttempts v
              /\ nth_error mxs i = Some m
              /\ out = probe v env raw a i m
              /\ probeStops out
              /\ AllFailed v env raw mxs pre)).
Proof.
  induction n as [|n IH]; intros attempt out t Hr; simpl.
  - intros H; inversion H; subst. split; [exists []; reflexivity|].
    left. repeat split. apply AllFailed_nil.
  - specialize (Hr ltac:(discriminate)).
    assert (Hlt : (attempt <? retryAttempts v) = true) by (apply Z.ltb_lt; lia).
    rewrite Hlt.
    destruct (hostLoop v env raw attempt 0 mxs) as [[o|] th] eqn:E.
    + intros H; inversion H; subst.
      pose proof (hostLoop_trace v env raw attempt mxs mxs 0%nat (Some out) t
                    (fun i m Hi => Hi) E) as Hh.
      cbn beta iota in Hh.
      destruct Hh as [pre [i [m [rest [Ht [Hp [Hn [Ho [Hs Ha]]]]]]]]].
      split.
      * rewrite Hp, <- app_assoc. eauto.
      * right. exists pre, attempt, i, m. repeat split; auto; lia.
    + pose proof (hostLoop_trace v env raw attempt mxs mxs 0%nat None th
                    (fun i m Hi => Hi) E) as [Hth Hah].
      destruct (attemptLoop v env raw mxs n (attempt + 1)) as [o' t'] eqn:E'.
      intros H; inversion H; subst o' t; clear H.
      assert (Hr' : n <> O -> retryAttempts v = attempt + 1 + Z.of_nat n) by lia.
      destruct (IH (attempt + 1) out t' Hr' E') as [[rest Hrest] Hcase].
      destruct n as [|n'].
      * assert (Hge : (attempt <? retryAttempts v - 1) = false)
          by (apply Z.ltb_ge; lia).
        rewrite Hge. simpl in E'. inversion E'; subst. simpl.
        rewrite !app_nil_r. split; [exists []; now rewrite app_nil_r|].
        left. repeat split; auto.
      * assert (Hlt1 : (attempt <? retryAttempts v - 1) = true)
          by (apply Z.ltb_lt; lia).
        rewrite Hlt1. split.
        -- exists rest. rewrite Hth.
           change (roundsFrom (S (S n')) attempt mxs)
             with (probesFrom attempt 0 mxs
                   ++ EvSleep 1000 :: roundsFrom (S n') (attempt + 1) mxs)%list.
           rewrite Hrest, <- !app_assoc. reflexivity.
        -- destruct Hcase as [[Ho [Ht Ha]]|[pre [a [i [m Hc]]]]].
           ++ left. split; [exact Ho|]. split.
              ** rewrite Hth, Ht. reflexivity.
              ** apply AllFailed_app; [exact Hah|].
                 apply AllFailed_app; [apply AllFailed_sleep|exact Ha].
           ++ destruct Hc as [Ht [Hb [Hn [Ho [Hs Ha]]]]].
              right. exists (th ++ [EvSleep 1000] ++ pre)%list, a, i, m.
              repeat split; auto; try lia.
              ** rewrite Ht, <- !app_assoc. reflexivity.
              ** apply AllFailed_app; [exact Hah|].
                 apply AllFailed_app; [apply AllFailed_sleep|exact Ha].
Qed.

Lemma probeFails_not_stops o : probeFails o -> probeStops o -> False.
Proof. destruct o as [r| |]; simpl; congruence. Qed.

Lemma split_twice {A : Type} (x y : A) (r1 r2 : list A) :
  forall l1 l2,
    (l1 ++ x :: r1)%list = (l2 ++ y :: r2)%list ->
    (l1 = l2 /\ x = y /\ r1 = r2) \/ In x l2 \/ In y l1.
Proof.
  induction l1 as [|a l1 IH]; intros [|b l2] H; simpl in H;
    inversion H; subst.
  - left. auto.
  - right. left. now left.
  - right. right. now left.
  - destruct (IH l2 ltac:(assumption)) as [[E1 [E2 E3]]|[Hin|Hin]].
    + left. subst. auto.
    + right. left. now right.
    + right. right. now right.
Qed.

(** The loop stops at the first probe of the schedule that does not settle
    as a failure, with what that probe gives. *)
Lemma validateSMTP_first_stop v env raw mxs pre a i m rest :
  fullSchedule v mxs = (pre ++ EvProbe a i (exchange m) :: rest)%list ->
  nth_error mxs i = Some m ->
  AllFailed v env raw mxs pre ->
  probeStops (probe v env raw a i m) ->
  validateSMTP v env raw mxs
  = (probe v env raw a i m, (pre ++ [EvProbe a i (exchange m)])%list).
Proof.
  intros Hf Hn Ha Hs. unfold validateSMTP, fullSchedule in *.
  destruct (attemptLoop v env raw mxs (Z.to_nat (retryAttempts v)) 0)
    as [out t] eqn:E.
  assert (Hr : Z.to_nat (retryAttempts v) <> O ->
               retryAttempts v = 0 + Z.of_nat (Z.to_nat (retryAttempts v)))
    by lia.
  destruct (attemptLoop_trace v env raw mxs _ 0 out t Hr E)
    as [[rest' Hpre] Hcase].
  destruct Hcase
    as [[Hex [Ht Hall]]|[pre' [a' [i' [m' [Ht [_ [Hn' [Ho [Hs' Ha']]]]]]]]]].
  - exfalso.
    destruct (Hall a i (exchange m)) as [m0 [Hn0 [_ Hf0]]].
    { rewrite Ht, Hf. apply in_elt. }
    rewrite Hn in Hn0. inversion Hn0; subst m0.
    eapply probeFails_not_stops; eassumption.
  - rewrite Hf, Ht, <- app_assoc in Hpre. simpl in Hpre.
    destruct (split_twice _ _ _ _ _ _ Hpre) as [[E1 [E2 E3]]|[Hin|Hin]].
    + subst pre'. inversion E2; subst a' i'.
      rewrite Hn in Hn'. inversion Hn'; subst m'.
      now rewrite Ht, Ho.
    + exfalso. destruct (Ha' a i (exchange m) Hin) as [m0 [Hn0 [_ Hf0]]].
      rewrite Hn in Hn0. inversion Hn0; subst m0.
      eapply probeFails_not_stops; eassumption.
    + exfalso. destruct (Ha a' i' (exchange m') Hin) as [m0 [Hn0 [_ Hf0]]].
      rewrite Hn' in Hn0. inversion Hn0; subst m0.
      rewrite Ho in Hs'. eapply probeFails_not_stops; eassumption.
Qed.

(** C5.  The probes and pauses that [validateSMTP] makes are an initial part
    of the full schedule: rounds in order, in each round the hosts in the
    order of the list, and 1000 ms of pause between two rounds.  A passing
    result is the result of the last probe made, and every probe before it
    settled without passing, by a failed result or by a connection error.
    When every probe of the schedule settles without passing, the whole
    schedule is run and the result is the failure with the message "SMTP
    validation failed for all MX servers after retries" and an empty
    transcript; and a failed result is always that one, reached after the
    whole schedule.  When a probe of the schedule passes and every probe
    before it in the schedule settled without passing, [validateSMTP] returns
    the result of that probe and makes no probe after it; when instead that
    probe never settles, neither does [validateSMTP], which waits there. *)
Theorem orchestrator_schedule v env raw mxs :
  (exists rest,
     fullSchedule v mxs = (snd (validateSMTP v env raw mxs) ++ rest)%list)
  /\ (forall r,
        fst (validateSMTP v env raw mxs) = Fulfilled r ->
        passed r = true ->
        exists pre a i m,
          snd (validateSMTP v env raw mxs)
          = (pre ++ [EvProbe a i (exchange m)])%list
          /\ nth_error mxs i = Some m
          /\ probe v env raw a i m = Fulfilled r
          /\ AllFailed v env raw mxs pre)
  /\ ((forall a i m,
         0 <= a < retryAttempts v ->
         nth_error mxs i = Some m ->
         probeFails (probe v env raw a i m)) ->
      validateSMTP v env raw mxs
      = (Fulfilled
           (mkCheck false
              "SMTP validation failed for all MX servers after retries"
              None (Some EmptyString)),
         fullSchedule v mxs))
  /\ (forall r,
        fst (validateSMTP v env raw mxs) = Fulfilled r ->
        passed r = false ->
        r = mkCheck false
              "SMTP validation failed for all MX servers after retries"
              None (Some EmptyString)
        /\ snd (validateSMTP v env raw mxs) = fullSchedule v mxs
        /\ AllFailed v env raw mxs (fullSchedule v mxs))
  /\ (forall pre a i m rest r,
        fullSchedule v mxs = (pre ++ EvProbe a i (exchange m) :: rest)%list ->
        nth_error mxs i = Some m ->
        AllFailed v env raw mxs pre ->
        probe v env raw a i m = Fulfilled r ->
        passed r = true ->
        validateSMTP v env raw mxs
        = (Fulfilled r, (pre ++ [EvProbe a i (exchange m)])%list))
  /\ (forall pre a i m rest,
        fullSchedule v mxs = (pre ++ EvProbe a i (exchange m) :: rest)%list ->
        nth_error mxs i = Some m ->
        AllFailed v env raw mxs pre ->
        probe v env raw a i m = Pending ->
        validateSMTP v env raw mxs
        = (Pending, (pre ++ [EvProbe a i (exchange m)])%list)).
Proof.
  assert (First :
    (forall pre a i m rest r,
        fullSchedule v mxs = (pre ++ EvProbe a i (exchange m) :: rest)%list ->
        nth_error mxs i = Some m ->
        AllFailed v env raw mxs pre ->
        probe v env raw a i m = Fulfilled r ->
        passed r = true ->
        validateSMTP v env raw mxs
        = (Fulfilled r, (pre ++ [EvProbe a i (exchange m)])%list))
    /\ (forall pre a i m rest,
        fullSchedule v mxs = (pre ++ EvProbe a i (exchange m) :: rest)%list ->
        nth_error mxs i = Some m ->
        AllFailed v env raw mxs pre ->
        probe v env raw a i m = Pending ->
        validateSMTP v env raw mxs
        = (Pending, (pre ++ [EvProbe a i (exchange m)])%list))).
  { split.
    - intros pre a i m rest r Hf Hn Ha Hp Pr.
      rewrite <- Hp.
      apply (validateSMTP_first_stop v env raw mxs pre a i m rest Hf Hn Ha).
      rewrite Hp. exact Pr.
    - intros pre a i m rest Hf Hn Ha Hp.
      rewrite <- Hp.
      apply (validateSMTP_first_stop v env raw mxs pre a i m rest Hf Hn Ha).
      rewrite Hp. exact I. }
  revert First.
  unfold validateSMTP, fullSchedule.
  destruct (attemptLoop v env raw mxs (Z.to_nat (retryAttempts v)) 0)
    as [out t] eqn:E.
  intros First.
  assert (Hr : Z.to_nat (retryAttempts v) <> O ->
               retryAttempts v = 0 + Z.of_nat (Z.to_nat (retryAttempts v)))
    by lia.
  destruct (attemptLoop_trace v env raw mxs _ 0 out t Hr E) as [Hpre Hcase].
  cbn [fst snd].
  split; [exact Hpre|]. split; [|split; [|split; [|exact First]]].
  - intros r Ho Pr.
    destruct Hcase as [[Hex _]|[pre [a [i [m [Ht [_ [Hn [Hp [_ Ha]]]]]]]]]].
    + rewrite Ho in Hex. inversion Hex; subst. discriminate.
    + exists pre, a, i, m. repeat split; auto. congruence.
  - intros Hall.
    destruct Hcase as [[Hex [Ht _]]|[pre [a [i [m [_ [Hb [Hn [Hp [Hs _]]]]]]]]]].
    + now rewrite Hex, Ht.
    + exfalso. specialize (Hall a i m ltac:(lia) Hn).
      rewrite <- Hp in Hall.
      destruct out as [r| |]; simpl in *; [congruence|assumption|assumption].
  - intros r Ho Pr.
    destruct Hcase as [[Hex [Ht Ha]]|[pre [a [i [m [_ [_ [_ [_ [Hs _]]]]]]]]]].
    + rewrite Ho in Hex. inversion Hex; subst. auto.
    + rewrite Ho in Hs. simpl in Hs. congruence.
Qed.

Lemma orchestrator_schedule_witness :
  validateSMTP retryingValidator refusingEnv "user@example.com" twoHosts
  = (Fulfilled
       (mkCheck false "SMTP validation failed for all MX servers after retries"
          None (Some EmptyString)),
     [ EvProbe 0 0 "mx1.example.com"; EvProbe 0 1 "mx2.example.com";
       EvSleep 1000;
       EvProbe 1 0 "mx1.example.com"; EvProbe 1 1 "mx2.example.com" ])
  /\ validateSMTP retryingValidator secondHostEnv "user@example.com" twoHosts
     = (Fulfilled
          (mkCheck true "Email address accepted by SMTP server" None
             (Some ("220 mx.example.com ESMTP" ++ LF ++ "250 mx.example.com"
                    ++ LF ++ "250 2.1.0 Ok" ++ LF ++ "250 2.1.5 Ok"))),
        [ EvProbe 0 0 "mx1.example.com"; EvProbe 0 1 "mx2.example.com";
          EvSleep 1000;
          EvProbe 1 0 "mx1.example.com"; EvProbe 1 1 "mx2.example.com" ]).
Proof.
  split.
  - destruct (orchestrator_schedule retryingValidator refusingEnv
                "user@example.com" twoHosts) as [_ [_ [H _]]].
    apply H. intros a i m Ha Hn.
    destruct i as [|[|i]]; simpl in Hn; inversion Hn; subst; exact I.
  - destruct (orchestrator_schedule retryingValidator secondHostEnv
                "user@example.com" twoHosts) as [_ [_ [_ [_ [H _]]]]].
    apply (H [ EvProbe 0 0 "mx1.example.com"; EvProbe 0 1 "mx2.example.com";
               EvSleep 1000; EvProbe 1 0 "mx1.example.com" ]
             1 1%nat (mkMx "mx2.example.com" 20) []).
    + reflexivity.
    + reflexivity.
    + intros a i h Hin. simpl in Hin.
      destruct Hin as [E|[E|[E|[E|[]]]]]; inversion E; subst;
        eexists; (split; [reflexivity|]); (split; [reflexivity|]);
        vm_compute; auto.
    + vm_compute. reflexivity.
    + reflexivity.
Defined.

Example orchestrator_first_pass :
  validateSMTP retryingValidator secondHostEnv "user@example.com" twoHosts
  = (Fulfilled
       (mkCheck true "Email address accepted by SMTP server" None
          (Some ("220 mx.example.com ESMTP" ++ LF ++ "250 mx.example.com" ++ LF
                 ++ "250 2.1.0 Ok" ++ LF ++ "250 2.1.5 Ok"))),
     [ EvProbe 0 0 "mx1.example.com"; EvProbe 0 1 "mx2.example.com";
       EvSleep 1000;
       EvProbe 1 0 "mx1.example.com"; EvProbe 1 1 "mx2.example.com" ]).
Proof. vm_compute. reflexivity. Qed.

(** ** White space around the address *)

Lemma trimStart_leading s :
  s = leading s ++ JsString.trimStart s /\ allWhiteSpace (leading s) = true.
Proof.
  induction s as [|c r [IH1 IH2]]; simpl; [auto|].
  destruct (JsString.isWhiteSpace c) eqn:W; simpl.
  - rewrite W, IH2. split; [now rewrite <- IH1 | reflexivity].
  - auto.
Qed.

Lemma trimEnd_trailing s :
  s = JsString.trimEnd s ++ trailing s /\ allWhiteSpace (trailing s) = true.
Proof.
  induction s as [|c r [IH1 IH2]]; simpl; [auto|].
  destruct (JsString.isWhiteSpace c && JsString.isEmpty (JsString.trimEnd r))
    eqn:E; simpl.
  - split; [reflexivity|].
    apply andb_true_iff in E as [W Em]. apply isEmpty_true in Em.
    rewrite Em in IH1. simpl in IH1. rewrite W. simpl.
    now rewrite IH1.
  - split; [now rewrite <- IH1 | exact IH2].
Qed.

Lemma trimEnd_idempotent s :
  JsString.trimEnd (JsString.trimEnd s) = JsString.trimEnd s.
Proof.
  induction s as [|c r IH]; simpl; [reflexivity|].
  destruct (JsString.isWhiteSpace c && JsString.isEmpty (JsString.trimEnd r))
    eqn:E; simpl; [reflexivity|].
  now rewrite IH, E.
Qed.

Lemma trimStart_clean s : startsClean (JsString.trimStart s).
Proof.
  induction s as [|c r IH]; simpl; [exact I|].
  destruct (JsString.isWhiteSpace c) eqn:W; simpl; assumption.
Qed.

Lemma trimEnd_clean s : startsClean s -> startsClean (JsString.trimEnd s).
Proof.
  destruct s as [|c r]; simpl; [auto|]. intros W. rewrite W. simpl. exact W.
Qed.

Lemma trimStart_of_clean s : startsClean s -> JsString.trimStart s = s.
Proof. destruct s as [|c r]; simpl; [auto|]. now intros ->. Qed.

Lemma trim_idempotent s : JsString.trim (JsString.trim s) = JsString.trim s.
Proof.
  unfold JsString.trim.
  rewrite (trimStart_of_clean (JsString.trimEnd (JsString.trimStart s))).
  - apply trimEnd_idempotent.
  - apply trimEnd_clean, trimStart_clean.
Qed.

Lemma trim_decomposition s :
  s = leading s ++ JsString.trim s ++ trailing (JsString.trimStart s).
Proof.
  unfold JsString.trim.
  rewrite <- (proj1 (trimEnd_trailing (JsString.trimStart s))).
  apply trimStart_leading.
Qed.

Lemma allWhiteSpace_no_at s :
  allWhiteSpace s = true -> JsString.countAt s = 0%nat.
Proof.
  induction s as [|c r IH]; simpl; [reflexivity|].
  intros H. apply andb_true_iff in H as [W A].
  rewrite (whiteSpace_not_at c W). auto.
Qed.

Lemma split_nonempty s : JsString.split s <> [].
Proof.
  pose proof (split_length s). destruct (JsString.split s); simpl in *;
    [discriminate|discriminate].
Qed.

Lemma split_no_at s : JsString.countAt s = 0%nat -> JsString.split s = [s].
Proof.
  induction s as [|c r IH]; simpl; [reflexivity|].
  destruct (JsString.isAt c); [discriminate|].
  intros H. now rewrite (IH H).
Qed.

Lemma split_app_left pre x :
  JsString.countAt pre = 0%nat ->
  JsString.split (pre ++ x)
  = match JsString.split x with
    | h :: t => (pre ++ h) :: t
    | [] => []
    end.
Proof.
  induction pre as [|c p IH]; simpl.
  - intros _. destruct (JsString.split x) eqn:E; [|reflexivity].
    now apply split_nonempty in E.
  - destruct (JsString.isAt c); [discriminate|].
    intros H. rewrite (IH H).
    destruct (JsString.split x) eqn:E; [|reflexivity].
    now apply split_nonempty in E.
Qed.

Lemma split_app_right post x :
  JsString.countAt post = 0%nat ->
  JsString.split (x ++ post) = appLast post (JsString.split x).
Proof.
  intros Hp. induction x as [|c r IH]; simpl.
  - now apply split_no_at.
  - destruct (JsString.isAt c).
    + rewrite IH. destruct (JsString.split r) eqn:E; [|reflexivity].
      now apply split_nonempty in E.
    + rewrite IH. destruct (JsString.split r) as [|h [|h' t]] eqn:E.
      * now apply split_nonempty in E.
      * reflexivity.
      * reflexivity.
Qed.

Lemma parseEmail_padded pre core post lp dom :
  allWhiteSpace pre = true -> allWhiteSpace post = true ->
  JsString.split core = [lp; dom] ->
  parseEmail (pre ++ core ++ post) = (Some (pre ++ lp), Some (dom ++ post)).
Proof.
  intros Hpre Hpost Hs. unfold parseEmail.
  rewrite split_app_left by now apply allWhiteSpace_no_at.
  rewrite split_app_right by now apply allWhiteSpace_no_at.
  rewrite Hs. reflexivity.
Qed.

Lemma append_empty_r s : s ++ EmptyString = s.
Proof. induction s as [|c r IH]; simpl; [reflexivity|now rewrite IH]. Qed.

(** C9.  Let [s] be a string that [trim] changes and whose trimmed form
    passes the syntax check.  Then the syntax check of [s] is that of its
    trimmed form and passes; [s] is its trimmed form between white space
    [pre] and [post], not both empty; [parseEmail] splits [s] itself, so the
    local part keeps [pre] and the domain keeps [post]; [validateDomain] is
    called with that domain, and every later stage is called with that
    domain, that local part, or [s] itself. *)
Theorem padded_address_keeps_whitespace v env s :
  JsString.trim s <> s ->
  passed (validateSyntax (VString (JsString.trim s))) = true ->
  validateSyntax (VString s) = validateSyntax (VString (JsString.trim s))
  /\ exists pre post lp dom,
       s = pre ++ JsString.trim s ++ post
       /\ allWhiteSpace pre = true
       /\ allWhiteSpace post = true
       /\ (pre <> EmptyString \/ post <> EmptyString)
       /\ parseEmail (JsString.trim s) = (Some lp, Some dom)
       /\ parseEmail s = (Some (pre ++ lp), Some (dom ++ post))
       /\ exists later,
            stagesOf v env (VString s)
            = CallValidateSyntax (VString s)
                :: CallValidateDomain (Some (dom ++ post)) :: later
            /\ Forall
                 (fun ev =>
                    ev = CallValidateMX (Some (dom ++ post))
                    \/ (exists recs, ev = CallValidateSMTP s recs)
                    \/ ev = CallCheckDisposable (Some (dom ++ post))
                    \/ ev = CallCheckRoleBased (Some (pre ++ lp)))
                 later.
Proof.
  intros Hchg Hpass.
  assert (Hs : validateSyntax (VString s)
               = validateSyntax (VString (JsString.trim s))).
  { destruct (JsString.trim s) as [|c t] eqn:Et; [discriminate Hpass|].
    destruct s as [|c0 s0]; [discriminate Et|].
    rewrite <- Et. unfold validateSyntax. rewrite trim_idempotent.
    rewrite Et. reflexivity. }
  split; [exact Hs|].
  destruct (validateSyntax_passed _ Hpass) as [raw [Eraw C]].
  inversion Eraw; subst raw; clear Eraw.
  destruct (parseEmail_one_at _ C) as [lp [dom [Sp P]]].
  pose proof (trim_decomposition s) as D.
  destruct (trimStart_leading s) as [_ Wpre].
  destruct (trimEnd_trailing (JsString.trimStart s)) as [_ Wpost].
  set (pre := leading s) in *.
  set (post := trailing (JsString.trimStart s)) in *.
  assert (Ps : parseEmail s = (Some (pre ++ lp), Some (dom ++ post))).
  { rewrite D at 1. now apply parseEmail_padded. }
  exists pre, post, lp, dom.
  split; [exact D|]. split; [exact Wpre|]. split; [exact Wpost|].
  split.
  { destruct pre; [|left; discriminate].
    destruct post; [|right; discriminate].
    exfalso. apply Hchg. simpl in D. now rewrite append_empty_r in D. }
  split; [exact P|]. split; [exact Ps|].
  rewrite <- Hs in Hpass.
  destruct (validateEmail_string v env s) as [st [_ [T HP]]].
  rewrite T.
  destruct HP as [thrown shown Hthrown Hshown| Hf | raw lp' dom' dr Hi Hp' | raw lp' dom' dr mr Hi Hp'
                 | raw lp' dom' dr mr sr recs Hi Hp'];
    try discriminate; try congruence;
    inversion Hi; subst raw; rewrite Ps in Hp'; inversion Hp'; subst lp' dom';
    cbn [stages]; eexists; (split; [reflexivity|]);
    repeat (first [apply Forall_nil | apply Forall_cons]); eauto 7.
Qed.

Lemma padded_address_keeps_whitespace_witness :
  validateSyntax (VString "  admin@example.com ")
  = validateSyntax (VString "admin@example.com")
  /\ parseEmail "  admin@example.com " = (Some "  admin", Some "example.com ")
  /\ stagesOf defaultValidator (sampleEnv "250 2.1.5 Ok")
       (VString "  admin@example.com ")
     = [ CallValidateSyntax (VString "  admin@example.com ");
         CallValidateDomain (Some "example.com ");
         CallValidateMX (Some "example.com ");
         CallValidateSMTP "  admin@example.com "
           (Some [mkMx "mx1.example.com" 10; mkMx "mx2.example.com" 20]);
         CallCheckDisposable (Some "example.com ");
         CallCheckRoleBased (Some "  admin") ].
Proof.
  destruct (padded_address_keeps_whitespace defaultValidator
              (sampleEnv "250 2.1.5 Ok") "  admin@example.com ")
    as [Hs _].
  - vm_compute. discriminate.
  - vm_compute. reflexivity.
  - split; [exact Hs|]. vm_compute. split; reflexivity.
Defined.

(** ** Scenarios *)

Example scenario_not_an_email :
  validateEmail defaultValidator nxdomainEnv (VString "not-an-email")
  = Returned
      {| email := VString "not-an-email";
         isValid := false;
         checks :=
           {| syntax := check false "Email must contain exactly one @ symbol";
              domain := check false EmptyString;
              mx := mkCheck false EmptyString (Some []) None;
              smtp := mkCheck false EmptyString None (Some EmptyString);
              disposable := check true EmptyString;
              roleBased := check true EmptyString |};
         executionTime := 12;
         timestamp := "2024-01-01T00:00:00.000Z" |}
  /\ stagesOf defaultValidator nxdomainEnv (VString "not-an-email")
     = [CallValidateSyntax (VString "not-an-email")].
Proof. vm_compute. split; reflexivity. Qed.

Example scenario_unresolvable_domain :
  passed (syntax (checks unresolvedReport)) = true
  /\ domain (checks unresolvedReport)
     = check false "Domain lookup failed: ENOTFOUND"
  /\ isValid unresolvedReport = false
  /\ stagesOf defaultValidator nxdomainEnv
       (VString "user@nonexistent-domain-example-zz.test")
     = [ CallValidateSyntax (VString "user@nonexistent-domain-example-zz.test");
         CallValidateDomain (Some "nonexistent-domain-example-zz.test") ].
Proof. vm_compute. repeat split. Qed.

Example scenario_disposable_accepted :
  isValid sampleReport = true
  /\ disposable (checks sampleReport)
     = check false "Domain is a known disposable email provider".
Proof. vm_compute. split; reflexivity. Qed.

Example scenario_case_insensitive :
  checkDisposable defaultValidator "MAILINATOR.COM"
  = checkDisposable defaultValidator "mailinator.com".
Proof. vm_compute. reflexivity. Qed.

(** The timer of the SMTP stage fires first: the smtp check is the time-out
    check and the heuristics still run. *)
Example scenario_smtp_timeout :
  exists r,
    validateEmail defaultValidator slowSmtpEnv sampleInput = Returned r
    /\ smtp (checks r)
       = mkCheck false "SMTP validation timeout" (Some []) None
    /\ disposable (checks r)
       = check false "Domain is a known disposable email provider"
    /\ isValid r = false.
Proof. eexists. vm_compute. repeat split. Qed.

(** A probe that never settles keeps [validateSMTP] waiting at the first
    host; [withTimeout] ends the stage. *)
Example scenario_probe_hangs :
  validateSMTP defaultValidator closingEnv "user@example.com" twoHosts
  = (Pending, [EvProbe 0 0 "mx1.example.com"])
  /\ exists r,
       validateEmail defaultValidator closingEnv (VString "user@example.com")
       = Returned r
       /\ smtp (checks r)
          = mkCheck false "SMTP validation timeout" (Some []) None.
Proof. split; [vm_compute; reflexivity|]. eexists. vm_compute. split; reflexivity. Qed.

(** * Further properties *)

(** ** The matcher accepts only strings of the pattern *)

Lemma nullable_sound r : Regex.nullable r = true -> Matches r EmptyString.
Proof.
  induction r; simpl; intros H; try discriminate.
  - constructor.
  - apply andb_true_iff in H as [H1 H2].
    change EmptyString with (EmptyString ++ EmptyString). constructor; auto.
  - apply orb_true_iff in H as [H|H]; [apply MAltL|apply MAltR]; auto.
  - constructor.
Qed.

Lemma matches_void s : ~ Matches Regex.Void s.
Proof. intros H. inversion H. Qed.

Lemma matches_eps s : Matches Regex.Eps s -> s = EmptyString.
Proof. intros H. now inversion H. Qed.

Lemma cat_sound a b s :
  Matches (Regex.cat a b) s -> Matches (Regex.Cat a b) s.
Proof.
  assert (L : Matches b s -> Matches (Regex.Cat Regex.Eps b) s).
  { intros H. change s with (EmptyString ++ s). constructor; [constructor|exact H]. }
  assert (R : Matches a s -> Matches (Regex.Cat a Regex.Eps) s).
  { intros H. rewrite <- (append_empty_r s). constructor; [exact H|constructor]. }
  destruct a; destruct b; simpl; intros H;
    try (exfalso; exact (matches_void _ H));
    try exact H; try (apply L; exact H); try (apply R; exact H).
Qed.

Lemma alt_sound a b s :
  Matches (Regex.alt a b) s -> Matches (Regex.Alt a b) s.
Proof.
  destruct a; destruct b; simpl; intros H;
    try exact H;
    try (apply MAltR; exact H); try (apply MAltL; exact H).
Qed.

Lemma deriv_sound r :
  forall c s, Matches (Regex.deriv c r) s -> Matches r (String c s).
Proof.
  induction r as [| |p|r1 IH1 r2 IH2|r1 IH1 r2 IH2|r1 IH1]; intros c s; simpl.
  - intros H. inversion H.
  - intros H. inversion H.
  - destruct (p c) eqn:E; intros H; [|inversion H].
    apply matches_eps in H. subst. now constructor.
  - assert (Left : Matches (Regex.cat (Regex.deriv c r1) r2) s ->
                   Matches (Regex.Cat r1 r2) (String c s)).
    { intros H. apply cat_sound in H. inversion H; subst.
      change (String c (s1 ++ s2)) with (String c s1 ++ s2).
      constructor; auto. }
    destruct (Regex.nullable r1) eqn:N; [|exact Left].
    intros H. apply alt_sound in H. inversion H; subst; [now apply Left|].
    change (String c s) with (EmptyString ++ String c s).
    constructor; [now apply nullable_sound | auto].
  - intros H. apply alt_sound in H.
    inversion H; subst; [apply MAltL|apply MAltR]; auto.
  - intros H. apply cat_sound in H. inversion H; subst.
    change (String c (s1 ++ s2)) with (String c s1 ++ s2).
    constructor; auto.
Qed.

Lemma test_sound s : forall r, Regex.test r s = true -> Matches r s.
Proof.
  induction s as [|c s IH]; intros r; simpl.
  - apply nullable_sound.
  - intros H. apply deriv_sound. now apply IH.
Qed.

(** ** Strings, continued *)

Lemma append_assoc_s (a b c : string) : (a ++ b) ++ c = a ++ b ++ c.
Proof. induction a as [|x a IH]; simpl; [reflexivity|now rewrite IH]. Qed.

Lemma length_append_s (a b : string) :
  String.length (a ++ b) = (String.length a + String.length b)%nat.
Proof. induction a as [|x a IH]; simpl; [reflexivity|now rewrite IH]. Qed.

Lemma allChars_app p a b :
  allChars p (a ++ b) = allChars p a && allChars p b.
Proof.
  induction a as [|x a IH]; simpl; [reflexivity|].
  now rewrite IH, andb_assoc.
Qed.

Lemma allChars_weaken (p q : ascii -> bool) s :
  (forall c, p c = true -> q c = true) ->
  allChars p s = true -> allChars q s = true.
Proof.
  intros W. induction s as [|c r IH]; simpl; [reflexivity|].
  intros H. apply andb_true_iff in H as [H1 H2].
  now rewrite (W c H1), IH.
Qed.

Lemma lastChar_app (a b : string) :
  b <> EmptyString -> lastChar (a ++ b) = lastChar b.
Proof.
  intros Hb. induction a as [|x a IH]; simpl; [reflexivity|].
  rewrite IH. destruct (a ++ b) eqn:E; [|reflexivity].
  destruct a; simpl in E; [congruence|discriminate].
Qed.

Lemma rev_nonempty c r : JsString.rev (String c r) <> EmptyString.
Proof. simpl. destruct (JsString.rev r); simpl; discriminate. Qed.

Lemma firstChar_app (a b : string) :
  a <> EmptyString -> firstChar (a ++ b) = firstChar a.
Proof. destruct a; simpl; [congruence|reflexivity]. Qed.

Lemma firstChar_rev s : firstChar (JsString.rev s) = lastChar s.
Proof.
  induction s as [|c r IH]; simpl; [reflexivity|].
  destruct r as [|d r'].
  - reflexivity.
  - rewrite firstChar_app by apply rev_nonempty. exact IH.
Qed.

Lemma prefix_single c s :
  String.prefix (String c EmptyString) s = true -> firstChar s = Some c.
Proof.
  destruct s as [|d r]; simpl; [discriminate|].
  destruct (ascii_dec c d); [now subst|discriminate].
Qed.

Lemma startsWith_single c s :
  JsString.startsWith (String c EmptyString) s = true -> firstChar s = Some c.
Proof. apply prefix_single. Qed.

Lemma endsWith_single c s :
  JsString.endsWith (String c EmptyString) s = true -> lastChar s = Some c.
Proof.
  unfold JsString.endsWith. simpl. intros H.
  apply prefix_single in H. now rewrite firstChar_rev in H.
Qed.

Lemma countAt_app a b :
  JsString.countAt (a ++ b) = (JsString.countAt a + JsString.countAt b)%nat.
Proof.
  induction a as [|x a IH]; simpl; [reflexivity|].
  destruct (JsString.isAt x); simpl; now rewrite IH.
Qed.

Lemma allChars_no_at p s :
  (forall c, p c = true -> JsString.isAt c = false) ->
  allChars p s = true -> JsString.countAt s = 0%nat.
Proof.
  intros W. induction s as [|c r IH]; simpl; [reflexivity|].
  intros H. apply andb_true_iff in H as [H1 H2].
  now rewrite (W c H1), IH.
Qed.

Lemma localChar_not_at c : isLocalChar c = true -> JsString.isAt c = false.
Proof. destruct c as [[] [] [] [] [] [] [] []]; vm_compute; congruence. Qed.

Lemma domainChar_not_at c : isDomainChar c = true -> JsString.isAt c = false.
Proof. destruct c as [[] [] [] [] [] [] [] []]; vm_compute; congruence. Qed.

Lemma localChar_not_space c :
  isLocalChar c = true -> JsString.isWhiteSpace c = false.
Proof. destruct c as [[] [] [] [] [] [] [] []]; vm_compute; congruence. Qed.

Lemma domainChar_not_space c :
  isDomainChar c = true -> JsString.isWhiteSpace c = false.
Proof. destruct c as [[] [] [] [] [] [] [] []]; vm_compute; congruence. Qed.

Lemma alnum_not_hyphen c : isAlnum c = true -> c <> "-"%char.
Proof. intros H ->. vm_compute in H. discriminate. Qed.

Lemma alnum_alnumHyphen c : isAlnum c = true -> isAlnumHyphen c = true.
Proof. unfold isAlnumHyphen. now intros ->. Qed.

Lemma alnumHyphen_domainChar c : isAlnumHyphen c = true -> isDomainChar c = true.
Proof. unfold isDomainChar. now intros ->. Qed.

(** ** What the pattern of [validateSyntax] admits *)

Lemma matches_class p s :
  Matches (Regex.Class p) s -> exists c, s = String c EmptyString /\ p c = true.
Proof. intros H. inversion H; subst. eauto. Qed.

Lemma matches_cat r1 r2 s :
  Matches (Regex.Cat r1 r2) s ->
  exists s1 s2, s = s1 ++ s2 /\ Matches r1 s1 /\ Matches r2 s2.
Proof. intros H. inversion H; subst. eauto. Qed.

Lemma matches_alt r1 r2 s :
  Matches (Regex.Alt r1 r2) s -> Matches r1 s \/ Matches r2 s.
Proof. intros H. inversion H; subst; auto. Qed.

Lemma matches_star_class p s :
  Matches (Regex.Star (Regex.Class p)) s -> allChars p s = true.
Proof.
  intros H. remember (Regex.Star (Regex.Class p)) as r eqn:E.
  induction H; inversion E; subst.
  - reflexivity.
  - apply matches_class in H as [c [-> Hc]]. simpl. rewrite Hc. auto.
Qed.

Lemma matches_upto_class p n :
  forall s,
    Matches (Regex.UpTo n (Regex.Class p)) s ->
    allChars p s = true /\ (String.length s <= n)%nat.
Proof.
  induction n as [|n IH]; intros s H; simpl in H.
  - apply matches_eps in H. subst. auto.
  - apply matches_alt in H as [H|H].
    + apply matches_eps in H. subst. simpl. split; [reflexivity|lia].
    + apply matches_cat in H as [s1 [s2 [-> [H1 H2]]]].
      apply matches_class in H1 as [c [-> Hc]].
      destruct (IH _ H2) as [A L]. simpl. rewrite Hc, A. split; [reflexivity|lia].
Qed.

Lemma matches_label l :
  Matches labelRegex l ->
  allChars isAlnumHyphen l = true
  /\ holds isAlnum (firstChar l)
  /\ holds isAlnum (lastChar l)
  /\ (1 <= String.length l <= 63)%nat.
Proof.
  unfold labelRegex, Regex.Opt. intros H.
  apply matches_cat in H as [s1 [s2 [-> [H1 H2]]]].
  apply matches_class in H1 as [c [-> Hc]].
  apply matches_alt in H2 as [H2|H2].
  - apply matches_eps in H2. subst. simpl.
    rewrite (alnum_alnumHyphen c Hc). repeat split; auto; lia.
  - apply matches_cat in H2 as [m [e [-> [Hm He]]]].
    apply matches_class in He as [d [-> Hd]].
    apply matches_upto_class in Hm as [Am Lm].
    simpl. rewrite (alnum_alnumHyphen c Hc), allChars_app, Am. simpl.
    rewrite (alnum_alnumHyphen d Hd). simpl.
    repeat split; auto.
    + change (holds isAlnum (lastChar (String c (m ++ String d EmptyString)))).
      change (String c (m ++ String d EmptyString))
        with (String c m ++ String d EmptyString).
      rewrite lastChar_app by discriminate. exact Hd.
    + lia.
    + rewrite length_append_s. simpl. lia.
Qed.

Lemma matches_more_labels t :
  Matches (Regex.Star (Regex.Cat (Regex.Lit ".") labelRegex)) t ->
  allChars isDomainChar t = true
  /\ (t = EmptyString \/ holds isAlnum (lastChar t)).
Proof.
  intros H.
  remember (Regex.Star (Regex.Cat (Regex.Lit ".") labelRegex)) as r eqn:E.
  induction H; inversion E; subst.
  - auto.
  - clear IHMatches1. destruct (IHMatches2 eq_refl) as [A2 L2].
    apply matches_cat in H as [d [l [-> [Hd Hl]]]].
    apply matches_class in Hd as [c [-> Hc]].
    apply Ascii.eqb_eq in Hc. subst c.
    destruct (matches_label l Hl) as [Al [Fl [Ll Len]]].
    split.
    + rewrite allChars_app, A2. simpl.
      rewrite (allChars_weaken _ _ l alnumHyphen_domainChar Al). reflexivity.
    + right. destruct L2 as [->|L2].
      * rewrite append_empty_r.
        change (String "." EmptyString ++ l) with (String "." EmptyString ++ l).
        rewrite lastChar_app; [exact Ll|].
        destruct l; [simpl in Len; lia|discriminate].
      * rewrite lastChar_app; [exact L2|].
        destruct s2; [contradiction|discriminate].
Qed.

Lemma matches_email s :
  Matches emailRegex s ->
  exists lp dom,
    s = lp ++ String "@" dom
    /\ lp <> EmptyString
    /\ allChars isLocalChar lp = true
    /\ allChars isDomainChar dom = true
    /\ holds isAlnum (firstChar dom)
    /\ holds isAlnum (lastChar dom).
Proof.
  unfold emailRegex, Regex.Plus. intros H.
  apply matches_cat in H as [lp [rest [-> [Hlp Hrest]]]].
  apply matches_cat in Hlp as [l1 [l2 [-> [Hl1 Hl2]]]].
  apply matches_class in Hl1 as [c [-> Hc]].
  apply matches_star_class in Hl2.
  apply matches_cat in Hrest as [a [dom [-> [Ha Hdom]]]].
  apply matches_class in Ha as [x [-> Hx]].
  apply Ascii.eqb_eq in Hx. subst x.
  apply matches_cat in Hdom as [l [t [-> [Hl Ht]]]].
  destruct (matches_label l Hl) as [Al [Fl [Ll Len]]].
  destruct (matches_more_labels t Ht) as [At Lt].
  exists (String c l2), (l ++ t). simpl.
  repeat split.
  - discriminate.
  - now rewrite Hc, Hl2.
  - rewrite allChars_app, At.
    now rewrite (allChars_weaken _ _ l alnumHyphen_domainChar Al).
  - rewrite firstChar_app; [exact Fl|].
    destruct l; [simpl in Len; lia|discriminate].
  - destruct Lt as [->|Lt].
    + now rewrite append_empty_r.
    + rewrite lastChar_app; [exact Lt|].
      destruct t; [contradiction|discriminate].
Qed.

Lemma split_at_parts a b :
  JsString.countAt a = 0%nat -> JsString.countAt b = 0%nat ->
  JsString.split (a ++ String "@" b) = [a; b].
Proof.
  intros Ha Hb. rewrite (split_app_left a _ Ha). simpl.
  now rewrite (split_no_at b Hb), append_empty_r.
Qed.

Lemma firstChar_startsWith c s :
  firstChar s = Some c -> JsString.startsWith (String c EmptyString) s = true.
Proof.
  destruct s as [|d r]; simpl; [discriminate|].
  intros H. inversion H; subst.
  destruct (ascii_dec c c); [destruct r; reflexivity|congruence].
Qed.

Lemma lastChar_endsWith c s :
  lastChar s = Some c -> JsString.endsWith (String c EmptyString) s = true.
Proof.
  unfold JsString.endsWith. simpl. rewrite <- firstChar_rev.
  apply firstChar_startsWith.
Qed.

(** The pattern, read on the two parts that [split] gives. *)
Lemma emailRegex_parts s lp dom :
  Regex.test emailRegex s = true ->
  destructure2 (JsString.split s) = (lp, dom) ->
  exists l d,
    lp = Some l /\ dom = Some d /\ s = l ++ String "@" d
    /\ JsString.split s = [l; d]
    /\ l <> EmptyString
    /\ allChars isLocalChar l = true
    /\ allChars isDomainChar d = true
    /\ holds isAlnum (firstChar d)
    /\ holds isAlnum (lastChar d).
Proof.
  intros T D. apply test_sound, matches_email in T.
  destruct T as [l [d [-> [Hne [Al [Ad [Fd Ld]]]]]]].
  pose proof (split_at_parts l d
                (allChars_no_at _ _ localChar_not_at Al)
                (allChars_no_at _ _ domainChar_not_at Ad)) as S.
  rewrite S in D. unfold destructure2 in D. simpl in D.
  inversion D; subst. exists l, d. repeat split; auto.
Qed.

Lemma holds_alnum_not_hyphen o : holds isAlnum o -> o <> Some "-"%char.
Proof.
  destruct o as [c|]; simpl; [|contradiction].
  intros H E. inversion E; subst. now apply (alnum_not_hyphen _ H).
Qed.

(** ** Accepted addresses *)

Lemma validateSyntax_shape input :
  passed (validateSyntax input) = true ->
  exists raw lp dom,
    input = VString raw
    /\ JsString.trim raw = lp ++ String "@" dom
    /\ parseEmail (JsString.trim raw) = (Some lp, Some dom)
    /\ (1 <= String.length lp <= 64)%nat
    /\ (1 <= String.length dom <= 253)%nat
    /\ allChars isLocalChar lp = true
    /\ allChars isDomainChar dom = true
    /\ firstChar lp <> Some "."%char
    /\ lastChar lp <> Some "."%char
    /\ JsString.includes ".." lp = false
    /\ holds isAlnum (firstChar dom)
    /\ holds isAlnum (lastChar dom).
Proof.
  destruct input as [raw| | |]; unfold validateSyntax; cbv zeta;
    try (cbn [passed message check]; discriminate).
  destruct (JsString.isEmpty raw); [cbn [passed message check]; discriminate|].
  destruct (negb (JsString.countAt (JsString.trim raw) =? 1)%nat);
    [cbn [passed message check]; discriminate|].
  destruct (destructure2 (JsString.split (JsString.trim raw)))
    as [olp odom] eqn:D.
  destruct (badLength olp 64) eqn:B1; [cbn [passed message check]; discriminate|].
  destruct (badLength odom 253) eqn:B2; [cbn [passed message check]; discriminate|].
  destruct (negb (Regex.test emailRegex (JsString.trim raw))) eqn:T;
    [cbn [passed message check]; discriminate|].
  apply negb_false_iff in T.
  destruct (emailRegex_parts _ _ _ T D)
    as [l [d [-> [-> [E [S [Hne [Al [Ad [Fd Ld]]]]]]]]]].
  cbn [strOf].
  destruct (JsString.startsWith "." l || JsString.endsWith "." l) eqn:P;
    [cbn [passed message check]; discriminate|].
  destruct (JsString.includes ".." l) eqn:I; [cbn [passed message check]; discriminate|].
  intros _. exists raw, l, d.
  apply orb_false_iff in P as [P1 P2].
  simpl in B1, B2.
  apply orb_false_iff in B1 as [B1 L1]. apply orb_false_iff in B1 as [_ N1].
  apply orb_false_iff in B2 as [B2 L2]. apply orb_false_iff in B2 as [_ N2].
  apply Nat.eqb_neq in N1, N2. apply Nat.ltb_ge in L1, L2.
  repeat split; auto; try lia.
  - intros F. apply firstChar_startsWith in F. congruence.
  - intros F. apply lastChar_endsWith in F. congruence.
Qed.

(** X2.  [validateSyntax] never answers "Domain cannot start or end with a
    hyphen": an address that reaches that test has passed the pattern, whose
    domain begins and ends with a letter or a digit.  An address with such a
    hyphen gets the message of the pattern instead. *)
Theorem hyphen_rule_never_fires input :
  message (validateSyntax input) <> "Domain cannot start or end with a hyphen".
Proof.
  destruct input as [raw| | |]; unfold validateSyntax; cbv zeta;
    try (cbn [passed message check]; discriminate).
  destruct (JsString.isEmpty raw); [cbn [passed message check]; discriminate|].
  destruct (negb (JsString.countAt (JsString.trim raw) =? 1)%nat);
    [cbn [passed message check]; discriminate|].
  destruct (destructure2 (JsString.split (JsString.trim raw)))
    as [olp odom] eqn:D.
  destruct (badLength olp 64); [cbn [passed message check]; discriminate|].
  destruct (badLength odom 253); [cbn [passed message check]; discriminate|].
  destruct (negb (Regex.test emailRegex (JsString.trim raw))) eqn:T;
    [cbn [passed message check]; discriminate|].
  apply negb_false_iff in T.
  destruct (emailRegex_parts _ _ _ T D)
    as [l [d [-> [-> [E [S [Hne [Al [Ad [Fd Ld]]]]]]]]]].
  cbn [strOf].
  destruct (JsString.startsWith "." l || JsString.endsWith "." l);
    [cbn [passed message check]; discriminate|].
  destruct (JsString.includes ".." l); [cbn [passed message check]; discriminate|].
  destruct (JsString.startsWith "-" d || JsString.endsWith "-" d) eqn:Hy;
    [|cbn [passed message check]; discriminate].
  exfalso. apply orb_true_iff in Hy as [Hy|Hy].
  - apply startsWith_single in Hy. now apply (holds_alnum_not_hyphen _ Fd).
  - apply endsWith_single in Hy. now apply (holds_alnum_not_hyphen _ Ld).
Qed.

Example hyphen_gets_pattern_message :
  validateSyntax (VString "user@example-.com")
  = check false "Email format is invalid according to RFC 5322"
  /\ validateSyntax (VString "user@example.com-")
     = check false "Email format is invalid according to RFC 5322"
  /\ validateSyntax (VString "user@-example.com")
     = check false "Email format is invalid according to RFC 5322".
Proof. vm_compute. repeat split. Qed.

(** ** Sessions, continued *)

Lemma runSession_from v env rcpt events :
  runSession v env rcpt events = sessionFrom v env rcpt newSession events.
Proof. reflexivity. Qed.

Lemma newSession_open : OpenAt 0 newSession.
Proof. repeat split. Qed.

(** Once a session is over, nothing changes what was settled or sent. *)
Lemma handleEvent_over v env rcpt ev s :
  Over s ->
  Over (handleEvent v env rcpt ev s)
  /\ s_settled (handleEvent v env rcpt ev s) = s_settled s
  /\ s_sent (handleEvent v env rcpt ev s) = s_sent s.
Proof.
  intros [D W]. destruct ev; simpl; rewrite ?D, ?W; try (repeat split; assumption).
  unfold Over, cleanup, clearWatchdog, socketDestroy. cbn. rewrite D. cbn.
  repeat split; assumption.
Qed.

Lemma fold_over v env rcpt events :
  forall s,
    Over s ->
    let s' := fold_left (fun s ev => handleEvent v env rcpt ev s) events s in
    Over s' /\ s_settled s' = s_settled s /\ s_sent s' = s_sent s.
Proof.
  induction events as [|ev rest IH]; intros s O; simpl; [auto|].
  destruct (handleEvent_over v env rcpt ev s O) as [O' [E1 E2]].
  destruct (IH _ O') as [O'' [E1' E2']].
  repeat split; try apply O''; congruence.
Qed.

Lemma sessionFrom_over v env rcpt s events :
  Over s ->
  s_settled (sessionFrom v env rcpt s events) = s_settled s
  /\ s_sent (sessionFrom v env rcpt s events) = s_sent s.
Proof.
  intros O. unfold sessionFrom.
  destruct (fold_over v env rcpt events s O) as [O' [E1 E2]].
  destruct (handleEvent_over v env rcpt Watchdog _ O') as [_ [E1' E2']].
  split; congruence.
Qed.

Lemma sessionFrom_cons v env rcpt s ev events :
  sessionFrom v env rcpt s (ev :: events)
  = sessionFrom v env rcpt (handleEvent v env rcpt ev s) events.
Proof. reflexivity. Qed.

Lemma isCode_iff code n : isCode code n = true <-> code = Some n.
Proof.
  unfold isCode. destruct code as [c|].
  - rewrite Z.eqb_eq. split; congruence.
  - split; discriminate.
Qed.

Lemma cleanup_over s : Over (cleanup s).
Proof.
  unfold Over, cleanup, clearWatchdog, socketDestroy. cbn.
  destruct (s_destroyed s) eqn:E; cbn; auto.
Qed.

Lemma cleanup_settled s : s_settled (cleanup s) = s_settled s.
Proof.
  unfold cleanup, clearWatchdog, socketDestroy. cbn.
  destruct (s_destroyed s); reflexivity.
Qed.

Lemma settle_over o s : Over s -> Over (settle o s).
Proof. unfold Over, settle. destruct (s_settled s); auto. Qed.

Lemma settle_open o s :
  s_settled s = None -> s_settled (settle o s) = Some o.
Proof. unfold settle. now intros ->. Qed.

(** A chunk that does not carry the awaited code, in steps 0 to 2, ends the
    session with a failed result. *)
Lemma data_wrong_code v env rcpt k d s :
  OpenAt k s -> (k < 3)%nat ->
  replyCode d <> Some (if (k =? 0)%nat then 220 else 250) ->
  Over (handleEvent v env rcpt (Data d) s)
  /\ exists r, s_settled (handleEvent v env rcpt (Data d) s) = Some (inl r)
               /\ passed r = false
               /\ s_sent (handleEvent v env rcpt (Data d) s) = s_sent s.
Proof.
  intros [Hk [Hd [Hw Hs]]] Lt Hc. simpl. rewrite Hd.
  unfold onData. cbn [setResponse s_step]. rewrite Hk.
  fold (replyCode d).
  assert (F : forall n, replyCode d <> Some n -> isCode (replyCode d) n = false).
  { intros n N. destruct (isCode (replyCode d) n) eqn:E; [|reflexivity].
    apply isCode_iff in E. contradiction. }
  destruct k as [|[|[|k]]]; try lia; simpl in Hc; rewrite (F _ Hc);
    unfold resolve;
    (split; [apply settle_over, cleanup_over|]);
    eexists; (split; [apply settle_open; rewrite cleanup_settled; exact Hs|]);
    (split; [reflexivity|]);
    now rewrite settle_sent, cleanup_sent.
Qed.

(** A chunk that carries the awaited code, in steps 0 to 2, sends the next
    command and moves to the next step. *)
Lemma data_right_code v env rcpt k d s :
  OpenAt k s -> (k < 3)%nat ->
  replyCode d = Some (if (k =? 0)%nat then 220 else 250) ->
  OpenAt (S k) (handleEvent v env rcpt (Data d) s)
  /\ s_sent (handleEvent v env rcpt (Data d) s)
     = (s_sent s ++ [nth k (commands v env rcpt) EmptyString])%list
  /\ s_response (handleEvent v env rcpt (Data d) s)
     = s_response s ++ JsString.trim d ++ LF.
Proof.
  intros [Hk [Hd [Hw Hs]]] Lt Hc. simpl. rewrite Hd.
  unfold onData. cbn [setResponse s_step]. rewrite Hk.
  fold (replyCode d). rewrite Hc.
  destruct k as [|[|[|k]]]; try lia; simpl;
    unfold OpenAt, stepIncr, socketWrite; cbn; rewrite Hd; cbn;
    rewrite Hk; repeat split; auto.
Qed.

(** In step 3 every chunk ends the session with a result, which passes
    exactly when the code is 250. *)
Lemma data_step3 v env rcpt d s :
  OpenAt 3 s ->
  Over (handleEvent v env rcpt (Data d) s)
  /\ s_sent (handleEvent v env rcpt (Data d) s) = s_sent s
  /\ exists r, s_settled (handleEvent v env rcpt (Data d) s) = Some (inl r)
               /\ (passed r = true <-> replyCode d = Some 250)
               /\ response r
                  = Some (JsString.trim (s_response s ++ JsString.trim d ++ LF)).
Proof.
  intros [Hk [Hd [Hw Hs]]]. simpl. rewrite Hd.
  unfold onData. cbn [setResponse s_step]. rewrite Hk.
  fold (replyCode d).
  set (s0 := setResponse _ s).
  set (s1 := socketWrite _ (cleanup s0)).
  assert (O1 : Over s1).
  { unfold s1, socketWrite. rewrite cleanup_destroyed.
    pose proof (cleanup_over s0) as [A B]. split; cbn; auto. }
  assert (S1 : s_settled s1 = None).
  { unfold s1, socketWrite. rewrite cleanup_destroyed. cbn.
    now rewrite cleanup_settled. }
  assert (T1 : s_sent s1 = s_sent s).
  { unfold s1. rewrite socketWrite_destroyed_sent by apply cleanup_destroyed.
    now rewrite cleanup_sent. }
  assert (R1 : s_response s1 = s_response s ++ JsString.trim d ++ LF).
  { unfold s1, socketWrite. rewrite cleanup_destroyed. cbn.
    unfold cleanup, clearWatchdog, socketDestroy. cbn.
    destruct (s_destroyed s); reflexivity. }
  unfold resolve.
  destruct (isCode (replyCode d) 250) eqn:E250.
  { split; [now apply settle_over|]. split; [now rewrite settle_sent|].
    eexists. split; [now apply settle_open|]. apply isCode_iff in E250.
    cbn. rewrite R1. repeat split; auto. }
  assert (N : replyCode d <> Some 250).
  { intros C. apply isCode_iff in C. congruence. }
  repeat match goal with
         | |- context [if ?b then _ else _] => destruct b
         end;
    (split; [now apply settle_over|]); (split; [now rewrite settle_sent|]);
    eexists; (split; [now apply settle_open|]);
    cbn; rewrite R1; (split; [split; [discriminate|contradiction]|reflexivity]).
Qed.

(** Any other event on an open session ends it with no result: a rejection,
    or nothing at all for ['close']. *)
Lemma other_event v env rcpt k ev s :
  OpenAt k s ->
  (forall d, ev <> Data d) ->
  Over (handleEvent v env rcpt ev s)
  /\ s_sent (handleEvent v env rcpt ev s) = s_sent s
  /\ (forall r, s_settled (handleEvent v env rcpt ev s) <> Some (inl r))
  /\ (s_settled (handleEvent v env rcpt ev s) = None <-> ev = Close).
Proof.
  intros [Hk [Hd [Hw Hs]]] N.
  destruct ev as [d| |e| |]; simpl; rewrite ?Hd, ?Hw.
  - now destruct (N d).
  - unfold reject. split; [apply settle_over, cleanup_over|].
    rewrite settle_sent, cleanup_sent, settle_open by now rewrite cleanup_settled.
    repeat split; try discriminate.
  - unfold reject. split; [apply settle_over, cleanup_over|].
    rewrite settle_sent, cleanup_sent, settle_open by now rewrite cleanup_settled.
    repeat split; try discriminate.
  - split; [apply cleanup_over|]. rewrite cleanup_sent, cleanup_settled, Hs.
    repeat split; try discriminate.
  - unfold reject. rewrite settle_sent, settle_open by exact Hs.
    repeat split; try discriminate;
      unfold settle; cbn; rewrite Hs; reflexivity.
Qed.

Lemma option_eq_dec_Z (a b : option Z) : {a = b} + {a <> b}.
Proof. decide equality. apply Z.eq_dec. Defined.

(** What one event does to an open session. *)
Lemma step_cases v env rcpt k ev s :
  OpenAt k s -> (k <= 3)%nat ->
  (ev = Close
   /\ Over (handleEvent v env rcpt ev s)
   /\ s_settled (handleEvent v env rcpt ev s) = None
   /\ s_sent (handleEvent v env rcpt ev s) = s_sent s)
  \/ (exists d,
        ev = Data d /\ replyCode d = Some (awaited k) /\ (k < 3)%nat
        /\ OpenAt (S k) (handleEvent v env rcpt ev s)
        /\ s_sent (handleEvent v env rcpt ev s)
           = (s_sent s ++ [nth k (commands v env rcpt) EmptyString])%list)
  \/ (exists d r,
        ev = Data d /\ replyCode d = Some 250 /\ k = 3%nat
        /\ Over (handleEvent v env rcpt ev s)
        /\ s_settled (handleEvent v env rcpt ev s) = Some (inl r)
        /\ passed r = true
        /\ s_sent (handleEvent v env rcpt ev s) = s_sent s)
  \/ (ev <> Close
      /\ (forall d, ev = Data d -> replyCode d <> Some (awaited k))
      /\ Over (handleEvent v env rcpt ev s)
      /\ s_sent (handleEvent v env rcpt ev s) = s_sent s
      /\ exists o,
           s_settled (handleEvent v env rcpt ev s) = Some o
           /\ forall r, o = inl r -> passed r = false).
Proof.
  intros Ho Hk.
  assert (Fail :
    forall ev',
      ev' <> Close ->
      (forall d, ev' = Data d -> replyCode d <> Some (awaited k)) ->
      Over (handleEvent v env rcpt ev' s) ->
      s_sent (handleEvent v env rcpt ev' s) = s_sent s ->
      (exists o, s_settled (handleEvent v env rcpt ev' s) = Some o
                 /\ forall r, o = inl r -> passed r = false) ->
      ev' <> Close
      /\ (forall d, ev' = Data d -> replyCode d <> Some (awaited k))
      /\ Over (handleEvent v env rcpt ev' s)
      /\ s_sent (handleEvent v env rcpt ev' s) = s_sent s
      /\ exists o,
           s_settled (handleEvent v env rcpt ev' s) = Some o
           /\ forall r, o = inl r -> passed r = false) by auto.
  assert (Other :
    forall ev',
      ev' <> Close -> (forall d, ev' <> Data d) ->
      ev' <> Close
      /\ (forall d, ev' = Data d -> replyCode d <> Some (awaited k))
      /\ Over (handleEvent v env rcpt ev' s)
      /\ s_sent (handleEvent v env rcpt ev' s) = s_sent s
      /\ exists o,
           s_settled (handleEvent v env rcpt ev' s) = Some o
           /\ forall r, o = inl r -> passed r = false).
  { intros ev' NC ND.
    destruct (other_event v env rcpt k ev' s Ho ND) as [O [T [NR C]]].
    apply Fail; auto.
    - intros d E. now destruct (ND d).
    - destruct (s_settled (handleEvent v env rcpt ev' s)) as [o|] eqn:E.
      + exists o. split; [reflexivity|]. intros r ->. now destruct (NR r).
      + exfalso. apply NC. now apply C. }
  destruct ev as [d| |e| |].
  - destruct (Nat.eq_dec k 3) as [->|Hn].
    + destruct (data_step3 v env rcpt d s Ho) as [O [T [r [S [P _]]]]].
      destruct (passed r) eqn:Pr.
      * right. right. left. exists d, r.
        split; [reflexivity|]. split; [now apply P|]. auto.
      * right. right. right. apply Fail; auto.
        -- discriminate.
        -- intros d' E C. inversion E; subst d'.
           change (awaited 3) with 250 in C. apply P in C. congruence.
        -- exists (inl r). split; [exact S|]. intros r' E. inversion E; subst; assumption.
    + assert (Lt : (k < 3)%nat) by lia.
      destruct (option_eq_dec_Z (replyCode d) (Some (awaited k))) as [E|N].
      * right. left. exists d.
        destruct (data_right_code v env rcpt k d s Ho Lt E) as [O [T _]].
        auto.
      * right. right. right.
        destruct (data_wrong_code v env rcpt k d s Ho Lt N) as [O [r [S [P T]]]].
        apply Fail; auto.
        -- discriminate.
        -- intros d' E. now inversion E; subst.
        -- exists (inl r). split; [exact S|]. intros r' E. inversion E; subst; assumption.
  - right. right. right. apply Other; discriminate.
  - right. right. right. apply Other; discriminate.
  - left. destruct (other_event v env rcpt k Close s Ho ltac:(discriminate))
      as [O [T [NR C]]].
    split; [reflexivity|]. split; [exact O|]. split; [now apply C|exact T].
  - right. right. right. apply Other; discriminate.
Qed.

Lemma codes_from k :
  (k <= 3)%nat ->
  skipn k [220; 250; 250; 250] = awaited k :: skipn (S k) [220; 250; 250; 250].
Proof. intros H. destruct k as [|[|[|[|k]]]]; try lia; reflexivity. Qed.

Lemma commands_upto v env rcpt k :
  (k < 3)%nat ->
  (firstn k (commands v env rcpt) ++ [nth k (commands v env rcpt) EmptyString])%list
  = firstn (S k) (commands v env rcpt).
Proof. intros H. destruct k as [|[|[|k]]]; try lia; reflexivity. Qed.

Lemma accept_from v env rcpt :
  forall events k s,
    OpenAt k s -> (k <= 3)%nat ->
    (exists r, s_settled (sessionFrom v env rcpt s events) = Some (inl r)
               /\ passed r = true)
    <-> accepted (skipn k [220; 250; 250; 250]) events.
Proof.
  induction events as [|ev rest IH]; intros k s Ho Hk; rewrite (codes_from k Hk).
  - unfold sessionFrom. cbn [fold_left].
    destruct (step_cases v env rcpt k Watchdog s Ho Hk)
      as [[C _]|[[d [C _]]|[[d [r [C _]]]|[_ [_ [_ [_ [o [S F]]]]]]]]];
      try discriminate.
    split; [|contradiction].
    intros [r [E P]]. rewrite S in E. inversion E; subst.
    rewrite (F r eq_refl) in P. discriminate.
  - rewrite sessionFrom_cons.
    destruct (step_cases v env rcpt k ev s Ho Hk)
      as [[C [O [S T]]]
         |[[d [C [Hc [Lt [O T]]]]]
          |[[d [r [C [Hc [K [O [S [P T]]]]]]]]
           |[NC [ND [O [T [o [S F]]]]]]]]].
    + subst ev. destruct (sessionFrom_over v env rcpt _ rest O) as [E _].
      rewrite E, S. simpl. split; [|contradiction].
      intros [r [H _]]. discriminate.
    + subst ev. rewrite (IH (S k) _ O Lt). simpl. tauto.
    + subst ev k. destruct (sessionFrom_over v env rcpt _ rest O) as [E _].
      rewrite E, S. simpl. split; [auto|]. intros _. eauto.
    + destruct (sessionFrom_over v env rcpt _ rest O) as [E _].
      rewrite E, S. split.
      * intros [r [H P]]. inversion H; subst.
        rewrite (F r eq_refl) in P. discriminate.
      * destruct ev as [d| | | |]; simpl; try contradiction.
        intros [Hc _]. now destruct (ND d eq_refl).
Qed.

Lemma hang_from v env rcpt :
  forall events k s,
    OpenAt k s -> (k <= 3)%nat ->
    s_settled (sessionFrom v env rcpt s events) = None
    <-> exists ds rest,
          events = (map Data ds ++ Close :: rest)%list /\ goodReplies k ds.
Proof.
  induction events as [|ev rest IH]; intros k s Ho Hk.
  - unfold sessionFrom. cbn [fold_left].
    destruct (step_cases v env rcpt k Watchdog s Ho Hk)
      as [[C _]|[[d [C _]]|[[d [r [C _]]]|[_ [_ [_ [_ [o [S F]]]]]]]]];
      try discriminate.
    rewrite S. split; [discriminate|].
    intros [ds [rest [E _]]]. destruct ds; discriminate.
  - rewrite sessionFrom_cons.
    destruct (step_cases v env rcpt k ev s Ho Hk)
      as [[C [O [S T]]]
         |[[d [C [Hc [Lt [O T]]]]]
          |[[d [r [C [Hc [K [O [S [P T]]]]]]]]
           |[NC [ND [O [T [o [S F]]]]]]]]].
    + subst ev. destruct (sessionFrom_over v env rcpt _ rest O) as [E _].
      rewrite E, S. split; [|reflexivity].
      intros _. exists [], rest. split; [reflexivity|exact I].
    + subst ev. rewrite (IH (S k) _ O Lt). split.
      * intros [ds [rest' [E G]]]. exists (d :: ds), rest'.
        split; [simpl; now rewrite E|]. simpl. auto.
      * intros [ds [rest' [E G]]]. destruct ds as [|d' ds]; [discriminate|].
        simpl in E. inversion E; subst. simpl in G.
        exists ds, rest'. split; [reflexivity|apply G].
    + subst ev k. destruct (sessionFrom_over v env rcpt _ rest O) as [E _].
      rewrite E, S. split; [discriminate|].
      intros [ds [rest' [E' G]]]. destruct ds as [|d' ds]; [discriminate|].
      simpl in G. lia.
    + destruct (sessionFrom_over v env rcpt _ rest O) as [E _].
      rewrite E, S. split; [discriminate|].
      intros [ds [rest' [E' G]]]. destruct ds as [|d' ds].
      * simpl in E'. inversion E'. contradiction.
      * simpl in E'. inversion E'; subst. simpl in G.
        destruct G as [_ [Hc _]]. now destruct (ND d' eq_refl).
Qed.

Lemma sent_from v env rcpt :
  forall events k s,
    OpenAt k s -> (k <= 3)%nat ->
    s_sent s = firstn k (commands v env rcpt) ->
    exists j, (k <= j <= 3)%nat
              /\ s_sent (sessionFrom v env rcpt s events)
                 = firstn j (commands v env rcpt).
Proof.
  induction events as [|ev rest IH]; intros k s Ho Hk Hs.
  - unfold sessionFrom. cbn [fold_left]. exists k. split; [lia|].
    destruct (step_cases v env rcpt k Watchdog s Ho Hk)
      as [[C _]|[[d [C _]]|[[d [r [C _]]]|[_ [_ [_ [T _]]]]]]];
      try discriminate.
    now rewrite T.
  - rewrite sessionFrom_cons.
    destruct (step_cases v env rcpt k ev s Ho Hk)
      as [[C [O [S T]]]
         |[[d [C [Hc [Lt [O T]]]]]
          |[[d [r [C [Hc [K [O [S [P T]]]]]]]]
           |[NC [ND [O [T _]]]]]]].
    + destruct (sessionFrom_over v env rcpt _ rest O) as [_ E].
      exists k. split; [lia|]. now rewrite E, T.
    + rewrite Hs, commands_upto in T by exact Lt.
      destruct (IH (S k) _ O Lt T) as [j [Hj E]].
      exists j. split; [lia|exact E].
    + destruct (sessionFrom_over v env rcpt _ rest O) as [_ E].
      exists k. split; [lia|]. now rewrite E, T.
    + destruct (sessionFrom_over v env rcpt _ rest O) as [_ E].
      exists k. split; [lia|]. now rewrite E, T.
Qed.

Lemma accepts_iff_accepted v env rcpt events :
  (exists r, performSMTPCheck v env rcpt events = Fulfilled r
             /\ passed r = true)
  <-> accepted [220; 250; 250; 250] events.
Proof.
  rewrite <- (accept_from v env rcpt events 0%nat newSession newSession_open
                ltac:(lia)).
  unfold performSMTPCheck, settlement. rewrite runSession_from.
  change (skipn 0 [220; 250; 250; 250]) with [220; 250; 250; 250].
  destruct (s_settled (sessionFrom v env rcpt newSession events)) as [[r|e]|].
  - split; intros [r' [E P]]; exists r'; split; auto; congruence.
  - split; intros [r' [E P]]; discriminate.
  - split; intros [r' [E P]]; discriminate.
Qed.

(** X3.  A probe reports that the address is accepted exactly when the first
    four things the socket delivers are chunks of data whose codes are 220,
    250, 250 and 250, in this order; whatever the socket does afterwards does
    not matter. *)
Theorem probe_accepts_iff v env rcpt events :
  (exists r, performSMTPCheck v env rcpt events = Fulfilled r
             /\ passed r = true)
  <-> exists d0 d1 d2 d3 rest,
        events = Data d0 :: Data d1 :: Data d2 :: Data d3 :: rest
        /\ replyCode d0 = Some 220 /\ replyCode d1 = Some 250
        /\ replyCode d2 = Some 250 /\ replyCode d3 = Some 250.
Proof.
  rewrite accepts_iff_accepted. split.
  - intros Acc.
    destruct events as [|[d0| | | |] [|[d1| | | |] [|[d2| | | |] [|[d3| | | |] rest]]]];
      simpl in Acc; try tauto.
    exists d0, d1, d2, d3, rest. tauto.
  - intros [d0 [d1 [d2 [d3 [rest [-> [C0 [C1 [C2 C3]]]]]]]]]. simpl. tauto.
Qed.

(** X4.  A probe never settles exactly when the socket reports ['close']
    while the handshake is still under way, that is after at most three
    chunks, each with the code awaited at its step.  In every other case the
    probe resolves or rejects. *)
Theorem probe_hangs_iff v env rcpt events :
  performSMTPCheck v env rcpt events = Pending
  <-> exists ds rest,
        events = (map Data ds ++ Close :: rest)%list /\ goodReplies 0 ds.
Proof.
  rewrite <- (hang_from v env rcpt events 0%nat newSession newSession_open
                ltac:(lia)).
  unfold performSMTPCheck, settlement. rewrite runSession_from.
  destruct (s_settled (sessionFrom v env rcpt newSession events)) as [[r|e]|];
    split; intros H; try discriminate; reflexivity.
Qed.

(** X5.  What a session has sent to the server when it ends is an initial
    part of HELO, MAIL FROM with the configured sender, RCPT TO with the
    probed address: the session never sends a command out of order or twice,
    and never goes on to send a message. *)
Theorem session_sends_handshake_prefix v env rcpt events :
  exists j, (j <= 3)%nat
            /\ s_sent (runSession v env rcpt events)
               = firstn j [ "HELO " ++ hostname env ++ CRLF;
                            "MAIL FROM:<" ++ fromEmail v ++ ">" ++ CRLF;
                            "RCPT TO:<" ++ rcpt ++ ">" ++ CRLF ].
Proof.
  rewrite runSession_from.
  destruct (sent_from v env rcpt events 0%nat newSession newSession_open
              ltac:(lia) eq_refl) as [j [Hj E]].
  exists j. split; [lia|exact E].
Qed.

(** ** A valid report rests on an acceptance *)

Lemma withTimeout_passed env stage p ms msg r :
  withTimeout env stage p ms msg = inl r ->
  passed r = true ->
  timerFirst env stage ms = false /\ p = Fulfilled r.
Proof.
  unfold withTimeout, race. intros H P.
  destruct (timerFirst env stage ms).
  - simpl in H. rewrite String.eqb_refl in H. inversion H; subst. discriminate.
  - split; [reflexivity|]. destruct p as [r'|e|]; simpl in H.
    + now inversion H.
    + destruct (err_message e =? msg)%string; inversion H; subst. discriminate.
    + rewrite String.eqb_refl in H. inversion H; subst. discriminate.
Qed.

Lemma validateDomain_fulfilled env d r :
  validateDomain env d = Fulfilled r -> passed r = true ->
  exists u, dnsLookup env d = Fulfilled u.
Proof.
  unfold validateDomain. destruct (dnsLookup env d) as [u|e|]; intros H P.
  - eauto.
  - inversion H; subst. discriminate.
  - discriminate.
Qed.

(** X6.  A report with [isValid = true] comes from a string address whose
    domain the resolver found, whose MX lookup returned the records of the
    report, and for which, in some round and at some host of that list, the
    server answered 220, 250, 250 and 250; the smtp check is the result of
    that probe, and in none of the three stages did the timer fire first. *)
Theorem valid_report_has_acceptance v env input r :
  validateEmail v env input = Returned r ->
  isValid r = true ->
  exists raw lp dom found a i m,
    input = VString raw
    /\ parseEmail raw = (Some lp, Some dom)
    /\ (exists u, dnsLookup env (Some dom) = Fulfilled u)
    /\ dnsResolveMx env (Some dom) = Fulfilled found
    /\ records (mx (checks r)) = Some (sortByPriority found)
    /\ 0 <= a < retryAttempts v
    /\ nth_error (sortByPriority found) i = Some m
    /\ accepted [220; 250; 250; 250] (smtpServer env a i (exchange m))
    /\ probe v env raw a i m = Fulfilled (smtp (checks r))
    /\ timerFirst env StageDomain 2000 = false
    /\ timerFirst env StageMx 2000 = false
    /\ timerFirst env StageSmtp (timeout v) = false.
Proof.
  intros H V.
  by_path v env input H; try discriminate.
  match goal with
  | Hd : withTimeout _ StageDomain _ _ _ = inl ?dr, Pd : passed ?dr = true,
    Hm : withTimeout _ StageMx _ _ _ = inl ?mr, Pm : passed ?mr = true,
    Em : validateMX _ _ = Fulfilled ?mr,
    Hs : withTimeout _ StageSmtp _ _ _ = inl ?sr |- _ =>
      destruct (withTimeout_passed _ _ _ _ _ _ Hd Pd) as [Td Fd];
      destruct (withTimeout_passed _ _ _ _ _ _ Hm Pm) as [Tm _];
      destruct (withTimeout_passed _ _ _ _ _ _ Hs V) as [Ts Fs];
      destruct (validateDomain_fulfilled _ _ _ Fd Pd) as [u Hu];
      destruct (validateMX_passed _ _ _ Em Pm) as [found [Hf [Hr _]]]
  end.
  match goal with
  | Hr' : records ?mr = Some ?recs |- _ =>
      rewrite Hr in Hr'; inversion Hr'; subst recs
  end.
  unfold validateSMTP in Fs.
  destruct (attemptLoop v env raw (sortByPriority found)
              (Z.to_nat (retryAttempts v)) 0) as [out t] eqn:E.
  simpl in Fs. subst out.
  assert (Hz : Z.to_nat (retryAttempts v) <> O ->
               retryAttempts v = 0 + Z.of_nat (Z.to_nat (retryAttempts v)))
    by lia.
  destruct (attemptLoop_trace v env raw _ _ 0 _ t Hz E)
    as [_ [[Hex _]|[pre [a [i [m [_ [Hb [Hn [Hp _]]]]]]]]]].
  - inversion Hex; subst. discriminate.
  - exists raw, lp, dom, found, a, i, m.
    repeat split; auto; try lia.
    + eauto.
    + apply (accepts_iff_accepted v env raw). unfold probe in Hp.
      rewrite <- Hp. eauto.
Qed.

Lemma valid_report_has_acceptance_witness :
  exists raw lp dom found a i m,
    sampleInput = VString raw
    /\ parseEmail raw = (Some lp, Some dom)
    /\ (exists u, dnsLookup (sampleEnv "250 2.1.5 Ok") (Some dom) = Fulfilled u)
    /\ dnsResolveMx (sampleEnv "250 2.1.5 Ok") (Some dom) = Fulfilled found
    /\ records (mx (checks sampleReport)) = Some (sortByPriority found)
    /\ 0 <= a < retryAttempts defaultValidator
    /\ nth_error (sortByPriority found) i = Some m
    /\ accepted [220; 250; 250; 250]
         (smtpServer (sampleEnv "250 2.1.5 Ok") a i (exchange m))
    /\ probe defaultValidator (sampleEnv "250 2.1.5 Ok") raw a i m
       = Fulfilled (smtp (checks sampleReport))
    /\ timerFirst (sampleEnv "250 2.1.5 Ok") StageDomain 2000 = false
    /\ timerFirst (sampleEnv "250 2.1.5 Ok") StageMx 2000 = false
    /\ timerFirst (sampleEnv "250 2.1.5 Ok") StageSmtp (timeout defaultValidator)
       = false.
Proof.
  apply (valid_report_has_acceptance defaultValidator (sampleEnv "250 2.1.5 Ok")
           sampleInput sampleReport).
  - vm_compute. reflexivity.
  - vm_compute. reflexivity.
Defined.

(** ** Batches *)

Lemma report_metadata v env input r :
  validateEmail v env input = Returned r ->
  email r = input /\ timestamp r = isoNow env
  /\ executionTime r = endTime env - startTime env.
Proof. intros H. by_path v env input H; repeat split. Qed.

Lemma validateEmail_no_rejection v env input :
  rejection input = None ->
  exists r, validateEmail v env input = Returned r.
Proof.
  intros N.
  destruct (validateEmail_cases v env input)
    as [[st [R _]]|[t [t' [T [M _]]]]]; [eauto|].
  unfold rejection in N. rewrite T, M in N. discriminate.
Qed.

Lemma validateEmail_rejection v env input t' :
  rejection input = Some t' -> validateEmail v env input = Threw t'.
Proof.
  unfold rejection. intros N.
  destruct (templateString input) as [shown|t] eqn:T; [discriminate|].
  destruct (reportedMessage t) as [m|t0] eqn:M; inversion N; subst.
  unfold validateEmail. rewrite (run_throws v env input t t' T M). reflexivity.
Qed.

Lemma strings_not_rejected raws :
  Forall (fun e => rejection e = None) (map VString raws).
Proof. induction raws; constructor; auto. Qed.

Lemma batchLoop_reports v envs :
  forall emails i acc,
    Forall (fun e => rejection e = None) emails ->
    exists rs,
      batchLoop v envs i emails acc = inl (acc ++ rs)%list
      /\ List.length rs = List.length emails
      /\ forall j e,
           nth_error emails j = Some e ->
           exists r, nth_error rs j = Some r
                     /\ validateEmail v (envs (i + j)%nat) e = Returned r.
Proof.
  induction emails as [|e rest IH]; intros i acc F; simpl.
  - exists []. rewrite app_nil_r. repeat split.
    intros j e' H. destruct j; discriminate.
  - inversion F as [|e0 rest0 He Hrest]; subst.
    destruct (validateEmail_no_rejection v (envs i) e He) as [r0 R].
    rewrite R.
    destruct (IH (S i) (acc ++ [r0])%list Hrest) as [rs [E [L N]]].
    exists (r0 :: rs). rewrite E, <- app_assoc. simpl.
    split; [reflexivity|]. split; [now rewrite L|].
    intros [|j] e' H; simpl in H.
    + inversion H; subst. exists r0. rewrite Nat.add_0_r. auto.
    + destruct (N j e' H) as [r [Hr Hv]]. exists r. split; [exact Hr|].
      now rewrite Nat.add_succ_r.
Qed.

Lemma batchLoop_rejects v envs e t' post :
  rejection e = Some t' ->
  forall pre i acc,
    Forall (fun e => rejection e = None) pre ->
    batchLoop v envs i (pre ++ e :: post)%list acc = inr t'.
Proof.
  intros He.
  induction pre as [|p pre IH]; intros i acc F; simpl.
  - now rewrite (validateEmail_rejection v (envs i) e t' He).
  - inversion F as [|p0 pre0 Hp Hpre]; subst.
    destruct (validateEmail_no_rejection v (envs i) p Hp) as [r0 R].
    rewrite R. now apply IH.
Qed.

(** X7.  When the string conversion of no address throws a value whose
    [message] the [catch] clause of [validateEmail] cannot evaluate, as is
    the case for every list of strings, [validateBatch] returns a list with
    one report per address, in the order of the addresses: the report at a
    position is the one [validateEmail] returns for the address at that
    position, and it carries that address.  At the first address of the
    other kind the loop ends: [validateBatch] throws what [validateEmail]
    throws there and the reports obtained so far are lost. *)
Theorem validateBatch_reports_in_order v envs emails :
  (Forall (fun e => rejection e = None) emails ->
   exists rs,
     validateBatch v envs emails = inl rs
     /\ List.length rs = List.length emails
     /\ forall i e,
          nth_error emails i = Some e ->
          exists r, nth_error rs i = Some r
                    /\ validateEmail v (envs i) e = Returned r
                    /\ email r = e)
  /\ (forall pre e post t',
        emails = (pre ++ e :: post)%list ->
        Forall (fun e => rejection e = None) pre ->
        rejection e = Some t' ->
        validateBatch v envs emails = inr t'
        /\ validateEmail v (envs (List.length pre)) e = Threw t')
  /\ (forall raws, emails = map VString raws ->
                   Forall (fun e => rejection e = None) emails).
Proof.
  split; [|split].
  - intros F. unfold validateBatch.
    destruct (batchLoop_reports v envs emails 0%nat [] F) as [rs [E [L N]]].
    exists rs. split; [exact E|]. split; [exact L|].
    intros i e H. destruct (N i e H) as [r [Hr Hv]].
    exists r. repeat split; auto. now apply (report_metadata v (envs i) e r).
  - intros pre e post t' -> F He. split.
    + unfold validateBatch. now apply batchLoop_rejects.
    + now apply validateEmail_rejection.
  - intros raws ->. apply strings_not_rejected.
Qed.

Lemma validateBatch_reports_in_order_witness :
  (exists rs,
     validateBatch defaultValidator (fun _ => nxdomainEnv)
       [VString "user@nowhere.test"; VSymbol] = inl rs
     /\ List.length rs = 2%nat
     /\ forall i e,
          nth_error [VString "user@nowhere.test"; VSymbol] i = Some e ->
          exists r, nth_error rs i = Some r
                    /\ validateEmail defaultValidator nxdomainEnv e = Returned r
                    /\ email r = e)
  /\ validateBatch defaultValidator (fun _ => nxdomainEnv)
       [VString "user@nowhere.test"; VThrowing ThrowNull;
        VString "second@nowhere.test"]
     = inr (ThrowError
              (Error "Cannot read properties of null (reading 'message')")).
Proof.
  split.
  - apply (validateBatch_reports_in_order defaultValidator
             (fun _ => nxdomainEnv) [VString "user@nowhere.test"; VSymbol]).
    repeat constructor.
  - apply (validateBatch_reports_in_order defaultValidator
             (fun _ => nxdomainEnv)
             [VString "user@nowhere.test"; VThrowing ThrowNull;
              VString "second@nowhere.test"])
      with (pre := [VString "user@nowhere.test"])
           (e := VThrowing ThrowNull)
           (post := [VString "second@nowhere.test"]).
    + reflexivity.
    + repeat constructor.
    + reflexivity.
Defined.

Example batch_of_three :
  match validateBatch defaultValidator
          (fun i => if (i =? 1)%nat then nxdomainEnv else sampleEnv "250 2.1.5 Ok")
          [VString "test@mailinator.com"; VString "user@nowhere.test";
           VString "not-an-email"] with
  | inl rs => map (fun r => (email r, isValid r)) rs
  | inr _ => []
  end
  = [ (VString "test@mailinator.com", true);
      (VString "user@nowhere.test", false);
      (VString "not-an-email", false) ].
Proof. vm_compute. reflexivity. Qed.

(** ** The routes *)

Lemma syntax_of_string_report v env raw r :
  validateEmail v env (VString raw) = Returned r ->
  syntax (checks r) = validateSyntax (VString raw).
Proof.
  intros H. by_path v env (VString raw) H; try reflexivity. discriminate.
Qed.

(** The stage calls for an address that [trim] leaves unchanged. *)
Lemma stages_of_trimmed v env t :
  JsString.trim t = t ->
  passed (validateSyntax (VString t)) = true ->
  exists lp dom,
    t = lp ++ String "@" dom
    /\ allChars isLocalChar lp = true
    /\ allChars isDomainChar dom = true
    /\ exists later,
         stagesOf v env (VString t)
         = CallValidateSyntax (VString t)
             :: CallValidateDomain (Some dom) :: later
         /\ Forall
              (fun ev =>
                 ev = CallValidateMX (Some dom)
                 \/ (exists recs, ev = CallValidateSMTP t recs)
                 \/ ev = CallCheckDisposable (Some dom)
                 \/ ev = CallCheckRoleBased (Some lp))
              later.
Proof.
  intros Ht Hp.
  destruct (validateSyntax_shape _ Hp)
    as [raw [lp [dom [E [Hs [Pe [_ [_ [Al [Ad _]]]]]]]]]].
  inversion E; subst raw; clear E. rewrite Ht in Hs, Pe.
  exists lp, dom. repeat split; auto.
  destruct (validateEmail_string v env t) as [st [_ [T HP]]].
  rewrite T.
  destruct HP as [thrown shown Hthrown Hshown| Hf | raw lp' dom' dr Hi Hp' | raw lp' dom' dr mr Hi Hp'
                 | raw lp' dom' dr mr sr recs Hi Hp'];
    try discriminate; try congruence;
    inversion Hi; subst raw; rewrite Pe in Hp'; inversion Hp'; subst lp' dom';
    cbn [stages]; eexists; (split; [reflexivity|]);
    repeat (first [apply Forall_nil | apply Forall_cons]); eauto 7.
Qed.

(** X8.  For a non-empty string in the body, [POST /api/validate] answers
    with the report of [validateEmail] for the trimmed string, never with an
    error.  When that report's syntax check passed, the trimmed string is a
    local part, the separator and a domain without any white space, and the
    stages after the syntax check are called with exactly these parts. *)
Theorem apiValidate_reports_trimmed env s :
  s <> EmptyString ->
  exists r,
    apiValidate env (BString s) = JsonReport r
    /\ validateEmail serverValidator env (VString (JsString.trim s)) = Returned r
    /\ email r = VString (JsString.trim s)
    /\ (passed (syntax (checks r)) = true ->
        exists lp dom,
          JsString.trim s = lp ++ String "@" dom
          /\ allChars isLocalChar lp = true
          /\ allChars isDomainChar dom = true
          /\ exists later,
               stagesOf serverValidator env (VString (JsString.trim s))
               = CallValidateSyntax (VString (JsString.trim s))
                   :: CallValidateDomain (Some dom) :: later
               /\ Forall
                    (fun ev =>
                       ev = CallValidateMX (Some dom)
                       \/ (exists recs,
                             ev = CallValidateSMTP (JsString.trim s) recs)
                       \/ ev = CallCheckDisposable (Some dom)
                       \/ ev = CallCheckRoleBased (Some lp))
                    later).
Proof.
  intros Hne.
  destruct (validateEmail_string serverValidator env
              (JsString.trim s)) as [st [R _]].
  exists (result st). unfold apiValidate.
  destruct s as [|c s']; [congruence|]. cbn [JsString.isEmpty]. rewrite R.
  split; [reflexivity|]. split; [reflexivity|].
  split; [now apply (report_metadata _ _ _ _ R)|].
  intros P. rewrite (syntax_of_string_report _ _ _ _ R) in P.
  apply stages_of_trimmed; [apply trim_idempotent|exact P].
Qed.

Lemma apiValidate_reports_trimmed_witness :
  exists r,
    apiValidate (sampleEnv "250 2.1.5 Ok") (BString "  admin@example.com ")
    = JsonReport r
    /\ validateEmail serverValidator (sampleEnv "250 2.1.5 Ok")
         (VString (JsString.trim "  admin@example.com ")) = Returned r
    /\ email r = VString (JsString.trim "  admin@example.com ")
    /\ (passed (syntax (checks r)) = true ->
        exists lp dom,
          JsString.trim "  admin@example.com " = lp ++ String "@" dom
          /\ allChars isLocalChar lp = true
          /\ allChars isDomainChar dom = true
          /\ exists later,
               stagesOf serverValidator (sampleEnv "250 2.1.5 Ok")
                 (VString (JsString.trim "  admin@example.com "))
               = CallValidateSyntax (VString (JsString.trim "  admin@example.com "))
                   :: CallValidateDomain (Some dom) :: later
               /\ Forall
                    (fun ev =>
                       ev = CallValidateMX (Some dom)
                       \/ (exists recs,
                             ev = CallValidateSMTP
                                    (JsString.trim "  admin@example.com ") recs)
                       \/ ev = CallCheckDisposable (Some dom)
                       \/ ev = CallCheckRoleBased (Some lp))
                    later).
Proof.
  apply (apiValidate_reports_trimmed (sampleEnv "250 2.1.5 Ok")
           "  admin@example.com ").
  discriminate.
Defined.

Example api_flags_role_address :
  match apiValidate (sampleEnv "250 2.1.5 Ok") (BString "  admin@example.com ") with
  | JsonReport r => Some (roleBased (checks r))
  | _ => None
  end
  = Some (check false "Email appears to be role-based (non-personal)").
Proof. vm_compute. reflexivity. Qed.

Lemma batchLoop_emails v envs :
  forall emails i acc,
    Forall (fun e => rejection e = None) emails ->
    exists rs,
      batchLoop v envs i emails acc = inl (acc ++ rs)%list
      /\ map email rs = emails.
Proof.
  induction emails as [|e rest IH]; intros i acc F; simpl.
  - exists []. now rewrite app_nil_r.
  - inversion F as [|e0 rest0 He Hrest]; subst.
    destruct (validateEmail_no_rejection v (envs i) e He) as [r0 R].
    rewrite R.
    destruct (IH (S i) (acc ++ [r0])%list Hrest) as [rs [E M]].
    exists (r0 :: rs). rewrite E, <- app_assoc. simpl.
    split; [reflexivity|].
    now rewrite M, (proj1 (report_metadata _ _ _ _ R)).
Qed.

(** X9.  For a non-empty string in the body, [POST /validate-batch] answers
    with a list of reports, never with an error: one report for each entry
    between commas that is not blank, in order, carrying the entry with its
    surrounding white space removed. *)
Theorem validateBatchRoute_reports_entries envs s :
  s <> EmptyString ->
  exists rs,
    validateBatchRoute envs (BString s) = JsonResults rs
    /\ map email rs
       = map VString
           (filter (fun e => negb (JsString.isEmpty e))
              (map JsString.trim (splitBy "," s)))
    /\ Forall (fun r => exists e, email r = VString e /\ e <> EmptyString
                                  /\ JsString.trim e = e) rs.
Proof.
  intros Hne. unfold validateBatchRoute, validateBatch.
  destruct s as [|c s']; [congruence|]. cbn [JsString.isEmpty].
  destruct (batchLoop_emails serverValidator envs
              (map VString (emailList (String c s'))) 0%nat []
              (strings_not_rejected _)) as [rs [E M]].
  rewrite E. simpl. exists rs. split; [reflexivity|]. split; [exact M|].
  assert (F : Forall (fun x => exists e, x = VString e /\ e <> EmptyString
                                         /\ JsString.trim e = e)
                (map email rs)).
  { rewrite M. unfold emailList. apply Forall_forall. intros x Hx.
    apply in_map_iff in Hx as [e [<- He]].
    apply filter_In in He as [Hin Hn].
    apply in_map_iff in Hin as [e0 [<- _]].
    exists (JsString.trim e0). split; [reflexivity|]. split.
    - intros C. rewrite C in Hn. discriminate.
    - apply trim_idempotent. }
  clear - F. induction rs as [|r rs IH]; [constructor|].
  inversion F; subst. constructor; auto.
Qed.

Lemma validateBatchRoute_reports_entries_witness :
  exists rs,
    validateBatchRoute (fun _ => nxdomainEnv) (BString " a@b.example , ,x@y.example")
    = JsonResults rs
    /\ map email rs
       = map VString
           (filter (fun e => negb (JsString.isEmpty e))
              (map JsString.trim (splitBy "," " a@b.example , ,x@y.example")))
    /\ Forall (fun r => exists e, email r = VString e /\ e <> EmptyString
                                  /\ JsString.trim e = e) rs.
Proof.
  apply (validateBatchRoute_reports_entries (fun _ => nxdomainEnv)
           " a@b.example , ,x@y.example").
  discriminate.
Defined.

Example batch_route_entries :
  emailList " a@b.example , ,x@y.example" = ["a@b.example"; "x@y.example"].
Proof. vm_compute. reflexivity. Qed.

(** ** Heuristics on untrimmed parts *)

Lemma split_two_join s a b :
  JsString.split s = [a; b] -> s = a ++ String "@" b.
Proof.
  revert a b. induction s as [|c r IH]; intros a b; simpl.
  - discriminate.
  - destruct (JsString.isAt c) eqn:A.
    + intros H. inversion H as [[Ha Hb]]. subst a.
      apply Ascii.eqb_eq in A. subst c. simpl.
      pose proof (split_length r) as L. rewrite Hb in L. simpl in L.
      assert (C : JsString.countAt r = 0%nat) by lia.
      rewrite (split_no_at r C) in Hb. now inversion Hb.
    + destruct (JsString.split r) as [|h t] eqn:E.
      * now apply split_nonempty in E.
      * intros H. inversion H; subst. simpl. now rewrite (IH h b eq_refl).
Qed.

Lemma lowerChar_space c :
  JsString.isWhiteSpace c = true -> JsString.lowerChar c = c.
Proof. destruct c as [[] [] [] [] [] [] [] []]; vm_compute; congruence. Qed.

Lemma lastChar_toLowerCase s :
  lastChar (JsString.toLowerCase s) = option_map JsString.lowerChar (lastChar s).
Proof.
  induction s as [|c r IH]; simpl; [reflexivity|].
  destruct r as [|d r']; [reflexivity|]. exact IH.
Qed.

Lemma firstChar_toLowerCase s :
  firstChar (JsString.toLowerCase s)
  = option_map JsString.lowerChar (firstChar s).
Proof. destruct s; reflexivity. Qed.

Lemma endsInSpace_toLowerCase s :
  endsInSpace s = true -> endsInSpace (JsString.toLowerCase s) = true.
Proof.
  unfold endsInSpace. rewrite lastChar_toLowerCase.
  destruct (lastChar s) as [c|]; simpl; [|discriminate].
  intros W. now rewrite (lowerChar_space c W).
Qed.

Lemma beginsWithSpace_toLowerCase s :
  beginsWithSpace s = true -> beginsWithSpace (JsString.toLowerCase s) = true.
Proof.
  unfold beginsWithSpace. rewrite firstChar_toLowerCase.
  destruct (firstChar s) as [c|]; simpl; [|discriminate].
  intros W. now rewrite (lowerChar_space c W).
Qed.

Lemma setHas_In set x : setHas set x = true -> In x set.
Proof.
  unfold setHas. intros H. apply existsb_exists in H as [y [Hy E]].
  apply String.eqb_eq in E. now subst.
Qed.

Lemma setHas_none (p : string -> bool) set x :
  forallb (fun y => negb (p y)) set = true ->
  p x = true -> setHas set x = false.
Proof.
  intros F P. destruct (setHas set x) eqn:E; [|reflexivity].
  apply setHas_In in E. rewrite forallb_forall in F.
  specialize (F x E). rewrite P in F. discriminate.
Qed.

Lemma checkDisposable_padded o d :
  endsInSpace d = true ->
  checkDisposable (newEmailValidator o) d
  = check true "Domain is not a disposable email provider".
Proof.
  intros H. unfold checkDisposable.
  rewrite (setHas_none endsInSpace); [reflexivity| |].
  - vm_compute. reflexivity.
  - now apply endsInSpace_toLowerCase.
Qed.

Lemma checkRoleBased_padded o l :
  beginsWithSpace l = true ->
  checkRoleBased (newEmailValidator o) l
  = check true "Email appears to be personal (not role-based)".
Proof.
  intros H. unfold checkRoleBased.
  rewrite (setHas_none beginsWithSpace); [reflexivity| |].
  - vm_compute. reflexivity.
  - now apply beginsWithSpace_toLowerCase.
Qed.

Lemma endsInSpace_domain s a b :
  s = a ++ String "@" b -> endsInSpace s = true -> endsInSpace b = true.
Proof.
  intros -> H. unfold endsInSpace in *.
  rewrite lastChar_app in H by discriminate.
  destruct b as [|c r]; [simpl in H; vm_compute in H; discriminate|].
  exact H.
Qed.

Lemma beginsWithSpace_local s a b :
  s = a ++ String "@" b -> beginsWithSpace s = true -> beginsWithSpace a = true.
Proof.
  intros -> H. unfold beginsWithSpace in *.
  destruct a as [|c r]; [simpl in H; vm_compute in H; discriminate|].
  exact H.
Qed.

(** X10.  With a validator built by the constructor, a report for a string
    that ends with white space never flags the domain as disposable, and a
    report for a string that begins with white space never flags the local
    part as role-based: the lists are searched for the untrimmed part. *)
Theorem padding_hides_from_heuristics o env s r :
  validateEmail (newEmailValidator o) env (VString s) = Returned r ->
  (endsInSpace s = true -> passed (disposable (checks r)) = true)
  /\ (beginsWithSpace s = true -> passed (roleBased (checks r)) = true).
Proof.
  intros H.
  destruct (validateEmail_string (newEmailValidator o) env s)
    as [st [R [_ HP]]].
  rewrite R in H. inversion H; subst r; clear H.
  destruct HP as [thrown shown Hthrown Hshown| Hf | raw lp dom dr Hi Hp | raw lp dom dr mr Hi Hp
                 | raw lp dom dr mr sr recs Hi Hp];
    try (split; reflexivity).
  inversion Hi; subst raw.
  unfold parseEmail, destructure2 in Hp.
  destruct (JsString.split s) as [|a [|b [|c l]]] eqn:E;
    simpl in Hp; inversion Hp; subst.
  - pose proof (split_two_join s _ _ E) as J.
    cbn [result checks setExecutionTime setIsValid setRoleBased setDisposable
         setChecks disposable roleBased].
    split; intros W.
    + rewrite checkDisposable_padded; [reflexivity|].
      eapply endsInSpace_domain; eassumption.
    + rewrite checkRoleBased_padded; [reflexivity|].
      eapply beginsWithSpace_local; eassumption.
  - exfalso. pose proof (split_length s) as L. rewrite E in L.
    match goal with
    | P : passed (validateSyntax (VString s)) = true |- _ =>
        destruct (validateSyntax_passed _ P) as [raw [Er C]];
        inversion Er; subst raw; rewrite C in L; simpl in L; lia
    end.
Qed.

Lemma padding_hides_from_heuristics_witness :
  passed (disposable (checks paddedReport)) = true
  /\ passed (roleBased (checks paddedReport)) = true.
Proof.
  destruct (padding_hides_from_heuristics (mkOptions None None None None)
              (sampleEnv "250 2.1.5 Ok") " admin@mailinator.com " paddedReport)
    as [D R].
  - vm_compute. reflexivity.
  - split; [apply D|apply R]; vm_compute; reflexivity.
Defined.

Example trimmed_address_is_flagged :
  let r := reportOf (validateEmail defaultValidator (sampleEnv "250 2.1.5 Ok")
                       (VString "admin@mailinator.com"))
             (initialReport (sampleEnv "250 2.1.5 Ok")
                (VString "admin@mailinator.com")) in
  passed (disposable (checks r)) = false /\ passed (roleBased (checks r)) = false.
Proof. vm_compute. split; reflexivity. Qed.

(** ** The matcher accepts every string of the pattern *)

Lemma append_is_empty (a b : string) :
  a ++ b = EmptyString -> a = EmptyString /\ b = EmptyString.
Proof. destruct a; simpl; [auto|discriminate]. Qed.

Lemma nullable_complete r s :
  Matches r s -> s = EmptyString -> Regex.nullable r = true.
Proof.
  induction 1; intros E; simpl; try reflexivity; try discriminate.
  - apply append_is_empty in E as [E1 E2]. now rewrite IHMatches1, IHMatches2.
  - now rewrite IHMatches.
  - rewrite IHMatches by assumption. apply orb_true_r.
Qed.

Lemma cat_complete a b s :
  Matches (Regex.Cat a b) s -> Matches (Regex.cat a b) s.
Proof.
  intros H. apply matches_cat in H as [s1 [s2 [-> [Ha Hb]]]].
  destruct a; destruct b; simpl;
    try (exfalso; eapply matches_void; eassumption);
    try (apply matches_eps in Ha; subst; exact Hb);
    try (apply matches_eps in Hb; subst; rewrite append_empty_r; exact Ha);
    now constructor.
Qed.

Lemma alt_complete a b s :
  Matches (Regex.Alt a b) s -> Matches (Regex.alt a b) s.
Proof.
  intros H. apply matches_alt in H.
  destruct a; destruct b; simpl; destruct H as [H|H];
    try (exfalso; eapply matches_void; eassumption);
    try exact H;
    try (now apply MAltL); try (now apply MAltR).
Qed.

Lemma deriv_complete r s0 :
  Matches r s0 -> forall c s, s0 = String c s -> Matches (Regex.deriv c r) s.
Proof.
  induction 1 as [|p c' Hp|r1 r2 s1 s2 H1 IH1 H2 IH2|r1 r2 s' H1 IH1
                 |r1 r2 s' H2 IH2|r1|r1 s1 s2 H1 IH1 H2 IH2];
    intros c s E; simpl.
  - discriminate.
  - inversion E; subst. rewrite Hp. constructor.
  - destruct s1 as [|x s1'].
    + simpl in E. rewrite (nullable_complete _ _ H1 eq_refl).
      apply alt_complete, MAltR. now apply IH2.
    + simpl in E. inversion E; subst.
      assert (L : Matches (Regex.cat (Regex.deriv c r1) r2) (s1' ++ s2)).
      { apply cat_complete. constructor; [now apply IH1|exact H2]. }
      destruct (Regex.nullable r1); [|exact L].
      now apply alt_complete, MAltL.
  - apply alt_complete, MAltL. now apply IH1.
  - apply alt_complete, MAltR. now apply IH2.
  - discriminate.
  - destruct s1 as [|x s1'].
    + simpl in E. now apply IH2.
    + simpl in E. inversion E; subst.
      apply cat_complete. constructor; [now apply IH1|exact H2].
Qed.

Lemma test_complete s : forall r, Matches r s -> Regex.test r s = true.
Proof.
  induction s as [|c s IH]; intros r H; simpl.
  - now apply (nullable_complete r EmptyString).
  - apply IH. now apply (deriv_complete r (String c s)).
Qed.

(** [test] decides the pattern. *)
Lemma test_iff r s : Regex.test r s = true <-> Matches r s.
Proof. split; [apply test_sound|apply test_complete]. Qed.

(** ** Labels and domains *)

Lemma string_snoc s :
  s <> EmptyString ->
  exists init d, s = init ++ String d EmptyString /\ lastChar s = Some d.
Proof.
  induction s as [|c r IH]; intros H; [congruence|].
  destruct r as [|c' r'].
  - exists EmptyString, c. auto.
  - destruct IH as [init [d [E L]]]; [discriminate|].
    exists (String c init), d. simpl. split; [now rewrite <- E|exact L].
Qed.

Lemma matches_upto_intro p n :
  forall s,
    allChars p s = true -> (String.length s <= n)%nat ->
    Matches (Regex.UpTo n (Regex.Class p)) s.
Proof.
  induction n as [|n IH]; intros s A L; simpl.
  - destruct s; [constructor|simpl in L; lia].
  - destruct s as [|c r]; [apply MAltL; constructor|].
    simpl in A. apply andb_true_iff in A as [Hc Hr]. simpl in L.
    apply MAltR. change (String c r) with (String c EmptyString ++ r).
    constructor; [now constructor|apply IH; [exact Hr|lia]].
Qed.

Lemma label_matches l : isLabel l -> Matches labelRegex l.
Proof.
  intros [[L1 L2] [A [F La]]]. unfold labelRegex, Regex.Opt.
  destruct l as [|c r]; [simpl in L1; lia|].
  simpl in F. change (String c r) with (String c EmptyString ++ r).
  constructor; [now constructor|].
  destruct r as [|c' r'].
  - apply MAltL. constructor.
  - apply MAltR.
    destruct (string_snoc (String c' r') ltac:(discriminate)) as [m [d [E Ld]]].
    assert (Hl : lastChar (String c (String c' r')) = Some d) by exact Ld.
    rewrite Hl in La. simpl in La.
    rewrite E. constructor; [|now constructor].
    simpl in A. apply andb_true_iff in A as [_ A].
    change (isAlnumHyphen c' && allChars isAlnumHyphen r')
      with (allChars isAlnumHyphen (String c' r')) in A.
    rewrite E, allChars_app in A. apply andb_true_iff in A as [Am _].
    apply matches_upto_intro; [exact Am|].
    assert (Len : String.length (String c' r') = (String.length m + 1)%nat).
    { rewrite E, length_append_s. reflexivity. }
    simpl in L2, Len. lia.
Qed.

Lemma dotted_matches labels :
  Forall isLabel labels ->
  Matches (Regex.Star (Regex.Cat (Regex.Lit ".") labelRegex)) (dotted labels).
Proof.
  induction 1 as [|l rest Hl _ IH]; simpl; [constructor|].
  change (String "." (l ++ dotted rest))
    with ((String "." EmptyString ++ l) ++ dotted rest).
  - constructor; [|exact IH].
    constructor; [constructor; apply Ascii.eqb_refl|now apply label_matches].
Qed.

Lemma matches_dotted t :
  Matches (Regex.Star (Regex.Cat (Regex.Lit ".") labelRegex)) t ->
  exists labels, t = dotted labels /\ Forall isLabel labels.
Proof.
  intros H.
  remember (Regex.Star (Regex.Cat (Regex.Lit ".") labelRegex)) as r eqn:E.
  induction H; inversion E; subst.
  - exists []. split; [reflexivity|constructor].
  - clear IHMatches1. destruct (IHMatches2 eq_refl) as [ls [-> F]].
    apply matches_cat in H as [d [l [-> [Hd Hl]]]].
    apply matches_class in Hd as [c [-> Hc]].
    apply Ascii.eqb_eq in Hc. subst c.
    exists (l :: ls). split; [reflexivity|].
    constructor; [|exact F].
    destruct (matches_label l Hl) as [A [Fl [Ll Len]]].
    repeat split; auto; lia.
Qed.

Lemma domain_matches_iff d :
  Matches domainRegex d
  <-> exists labels, labels <> [] /\ d = joinDots labels /\ Forall isLabel labels.
Proof.
  unfold domainRegex. split.
  - intros H. apply matches_cat in H as [l [t [-> [Hl Ht]]]].
    destruct (matches_dotted t Ht) as [ls [-> F]].
    exists (l :: ls). split; [discriminate|]. split; [reflexivity|].
    constructor; [|exact F].
    destruct (matches_label l Hl) as [A [Fl [Ll Len]]].
    repeat split; auto; lia.
  - intros [[|l ls] [Hne [-> F]]]; [congruence|].
    inversion F; subst. simpl.
    constructor; [now apply label_matches|now apply dotted_matches].
Qed.

Lemma email_matches_iff s :
  Matches emailRegex s
  <-> exists lp labels,
        s = lp ++ String "@" (joinDots labels)
        /\ lp <> EmptyString /\ allChars isLocalChar lp = true
        /\ labels <> [] /\ Forall isLabel labels.
Proof.
  change emailRegex
    with (Regex.Cat (Regex.Plus (Regex.Class isLocalChar))
            (Regex.Cat (Regex.Lit "@") domainRegex)).
  unfold Regex.Plus. split.
  - intros H. apply matches_cat in H as [lp [rest [-> [Hlp Hrest]]]].
    apply matches_cat in Hlp as [l1 [l2 [-> [Hl1 Hl2]]]].
    apply matches_class in Hl1 as [c [-> Hc]].
    apply matches_star_class in Hl2.
    apply matches_cat in Hrest as [a [dom [-> [Ha Hdom]]]].
    apply matches_class in Ha as [x [-> Hx]].
    apply Ascii.eqb_eq in Hx. subst x.
    apply domain_matches_iff in Hdom as [labels [Hne [-> F]]].
    exists (String c l2), labels. simpl. rewrite Hc, Hl2.
    repeat split; auto. discriminate.
  - intros [lp [labels [-> [Hne [Al [Hl F]]]]]].
    constructor.
    + destruct lp as [|c r]; [congruence|].
      simpl in Al. apply andb_true_iff in Al as [Hc Hr].
      change (String c r) with (String c EmptyString ++ r).
      constructor; [now constructor|].
      clear - Hr. induction r as [|x r IH]; [constructor|].
      simpl in Hr. apply andb_true_iff in Hr as [Hx Hr].
      change (String x r) with (String x EmptyString ++ r).
      constructor; [now constructor|now apply IH].
    + change (String "@" (joinDots labels))
        with (String "@" EmptyString ++ joinDots labels).
      constructor; [constructor; apply Ascii.eqb_refl|].
      apply domain_matches_iff. eauto.
Qed.

Lemma matches_domain d :
  Matches domainRegex d ->
  allChars isDomainChar d = true
  /\ holds isAlnum (firstChar d)
  /\ holds isAlnum (lastChar d).
Proof.
  unfold domainRegex. intros H.
  apply matches_cat in H as [l [t [-> [Hl Ht]]]].
  destruct (matches_label l Hl) as [Al [Fl [Ll Len]]].
  destruct (matches_more_labels t Ht) as [At Lt].
  repeat split.
  - rewrite allChars_app, At.
    now rewrite (allChars_weaken _ _ l alnumHyphen_domainChar Al).
  - rewrite firstChar_app; [exact Fl|].
    destruct l; [simpl in Len; lia|discriminate].
  - destruct Lt as [->|Lt].
    + now rewrite append_empty_r.
    + rewrite lastChar_app; [exact Lt|].
      destruct t; [contradiction|discriminate].
Qed.

Lemma joinDots_facts labels :
  labels <> [] -> Forall isLabel labels ->
  allChars isDomainChar (joinDots labels) = true
  /\ holds isAlnum (firstChar (joinDots labels))
  /\ holds isAlnum (lastChar (joinDots labels)).
Proof.
  intros Hne F. apply matches_domain, domain_matches_iff. eauto.
Qed.

Lemma emailRegex_labels s olp odom :
  Regex.test emailRegex s = true ->
  destructure2 (JsString.split s) = (olp, odom) ->
  exists lp labels,
    olp = Some lp /\ odom = Some (joinDots labels)
    /\ s = lp ++ String "@" (joinDots labels)
    /\ allChars isLocalChar lp = true
    /\ labels <> [] /\ Forall isLabel labels.
Proof.
  intros T D. apply test_sound, email_matches_iff in T.
  destruct T as [lp [labels [-> [Hne [Al [Hl F]]]]]].
  destruct (joinDots_facts labels Hl F) as [Ad _].
  rewrite (split_at_parts lp (joinDots labels)
             (allChars_no_at _ _ localChar_not_at Al)
             (allChars_no_at _ _ domainChar_not_at Ad)) in D.
  unfold destructure2 in D. simpl in D. inversion D; subst.
  exists lp, labels. repeat split; auto.
Qed.

Lemma not_startsWith c s :
  firstChar s <> Some c -> JsString.startsWith (String c EmptyString) s = false.
Proof.
  intros H. destruct (JsString.startsWith (String c EmptyString) s) eqn:E;
    [|reflexivity].
  apply startsWith_single in E. contradiction.
Qed.

Lemma not_endsWith c s :
  lastChar s <> Some c -> JsString.endsWith (String c EmptyString) s = false.
Proof.
  intros H. destruct (JsString.endsWith (String c EmptyString) s) eqn:E;
    [|reflexivity].
  apply endsWith_single in E. contradiction.
Qed.

(** ** Accepted addresses *)

(** X1.  [validateSyntax] passes a string exactly when its trimmed form is
    a local part, the separator and a domain such that: the local part has 1
    to 64 characters of the pattern's local class, neither begins nor ends
    with a period and has no two periods in a row; the domain has at most 253
    characters and is a list of labels joined by periods, each label made of
    1 to 63 letters, digits or hyphens and beginning and ending with a letter
    or a digit. *)
Theorem validateSyntax_passes_iff raw :
  passed (validateSyntax (VString raw)) = true
  <-> exists lp labels,
        JsString.trim raw = lp ++ String "@" (joinDots labels)
        /\ WellFormed lp labels.
Proof.
  split.
  - unfold validateSyntax; cbv zeta.
    destruct (JsString.isEmpty raw); [cbn [passed message check]; discriminate|].
    destruct (negb (JsString.countAt (JsString.trim raw) =? 1)%nat);
      [cbn [passed message check]; discriminate|].
    destruct (destructure2 (JsString.split (JsString.trim raw)))
      as [olp odom] eqn:D.
    destruct (badLength olp 64) eqn:B1; [cbn [passed message check]; discriminate|].
    destruct (badLength odom 253) eqn:B2;
      [cbn [passed message check]; discriminate|].
    destruct (negb (Regex.test emailRegex (JsString.trim raw))) eqn:T;
      [cbn [passed message check]; discriminate|].
    apply negb_false_iff in T.
    destruct (emailRegex_labels _ _ _ T D)
      as [lp [labels [-> [-> [E [Al [Hl F]]]]]]].
    cbn [strOf].
    destruct (JsString.startsWith "." lp || JsString.endsWith "." lp) eqn:P;
      [cbn [passed message check]; discriminate|].
    destruct (JsString.includes ".." lp) eqn:I;
      [cbn [passed message check]; discriminate|].
    intros _. exists lp, labels. split; [exact E|].
    apply orb_false_iff in P as [P1 P2].
    simpl in B1, B2.
    apply orb_false_iff in B1 as [B1 L1]. apply orb_false_iff in B1 as [_ N1].
    apply orb_false_iff in B2 as [B2 L2]. apply orb_false_iff in B2 as [_ N2].
    apply Nat.eqb_neq in N1, N2. apply Nat.ltb_ge in L1, L2.
    unfold WellFormed. repeat split; auto; try lia.
    + intros Fc. apply firstChar_startsWith in Fc. congruence.
    + intros Lc. apply lastChar_endsWith in Lc. congruence.
  - intros [lp [labels [E [[L1 L2] [Al [Fc [Lc [I [Hl [F Ld]]]]]]]]]].
    destruct (joinDots_facts labels Hl F) as [Ad [Fd Ldm]].
    assert (Hne : JsString.isEmpty raw = false).
    { destruct raw; [|reflexivity]. simpl in E. destruct lp; discriminate. }
    assert (Dn : String.length (joinDots labels) <> 0%nat).
    { destruct (joinDots labels); [contradiction|discriminate]. }
    unfold validateSyntax; cbv zeta. rewrite Hne, E.
    rewrite countAt_app. simpl.
    rewrite (allChars_no_at _ _ localChar_not_at Al),
            (allChars_no_at _ _ domainChar_not_at Ad). simpl.
    rewrite (split_at_parts lp (joinDots labels)
               (allChars_no_at _ _ localChar_not_at Al)
               (allChars_no_at _ _ domainChar_not_at Ad)).
    unfold destructure2. simpl nth_error. cbv iota.
    assert (B1 : badLength (Some lp) 64 = false).
    { simpl. destruct lp; [simpl in L1; lia|]. simpl.
      apply Nat.ltb_ge. simpl in L2. lia. }
    assert (B2 : badLength (Some (joinDots labels)) 253 = false).
    { simpl. destruct (joinDots labels) eqn:J; [simpl in Dn; lia|]. simpl.
      apply Nat.ltb_ge. simpl in Ld. lia. }
    rewrite B1, B2.
    assert (T : Regex.test emailRegex (lp ++ String "@" (joinDots labels)) = true).
    { apply test_complete, email_matches_iff. exists lp, labels.
      repeat split; auto. destruct lp; [simpl in L1; lia|discriminate]. }
    rewrite T. cbn [negb strOf].
    rewrite (not_startsWith _ _ Fc), (not_endsWith _ _ Lc), I. cbn [orb].
    rewrite (not_startsWith "-" (joinDots labels)),
            (not_endsWith "-" (joinDots labels)).
    + reflexivity.
    + now apply holds_alnum_not_hyphen.
    + now apply holds_alnum_not_hyphen.
Qed.

(** ** Winning the three races *)

Lemma withTimeout_fulfilled env stage r ms msg :
  timerFirst env stage ms = false ->
  withTimeout env stage (Fulfilled r) ms msg = inl r.
Proof. unfold withTimeout, race. now intros ->. Qed.

Lemma validateSMTP_first_host v env raw m rest r :
  0 < retryAttempts v ->
  probe v env raw 0 0 m = Fulfilled r -> passed r = true ->
  validateSMTP v env raw (m :: rest)
  = (Fulfilled r, [EvProbe 0 0 (exchange m)]).
Proof.
  intros Hr Hp Pr. unfold validateSMTP.
  destruct (Z.to_nat (retryAttempts v)) as [|n] eqn:E; [lia|].
  simpl. assert (L : (0 <? retryAttempts v) = true) by (apply Z.ltb_lt; lia).
  rewrite L, Hp, Pr. reflexivity.
Qed.

(** X11.  When an address passes the syntax check, its domain resolves and
    has MX records, the first host in priority order answers 220, 250, 250
    and 250 in the first round, the validator makes at least one round and no
    stage loses its race against the timer, then the report is valid. *)
Theorem first_host_acceptance_gives_valid v env raw lp dom found m rest :
  passed (validateSyntax (VString raw)) = true ->
  parseEmail raw = (Some lp, Some dom) ->
  (exists u, dnsLookup env (Some dom) = Fulfilled u) ->
  dnsResolveMx env (Some dom) = Fulfilled found ->
  sortByPriority found = m :: rest ->
  accepted [220; 250; 250; 250] (smtpServer env 0 0 (exchange m)) ->
  0 < retryAttempts v ->
  timerFirst env StageDomain 2000 = false ->
  timerFirst env StageMx 2000 = false ->
  timerFirst env StageSmtp (timeout v) = false ->
  exists r,
    validateEmail v env (VString raw) = Returned r
    /\ isValid r = true
    /\ stagesOf v env (VString raw)
       = [ CallValidateSyntax (VString raw); CallValidateDomain (Some dom);
           CallValidateMX (Some dom); CallValidateSMTP raw (Some (m :: rest));
           CallCheckDisposable (Some dom); CallCheckRoleBased (Some lp) ].
Proof.
  intros Ps Pe [u Hu] Hf Hsort Acc Hr Td Tm Ts.
  apply (accepts_iff_accepted v env raw) in Acc as [sr [Hp Pr]].
  assert (Hd : withTimeout env StageDomain (validateDomain env (Some dom)) 2000
                 "Domain lookup timeout"
               = inl (check true "Domain exists and is resolvable")).
  { unfold validateDomain. rewrite Hu. now apply withTimeout_fulfilled. }
  assert (Fne : (List.length found =? 0)%nat = false).
  { destruct found; [discriminate Hsort|reflexivity]. }
  assert (Hm : exists mr,
             withTimeout env StageMx (validateMX env (Some dom)) 2000
               "MX record lookup timeout" = inl mr
             /\ passed mr = true /\ records mr = Some (m :: rest)).
  { unfold validateMX. rewrite Hf, Fne, Hsort.
    eexists. split; [now apply withTimeout_fulfilled|]. split; reflexivity. }
  destruct Hm as [mr [Hm [Pm Rm]]].
  assert (Hs : withTimeout env StageSmtp
                 (fst (validateSMTP v env raw (m :: rest))) (timeout v)
                 "SMTP validation timeout" = inl sr).
  { rewrite (validateSMTP_first_host v env raw m rest sr Hr Hp Pr).
    now apply withTimeout_fulfilled. }
  destruct (validateEmail_string v env raw) as [st [R [T HP]]].
  exists (result st). rewrite T. split; [exact R|].
  destruct HP as [thrown shown Hthrown Hshown| Hf' | raw' lp' dom' dr Hi Hp' Hpass Hd' Pd
                 | raw' lp' dom' dr mr' Hi Hp' Hpass Hd' Pd Hm' Pm'
                 | raw' lp' dom' dr mr' sr' recs Hi Hp' Hpass Hd' Pd Hm' Pm' Em Rm' Hs'];
    try discriminate; try congruence;
    inversion Hi; subst raw'; rewrite Pe in Hp'; inversion Hp'; subst lp' dom'.
  - rewrite Hd in Hd'. inversion Hd'; subst. discriminate.
  - rewrite Hm in Hm'. inversion Hm'; subst mr'.
    rewrite Rm in Rm'. inversion Rm'; subst recs.
    rewrite Hs in Hs'. inversion Hs'; subst sr'.
    split; [exact Pr|reflexivity].
Qed.

Lemma first_host_acceptance_gives_valid_witness :
  exists r,
    validateEmail defaultValidator (sampleEnv "250 2.1.5 Ok")
      (VString "test@mailinator.com") = Returned r
    /\ isValid r = true
    /\ stagesOf defaultValidator (sampleEnv "250 2.1.5 Ok")
         (VString "test@mailinator.com")
       = [ CallValidateSyntax (VString "test@mailinator.com");
           CallValidateDomain (Some "mailinator.com");
           CallValidateMX (Some "mailinator.com");
           CallValidateSMTP "test@mailinator.com"
             (Some [mkMx "mx1.example.com" 10; mkMx "mx2.example.com" 20]);
           CallCheckDisposable (Some "mailinator.com");
           CallCheckRoleBased (Some "test") ].
Proof.
  apply (first_host_acceptance_gives_valid defaultValidator
           (sampleEnv "250 2.1.5 Ok") "test@mailinator.com" "test"
           "mailinator.com"
           [mkMx "mx2.example.com" 20; mkMx "mx1.example.com" 10]
           (mkMx "mx1.example.com" 10) [mkMx "mx2.example.com" 20]).
  - vm_compute. reflexivity.
  - vm_compute. reflexivity.
  - exists tt. reflexivity.
  - reflexivity.
  - vm_compute. reflexivity.
  - vm_compute. repeat split.
  - vm_compute. reflexivity.
  - reflexivity.
  - reflexivity.
  - reflexivity.
Defined.

(** ** The retry count *)

Lemma attemptLoop_no_round v env raw mxs fuel attempt :
  retryAttempts v <= attempt ->
  attemptLoop v env raw mxs fuel attempt = (Fulfilled smtpExhausted, []).
Proof.
  intros H. destruct fuel; simpl; [reflexivity|].
  assert (L : (attempt <? retryAttempts v) = false) by (apply Z.ltb_ge; lia).
  now rewrite L.
Qed.

(** X12.  The constructor replaces a missing or zero [retryAttempts] by 1
    and keeps any other number.  With a negative number the validator makes
    no connection at all: [validateSMTP] returns at once the failure "SMTP
    validation failed for all MX servers after retries", whatever the hosts.
    With a positive number and at least one host, the first thing it does is
    to probe the first host. *)
Theorem retryAttempts_edge_cases o env raw :
  retryAttempts (newEmailValidator o) <> 0
  /\ (opt_retryAttempts o = None \/ opt_retryAttempts o = Some 0 ->
      retryAttempts (newEmailValidator o) = 1)
  /\ (forall n, opt_retryAttempts o = Some n -> n <> 0 ->
      retryAttempts (newEmailValidator o) = n)
  /\ (retryAttempts (newEmailValidator o) < 0 ->
      forall mxs,
        validateSMTP (newEmailValidator o) env raw mxs
        = (Fulfilled
             (mkCheck false
                "SMTP validation failed for all MX servers after retries"
                None (Some EmptyString)),
           []))
  /\ (0 < retryAttempts (newEmailValidator o) ->
      forall m rest,
        exists t,
          snd (validateSMTP (newEmailValidator o) env raw (m :: rest))
          = EvProbe 0 0 (exchange m) :: t).
Proof.
  split; [|split; [|split; [|split]]].
  - unfold newEmailValidator, orNum. cbn [retryAttempts].
    destruct (opt_retryAttempts o) as [n|]; [|discriminate].
    destruct (n =? 0) eqn:E; [discriminate|]. now apply Z.eqb_neq.
  - unfold newEmailValidator, orNum. cbn [retryAttempts].
    intros [-> | ->]; reflexivity.
  - unfold newEmailValidator, orNum. cbn [retryAttempts].
    intros n -> Hn. apply Z.eqb_neq in Hn. now rewrite Hn.
  - intros H mxs. unfold validateSMTP. apply attemptLoop_no_round. lia.
  - intros H m rest. unfold validateSMTP.
    destruct (Z.to_nat (retryAttempts (newEmailValidator o))) as [|n] eqn:E;
      [lia|].
    cbn [attemptLoop].
    assert (L : (0 <? retryAttempts (newEmailValidator o)) = true)
      by (apply Z.ltb_lt; lia).
    rewrite L. cbn [hostLoop].
    destruct (probe (newEmailValidator o) env raw 0 0 m) as [r|e|].
    + destruct (passed r); [simpl; eauto|].
      destruct (hostLoop (newEmailValidator o) env raw 0 1 rest) as [[x|] t];
        [simpl; eauto|].
      destruct (attemptLoop (newEmailValidator o) env raw (m :: rest) n (0 + 1));
        simpl; eauto.
    + destruct (hostLoop (newEmailValidator o) env raw 0 1 rest) as [[x|] t];
        [simpl; eauto|].
      destruct (attemptLoop (newEmailValidator o) env raw (m :: rest) n (0 + 1));
        simpl; eauto.
    + simpl. eauto.
Qed.

Lemma retryAttempts_edge_cases_witness :
  validateSMTP (newEmailValidator (mkOptions None (Some (-1)) None None))
    (sampleEnv "250 2.1.5 Ok") "user@example.com" twoHosts
  = (Fulfilled
       (mkCheck false "SMTP validation failed for all MX servers after retries"
          None (Some EmptyString)),
     []).
Proof.
  destruct (retryAttempts_edge_cases (mkOptions None (Some (-1)) None None)
              (sampleEnv "250 2.1.5 Ok") "user@example.com") as [_ [_ [_ [H _]]]].
  apply H. vm_compute. reflexivity.
Defined.
